(** * smartcut: the cutting engine, embedded and checked against its specification

    The development follows the Python sources module by module:
    - [NalTools]       : [smartcut/nal_tools.py]
    - [MiscData]       : [smartcut/misc_data.py]
    - [MediaUtils]     : the export modes, quality levels and container
                         tables of [smartcut/media_utils.py]
    - [Planner]        : [make_adjusted_segment_times] and [make_cut_segments]
                         of [smartcut/smart_cut.py]
    - [Av], [Py]       : the demuxer library's packets and streams, and
                         Python objects, as far as the sources use them
    - [MediaContainer] : [smartcut/media_container.py]
    - [VideoCutter]    : the timestamp repair and the choice of a path in
                         [smartcut/video_cutter.py]
    - [TrackCutters]   : [smartcut/track_cutters.py]
    - [Driver]         : [smart_cut] of [smartcut/smart_cut.py]

    Integers are [Z], [Fraction]s are [Q], byte strings are lists of
    [Byte.byte], Python lists are Rocq lists, instance dictionaries are
    [gmap string _].  Code that can raise returns an [outcome].  The
    definitions come first, module by module; the properties follow. *)

From Stdlib Require Import ZArith QArith Qround Qabs Lia Lqa List Bool.
From stdpp Require Import base option list gmap strings sorting.
From Equations Require Import Equations.
Import ListNotations.

Local Open Scope Z_scope.

(** ** Outcomes of Python code

    A call either returns, raises, or (for the [while] loops, which the
    model runs on a fuel counter) is cut short.  The third case is shown
    unreachable for the fuel the top-level functions pass. *)

Inductive exn : Type :=
| IndexError
| KeyError
| AttributeError
| AssertionError
| TypeError
| ZeroDivisionError.

Inductive outcome (A : Type) : Type :=
| Ret (a : A)
| Raise (e : exn)
| OutOfFuel.

Arguments Ret {A} a.
Arguments Raise {A} e.
Arguments OutOfFuel {A}.

Definition obind {A B} (m : outcome A) (k : A -> outcome B) : outcome B :=
  match m with
  | Ret a => k a
  | Raise e => Raise e
  | OutOfFuel => OutOfFuel
  end.

Notation "'do' x <- m ; k" := (obind m (fun x => k))
  (at level 10, x name, m at level 100, k at level 200,
   format "'[v' 'do'  x  <-  m ; '/' k ']'").

Definition returns {A} (m : outcome A) : Prop := exists a, m = Ret a.

Definition is_ret {A} (m : outcome A) : bool :=
  match m with
  | Ret _ => true
  | _ => false
  end.

(** ** Python sequences *)

Section PySeq.
Context {A : Type}.

(** [l[i]] with Python's negative indices. *)
Definition py_getitem (l : list A) (i : Z) : outcome A :=
  let n := Z.of_nat (length l) in
  let j := if i <? 0 then i + n else i in
  if (0 <=? j) && (j <? n) then
    match nth_error l (Z.to_nat j) with
    | Some x => Ret x
    | None => Raise IndexError
    end
  else Raise IndexError.

(** [l[lo:hi]] for [0 <= lo]; the slice is cut at the end of [l]. *)
Definition py_slice (l : list A) (lo hi : Z) : list A :=
  firstn (Z.to_nat (hi - lo)) (skipn (Z.to_nat lo) l).

Definition py_len (l : list A) : Z := Z.of_nat (length l).
End PySeq.

(** ** nal_tools.py *)

Module NalTools.

Definition bytes := list Byte.byte.

Definition byte_val (b : Byte.byte) : Z := Z.of_N (Byte.to_N b).

(** [int.from_bytes(bs, byteorder='big')] *)
Definition int_from_bytes_big (bs : bytes) : Z :=
  fold_left (fun acc b => acc * 256 + byte_val b) bs 0.

Fixpoint starts_with (sub rest : bytes) : bool :=
  match sub, rest with
  | [], _ => true
  | _ :: _, [] => false
  | a :: sub', b :: rest' =>
      if Byte.eqb a b then starts_with sub' rest' else false
  end.

(** The scan of [bytes.find]: [rest] is the data from offset [idx] on. *)
Fixpoint find_from (sub rest : bytes) (idx : Z) : Z :=
  if starts_with sub rest then idx
  else match rest with
       | [] => -1
       | _ :: rest' => find_from sub rest' (idx + 1)
       end.

(** [data.find(sub, start)] for [0 <= start]. *)
Definition bytes_find (data sub : bytes) (start : Z) : Z :=
  find_from sub (skipn (Z.to_nat start) data) start.

(** [sub in data] *)
Fixpoint occurs_in (sub data : bytes) : bool :=
  starts_with sub data
  || match data with
     | [] => false
     | _ :: rest => occurs_in sub rest
     end.

Definition start_code_4 : bytes := [Byte.x00; Byte.x00; Byte.x00; Byte.x01].
Definition start_code_3 : bytes := [Byte.x00; Byte.x00; Byte.x01].

(** [a == b] on byte strings. *)
Fixpoint bytes_eqb (a b : bytes) : bool :=
  match a, b with
  | [], [] => true
  | x :: a', y :: b' => Byte.eqb x y && bytes_eqb a' b'
  | _, _ => false
  end.

(** What one of the scanning loops hands back: an early [return] from
    inside the loop, or the list collected when the loop is left. *)
Inductive scan : Type :=
| Returned (nal_type : Z)
| Collected (nal_types_found : list Z).

(** *** H.265 *)

Definition h265_type_of (b : Byte.byte) : Z :=
  Z.land (Z.shiftr (byte_val b) 1) 63.

(** [nal_type in (16, 17, 18, 19, 20)] *)
Definition is_bla_or_idr (t : Z) : bool :=
  (t =? 16) || (t =? 17) || (t =? 18) || (t =? 19) || (t =? 20).

(** The tail of both branches: CRA first, then a picture type in 0..15,
    then the first type seen.  [None] stands for an empty list, where the
    source falls through. *)
Definition h265_pick (found : list Z) : option Z :=
  match found with
  | [] => None
  | first :: _ =>
      match List.find (fun t => t =? 21) found with
      | Some t => Some t
      | None =>
          match List.find (fun t => (0 <=? t) && (t <=? 15)) found with
          | Some t => Some t
          | None => Some first
          end
      end
  end.

(** The length-prefixed loop, lines 31-41. *)
Fixpoint h265_length_prefixed_loop (fuel : nat) (packet_data : bytes)
    (i : Z) (found : list Z) : outcome scan :=
  let data_len := py_len packet_data in
  if negb (i <? data_len - 4) then Ret (Collected found) else
  match fuel with
  | O => OutOfFuel
  | S fuel' =>
      let nal_len := int_from_bytes_big (py_slice packet_data i (i + 4)) in
      if (nal_len <? 2) || (data_len - i - 4 <? nal_len) then
        Ret (Collected found)
      else if i + 5 <? data_len then
        do b <- py_getitem packet_data (i + 4);
        let nal_type := h265_type_of b in
        if is_bla_or_idr nal_type then Ret (Returned nal_type)
        else h265_length_prefixed_loop fuel' packet_data (i + 4 + nal_len)
               (found ++ [nal_type])
      else h265_length_prefixed_loop fuel' packet_data (i + 4 + nal_len) found
  end.

(** The Annex-B loop, lines 62-86. *)
Fixpoint h265_annexb_loop (fuel : nat) (packet_data : bytes)
    (pos : Z) (found : list Z) : outcome scan :=
  let data_len := py_len packet_data in
  if negb (pos <? data_len - 5) then Ret (Collected found) else
  match fuel with
  | O => OutOfFuel
  | S fuel' =>
      let idx4 := bytes_find packet_data start_code_4 pos in
      let idx3 := bytes_find packet_data start_code_3 pos in
      if (idx4 =? -1) && (idx3 =? -1) then Ret (Collected found)
      else if negb (idx4 =? -1) && ((idx3 =? -1) || (idx4 <=? idx3)) then
        if idx4 + 6 <=? data_len then
          do b <- py_getitem packet_data (idx4 + 4);
          let nal_type := h265_type_of b in
          if is_bla_or_idr nal_type then Ret (Returned nal_type)
          else h265_annexb_loop fuel' packet_data (idx4 + 4)
                 (found ++ [nal_type])
        else h265_annexb_loop fuel' packet_data (idx4 + 4) found
      else
        if idx3 + 5 <=? data_len then
          do b <- py_getitem packet_data (idx3 + 3);
          let nal_type := h265_type_of b in
          if is_bla_or_idr nal_type then Ret (Returned nal_type)
          else h265_annexb_loop fuel' packet_data (idx3 + 3)
                 (found ++ [nal_type])
        else h265_annexb_loop fuel' packet_data (idx3 + 3) found
  end.

Definition h265_annexb_part (fuel : nat) (packet_data : bytes)
    : outcome (option Z) :=
  do r <- h265_annexb_loop fuel packet_data 0 [];
  match r with
  | Returned t => Ret (Some t)
  | Collected found => Ret (h265_pick found)
  end.

Definition get_h265_nal_unit_type_fuel (fuel : nat) (packet_data : bytes)
    : outcome (option Z) :=
  let data_len := py_len packet_data in
  if data_len <? 6 then Ret None else
  let nal_length := int_from_bytes_big (py_slice packet_data 0 4) in
  if (4 <? nal_length) && (nal_length <=? data_len - 4) then
    do r <- h265_length_prefixed_loop fuel packet_data 0 [];
    match r with
    | Returned t => Ret (Some t)
    | Collected found =>
        match h265_pick found with
        | Some t => Ret (Some t)
        | None => h265_annexb_part fuel packet_data
        end
    end
  else h265_annexb_part fuel packet_data.

(** Every iteration of either loop moves its cursor forward, so the
    length of the payload is fuel enough (shown below). *)
Definition get_h265_nal_unit_type (packet_data : bytes) : outcome (option Z) :=
  get_h265_nal_unit_type_fuel (length packet_data) packet_data.

(** *** H.264 *)

Definition h264_type_of (b : Byte.byte) : Z := Z.land (byte_val b) 31.

Definition h264_pick (found : list Z) : option Z :=
  match found with
  | [] => None
  | first :: _ =>
      match List.find (fun t => (1 <=? t) && (t <=? 4)) found with
      | Some t => Some t
      | None => Some first
      end
  end.

(** The length-prefixed loop, lines 222-232. *)
Fixpoint h264_length_prefixed_loop (fuel : nat) (packet_data : bytes)
    (i : Z) (found : list Z) : outcome scan :=
  let data_len := py_len packet_data in
  if negb (i <? data_len - 4) then Ret (Collected found) else
  match fuel with
  | O => OutOfFuel
  | S fuel' =>
      let nal_len := int_from_bytes_big (py_slice packet_data i (i + 4)) in
      if (nal_len <? 1) || (data_len - i - 4 <? nal_len) then
        Ret (Collected found)
      else if i + 4 <? data_len then
        do b <- py_getitem packet_data (i + 4);
        let nal_type := h264_type_of b in
        if nal_type =? 5 then Ret (Returned 5)
        else h264_length_prefixed_loop fuel' packet_data (i + 4 + nal_len)
               (found ++ [nal_type])
      else h264_length_prefixed_loop fuel' packet_data (i + 4 + nal_len) found
  end.

(** The Annex-B loop, lines 247-271. *)
Fixpoint h264_annexb_loop (fuel : nat) (packet_data : bytes)
    (pos : Z) (found : list Z) : outcome scan :=
  let data_len := py_len packet_data in
  if negb (pos <? data_len - 4) then Ret (Collected found) else
  match fuel with
  | O => OutOfFuel
  | S fuel' =>
      let idx4 := bytes_find packet_data start_code_4 pos in
      let idx3 := bytes_find packet_data start_code_3 pos in
      if (idx4 =? -1) && (idx3 =? -1) then Ret (Collected found)
      else if negb (idx4 =? -1) && ((idx3 =? -1) || (idx4 <=? idx3)) then
        if idx4 + 5 <=? data_len then
          do b <- py_getitem packet_data (idx4 + 4);
          let nal_type := h264_type_of b in
          if nal_type =? 5 then Ret (Returned 5)
          else h264_annexb_loop fuel' packet_data (idx4 + 4)
                 (found ++ [nal_type])
        else h264_annexb_loop fuel' packet_data (idx4 + 4) found
      else
        if idx3 + 4 <=? data_len then
          do b <- py_getitem packet_data (idx3 + 3);
          let nal_type := h264_type_of b in
          if nal_type =? 5 then Ret (Returned 5)
          else h264_annexb_loop fuel' packet_data (idx3 + 3)
                 (found ++ [nal_type])
        else h264_annexb_loop fuel' packet_data (idx3 + 3) found
  end.

Definition h264_annexb_part (fuel : nat) (packet_data : bytes)
    : outcome (option Z) :=
  do r <- h264_annexb_loop fuel packet_data 0 [];
  match r with
  | Returned t => Ret (Some t)
  | Collected found => Ret (h264_pick found)
  end.

Definition get_h264_nal_unit_type_fuel (fuel : nat) (packet_data : bytes)
    : outcome (option Z) :=
  let data_len := py_len packet_data in
  if data_len <? 5 then Ret None else
  let nal_length := int_from_bytes_big (py_slice packet_data 0 4) in
  if (4 <? nal_length) && (nal_length <=? data_len - 4) then
    do r <- h264_length_prefixed_loop fuel packet_data 0 [];
    match r with
    | Returned t => Ret (Some t)
    | Collected found =>
        match h264_pick found with
        | Some t => Ret (Some t)
        | None => h264_annexb_part fuel packet_data
        end
    end
  else h264_annexb_part fuel packet_data.

Definition get_h264_nal_unit_type (packet_data : bytes) : outcome (option Z) :=
  get_h264_nal_unit_type_fuel (length packet_data) packet_data.

(** *** Classification helpers *)

Definition is_safe_h264_keyframe_nal (nal_type : option Z) : bool :=
  match nal_type with
  | None => true
  | Some t => (t =? 5) || (t =? 6) || (t =? 7) || (t =? 8)
  end.

Definition is_safe_h265_keyframe_nal (nal_type : option Z) : bool :=
  match nal_type with
  | None => true
  | Some t =>
      (t =? 16) || (t =? 17) || (t =? 18) || (t =? 19) || (t =? 20)
      || (t =? 21) || (t =? 32) || (t =? 33) || (t =? 34)
  end.

Definition is_rasl_nal_type (nal_type : option Z) : bool :=
  match nal_type with
  | None => false
  | Some t => (t =? 8) || (t =? 9)
  end.

Definition is_radl_nal_type (nal_type : option Z) : bool :=
  match nal_type with
  | None => false
  | Some t => (t =? 6) || (t =? 7)
  end.

Definition is_leading_picture_nal_type (nal_type : option Z) : bool :=
  is_rasl_nal_type nal_type || is_radl_nal_type nal_type.

(** *** The NAL sequence of a payload

    What the two H.265 scans walk over when nothing cuts them short:
    the type of every record (length-prefixed form) or of every start
    code (Annex-B form) that the loops of [get_h265_nal_unit_type]
    visit and have room to read a header from. *)

Fixpoint h265_length_prefixed_types (fuel : nat) (packet_data : bytes)
    (i : Z) : list Z :=
  let data_len := py_len packet_data in
  match fuel with
  | O => []
  | S fuel' =>
      if negb (i <? data_len - 4) then [] else
      let nal_len := int_from_bytes_big (py_slice packet_data i (i + 4)) in
      if (nal_len <? 2) || (data_len - i - 4 <? nal_len) then []
      else
        let rest :=
          h265_length_prefixed_types fuel' packet_data (i + 4 + nal_len) in
        if i + 5 <? data_len then
          h265_type_of (nth (Z.to_nat (i + 4)) packet_data Byte.x00) :: rest
        else rest
  end.

Fixpoint h265_annexb_types (fuel : nat) (packet_data : bytes) (pos : Z)
    : list Z :=
  let data_len := py_len packet_data in
  match fuel with
  | O => []
  | S fuel' =>
      if negb (pos <? data_len - 5) then [] else
      let idx4 := bytes_find packet_data start_code_4 pos in
      let idx3 := bytes_find packet_data start_code_3 pos in
      if (idx4 =? -1) && (idx3 =? -1) then []
      else if negb (idx4 =? -1) && ((idx3 =? -1) || (idx4 <=? idx3)) then
        let rest := h265_annexb_types fuel' packet_data (idx4 + 4) in
        if idx4 + 6 <=? data_len then
          h265_type_of (nth (Z.to_nat (idx4 + 4)) packet_data Byte.x00) :: rest
        else rest
      else
        let rest := h265_annexb_types fuel' packet_data (idx3 + 3) in
        if idx3 + 5 <=? data_len then
          h265_type_of (nth (Z.to_nat (idx3 + 3)) packet_data Byte.x00) :: rest
        else rest
  end.

(** The framing test of line 27. *)
Definition length_prefixed_form (packet_data : bytes) : bool :=
  let nal_length := int_from_bytes_big (py_slice packet_data 0 4) in
  (4 <? nal_length) && (nal_length <=? py_len packet_data - 4).

Definition h265_nal_types (packet_data : bytes) : list Z :=
  if py_len packet_data <? 6 then []
  else if length_prefixed_form packet_data then
    h265_length_prefixed_types (length packet_data) packet_data 0
  else h265_annexb_types (length packet_data) packet_data 0.

(** The priority rule in the words of the specification: the first
    BLA/IDR (16..20); else 21 when a CRA is present; else the first type
    in 0..15; else the first type met. *)
Definition h265_priority_choice (ts : list Z) : option Z :=
  match List.find (fun t => (16 <=? t) && (t <=? 20)) ts with
  | Some t => Some t
  | None =>
      if existsb (fun t => t =? 21) ts then Some 21
      else match List.find (fun t => (0 <=? t) && (t <=? 15)) ts with
           | Some t => Some t
           | None => head ts
           end
  end.

(** The same for H.264: the types that the loops of
    [get_h264_nal_unit_type] visit and have room to read a header from. *)

Fixpoint h264_length_prefixed_types (fuel : nat) (packet_data : bytes)
    (i : Z) : list Z :=
  let data_len := py_len packet_data in
  match fuel with
  | O => []
  | S fuel' =>
      if negb (i <? data_len - 4) then [] else
      let nal_len := int_from_bytes_big (py_slice packet_data i (i + 4)) in
      if (nal_len <? 1) || (data_len - i - 4 <? nal_len) then []
      else
        let rest :=
          h264_length_prefixed_types fuel' packet_data (i + 4 + nal_len) in
        if i + 4 <? data_len then
          h264_type_of (nth (Z.to_nat (i + 4)) packet_data Byte.x00) :: rest
        else rest
  end.

Fixpoint h264_annexb_types (fuel : nat) (packet_data : bytes) (pos : Z)
    : list Z :=
  let data_len := py_len packet_data in
  match fuel with
  | O => []
  | S fuel' =>
      if negb (pos <? data_len - 4) then [] else
      let idx4 := bytes_find packet_data start_code_4 pos in
      let idx3 := bytes_find packet_data start_code_3 pos in
      if (idx4 =? -1) && (idx3 =? -1) then []
      else if negb (idx4 =? -1) && ((idx3 =? -1) || (idx4 <=? idx3)) then
        let rest := h264_annexb_types fuel' packet_data (idx4 + 4) in
        if idx4 + 5 <=? data_len then
          h264_type_of (nth (Z.to_nat (idx4 + 4)) packet_data Byte.x00) :: rest
        else rest
      else
        let rest := h264_annexb_types fuel' packet_data (idx3 + 3) in
        if idx3 + 4 <=? data_len then
          h264_type_of (nth (Z.to_nat (idx3 + 3)) packet_data Byte.x00) :: rest
        else rest
  end.

Definition h264_nal_types (packet_data : bytes) : list Z :=
  if py_len packet_data <? 5 then []
  else if length_prefixed_form packet_data then
    h264_length_prefixed_types (length packet_data) packet_data 0
  else h264_annexb_types (length packet_data) packet_data 0.

(** The H.264 rule of the docstring: 5 when an IDR slice is present; else
    the first type in 1..4; else the first type met. *)
Definition h264_priority_choice (ts : list Z) : option Z :=
  if existsb (fun t => t =? 5) ts then Some 5
  else match List.find (fun t => (1 <=? t) && (t <=? 4)) ts with
       | Some t => Some t
       | None => head ts
       end.

(** *** Vocabulary of the classifiers' properties *)

(** None, or a type that fits a header field of values 0..[hi]. *)
Definition in_range (hi : Z) (r : option Z) : Prop :=
  match r with
  | Some t => 0 <= t <= hi
  | None => True
  end.

(** The test of [fetch_frame] (video_cutter.py, lines 749-751): the
    payload is classified as a leading picture, and the packet is kept out
    of the packets to remux. *)
Definition classified_as_leading (data : bytes) : Prop :=
  exists r, get_h265_nal_unit_type data = Ret r
            /\ is_leading_picture_nal_type r = true.

End NalTools.

(** ** Fractions *)

Definition Qlt_bool (a b : Q) : bool := negb (Qle_bool b a).

(** [max(a, b)] and [min(a, b)] of two arguments: the first one wins a tie. *)
Definition py_max (a b : Q) : Q := if Qlt_bool a b then b else a.
Definition py_min (a b : Q) : Q := if Qlt_bool b a then b else a.

(** [int(q)]: truncation toward zero. *)
Definition py_int (q : Q) : Z := Z.quot (Qnum q) (Z.pos (Qden q)).

(** ** misc_data.py *)

Module MiscData.

Record CutSegment : Type := mkCutSegment {
  require_recode : bool;
  start_time : Q;
  end_time : Q;
  gop_start_dts : Z;
  gop_end_dts : option Z;
  gop_index : Z
}.

(** [CutSegment(r, s, e)]: the three GOP fields keep their default -1. *)
Definition CutSegment3 (r : bool) (s e : Q) : CutSegment :=
  mkCutSegment r s e (-1) (Some (-1)) (-1).

Definition set_require_recode (b : bool) (c : CutSegment) : CutSegment :=
  mkCutSegment b (start_time c) (end_time c)
    (gop_start_dts c) (gop_end_dts c) (gop_index c).

End MiscData.

(** ** media_utils.py *)

Module MediaUtils.

Inductive VideoExportMode : Type := SMARTCUT | KEYFRAMES | RECODE.

Definition VideoExportMode_eqb (a b : VideoExportMode) : bool :=
  match a, b with
  | SMARTCUT, SMARTCUT | KEYFRAMES, KEYFRAMES | RECODE, RECODE => true
  | _, _ => false
  end.

Inductive VideoExportQuality : Type :=
| LOW | NORMAL | HIGH | INDISTINGUISHABLE | NEAR_LOSSLESS | LOSSLESS.

(** The value of a member of the enumeration. *)
Definition VideoExportQuality_value (q : VideoExportQuality) : Z :=
  match q with
  | LOW => 1
  | NORMAL => 2
  | HIGH => 3
  | INDISTINGUISHABLE => 4
  | NEAR_LOSSLESS => 5
  | LOSSLESS => 6
  end.

Inductive VideoCodec : Type := COPY | H264 | HEVC | VP9 | AV1.

Inductive AudioCodec : Type :=
| LIBOPUS | LIBVORBIS | AAC | MP3 | FLAC | PCM_S16LE | PCM_F32LE | PASSTHRU.

Definition AudioCodec_value (c : AudioCodec) : string :=
  match c with
  | LIBOPUS => "libopus"
  | LIBVORBIS => "libvorbis"
  | AAC => "aac"
  | MP3 => "libmp3lame"
  | FLAC => "flac"
  | PCM_S16LE => "pcm_s16le"
  | PCM_F32LE => "pcm_f32le"
  | PASSTHRU => "passthru"
  end.

(** Lines 55-72. *)
Definition get_crf_for_quality (quality : VideoExportQuality) : Z :=
  match quality with
  | LOW => 23
  | NORMAL => 18
  | HIGH => 14
  | INDISTINGUISHABLE => 8
  | NEAR_LOSSLESS => 3
  | LOSSLESS => 0
  end.

(** *** Strings

    A string is the sequence of its characters, each a code point below
    256. *)

(** [c.lower()] for one character: A..Z, and the capital letters of the
    upper half of Latin-1 (all of 192..222 but the multiplication sign),
    move up by 32. *)
Definition lower_char (c : Ascii.ascii) : Ascii.ascii :=
  let n := Ascii.N_of_ascii c in
  if ((65 <=? n) && (n <=? 90)
      || (192 <=? n) && (n <=? 222) && negb (n =? 215))%N
  then Ascii.ascii_of_N (n + 32)
  else c.

(** [s.lower()] *)
Fixpoint lower (s : string) : string :=
  match s with
  | EmptyString => EmptyString
  | String c rest => String (lower_char c) (lower rest)
  end.

(** The character [.] *)
Definition dot : Ascii.ascii := Ascii.ascii_of_N 46.

(** [s.lstrip('.')] *)
Fixpoint lstrip_dot (s : string) : string :=
  match s with
  | EmptyString => s
  | String c rest => if Ascii.eqb c dot then lstrip_dot rest else s
  end.

(** [sub in s] *)
Fixpoint contains (sub s : string) : bool :=
  String.prefix sub s
  || match s with
     | EmptyString => false
     | String _ rest => contains sub rest
     end.

(** [d.get(key)] on a dictionary literal with the items [d]. *)
Fixpoint dict_literal_get {V} (key : string) (d : list (string * V))
    : option V :=
  match d with
  | [] => None
  | (k, v) :: rest =>
      if String.eqb key k then Some v else dict_literal_get key rest
  end.

(** *** Containers and codecs *)

(** Lines 75-100. *)
Definition get_compatible_codec_for_format (user_codec : AudioCodec)
    (file_extension : string) : string :=
  let extension_codec_map :=
    [ ("mp3", AudioCodec_value MP3);
      ("flac", AudioCodec_value FLAC);
      ("ogg", AudioCodec_value LIBOPUS);
      ("wav", AudioCodec_value PCM_S16LE);
      ("m4a", AudioCodec_value AAC);
      ("ipod", AudioCodec_value AAC) ] in
  match dict_literal_get (lower file_extension) extension_codec_map with
  | Some codec => codec
  | None => AudioCodec_value user_codec
  end.

Definition get_audio_only_formats : list string :=
  ["mp3"; "flac"; "ogg"; "wav"; "m4a"; "ipod"].

(** Lines 112-122. *)
Definition is_audio_only_format (file_extension : string) : bool :=
  let ext := lstrip_dot (lower file_extension) in
  existsb (String.eqb ext) get_audio_only_formats.

(** Lines 173-206. *)
Definition get_valid_audio_codecs_for_container (container_ext : string)
    : list AudioCodec :=
  let ext := lstrip_dot (lower container_ext) in
  let audio_only_map :=
    [ ("mp3", [MP3]);
      ("flac", [FLAC]);
      ("wav", [PCM_S16LE; PCM_F32LE]);
      ("ogg", [LIBOPUS; LIBVORBIS]);
      ("m4a", [AAC]);
      ("ipod", [AAC]) ] in
  match dict_literal_get ext audio_only_map with
  | Some codecs => codecs
  | None =>
      let video_container_map :=
        [ ("mp4", [AAC; MP3]);
          ("mov", [AAC; MP3]);
          ("mkv", [AAC; MP3; LIBOPUS; FLAC; PCM_S16LE]);
          ("webm", [LIBOPUS; LIBVORBIS]);
          ("avi", [MP3; PCM_S16LE]) ] in
      default [AAC; MP3] (dict_literal_get ext video_container_map)
  end.

(** Lines 209-228. *)
Definition get_valid_video_codecs_for_container (container_ext : string)
    : list VideoCodec :=
  let ext := lstrip_dot (lower container_ext) in
  let container_map :=
    [ ("mp4", [H264; HEVC; AV1]);
      ("mov", [H264; HEVC]);
      ("mkv", [H264; HEVC; VP9; AV1]);
      ("webm", [VP9; AV1]);
      ("avi", [H264]) ] in
  default [H264; HEVC] (dict_literal_get ext container_map).

(** Lines 231-264. *)
Definition get_default_audio_codec_for_container (container_ext : string)
    : AudioCodec :=
  let ext := lstrip_dot (lower container_ext) in
  let audio_only_defaults :=
    [ ("mp3", MP3);
      ("flac", FLAC);
      ("wav", PCM_S16LE);
      ("ogg", LIBOPUS);
      ("m4a", AAC);
      ("ipod", AAC) ] in
  match dict_literal_get ext audio_only_defaults with
  | Some codec => codec
  | None =>
      let video_defaults :=
        [ ("mp4", AAC);
          ("mov", AAC);
          ("mkv", AAC);
          ("webm", LIBOPUS);
          ("avi", MP3) ] in
      default AAC (dict_literal_get ext video_defaults)
  end.

(** Lines 267-286. *)
Definition get_default_video_codec_for_container (container_ext : string)
    : VideoCodec :=
  let ext := lstrip_dot (lower container_ext) in
  let container_defaults :=
    [ ("mp4", H264);
      ("mov", H264);
      ("mkv", H264);
      ("webm", VP9);
      ("avi", H264) ] in
  default H264 (dict_literal_get ext container_defaults).

End MediaUtils.

(** ** smart_cut.py: planning *)

Module Planner.
Import MiscData.

(** The attributes of a [MediaContainer] that the planner reads.
    [audio_tracks] lists the [frame_times] of every track; a GOP end DTS
    is [None] when the last packet seen had no DTS. *)
Record MediaContainer : Type := mkMediaContainer {
  has_video_stream : bool;
  audio_tracks : list (list Q);
  gop_start_times_pts_s : list Q;
  gop_start_times_dts : list Z;
  gop_end_times_dts : list (option Z);
  start_time : Q;
  duration : Q
}.

(** A keep interval [(s, e)], in seconds. *)
Abbreviation interval := (Q * Q)%type.

Definition EPSILON : Q := 1 # 1000000.

Definition adjust_segment (mc : MediaContainer) (p : interval) : interval :=
  let '(s, e) := p in
  let s := if Qle_bool s EPSILON then (-10 # 1) else s in
  let e :=
    if Qle_bool (duration mc - EPSILON)%Q e then (duration mc + 10)%Q else e in
  ((s + start_time mc)%Q, (e + start_time mc)%Q).

Definition make_adjusted_segment_times
    (positive_segments : list interval) (mc : MediaContainer) : list interval :=
  map (adjust_segment mc) positive_segments.

(** Lines 71-73: [while s + 20 < e: append (s, s + 19); s += 19].
    Returns the slices appended and the value of [s] on leaving. *)
Equations? slice_loop (s e : Q) : list CutSegment * Q
  by wf (Z.to_nat (Qceiling (e - s))) lt :=
  slice_loop s e with Qlt_le_dec (s + 20)%Q e => {
    | left Hlt =>
        let r := slice_loop (s + 19)%Q e in
        (CutSegment3 false s (s + 19)%Q :: fst r, snd r)
    | right _ => ([], s) }.
Proof.
  pose proof (Qle_ceiling (e - s)) as Hc.
  pose proof (Qceiling_lt (e - (s + 19))) as Hc'.
  set (c := Qceiling (e - s)) in *.
  set (c' := Qceiling (e - (s + 19))) in *.
  assert (Hz : c' - 1 < c - 19).
  { rewrite Zlt_Qlt. eapply Qlt_le_trans; [exact Hc'|].
    unfold Z.sub. rewrite inject_Z_plus.
    change (inject_Z (- (19))) with (-19 # 1)%Q.
    generalize dependent (inject_Z c). intros b Hb. lra. }
  assert (Hpos : 20 < c).
  { rewrite Zlt_Qlt. change (inject_Z 20) with 20%Q.
    generalize dependent (inject_Z c). intros b Hb. lra. }
  lia.
Qed.

(** Lines 68-74, one keep interval. *)
Definition slice_interval (min_time max_time : Q) (p : interval)
    : list CutSegment :=
  let s := py_max (fst p) min_time in
  let e := py_min (snd p) max_time in
  let r := slice_loop s e in
  fst r ++ [CutSegment3 false (snd r) e].

(** Lines 64-75. *)
Definition make_cut_segments_audio (mc : MediaContainer)
    (positive_segments : list interval) : outcome (list CutSegment) :=
  do first_audio_track <- py_getitem (audio_tracks mc) 0;
  do min_time <- py_getitem first_audio_track 0;
  do last_time <- py_getitem first_audio_track (-1);
  let max_time := (last_time + (1 # 10000))%Q in
  Ret (concat (map (slice_interval min_time max_time) positive_segments)).

(** One row of the [zip] of line 79, with its [enumerate] index. *)
Record gop : Type := mkGop {
  gop_idx : Z;
  gop_i : Q;
  gop_o : Q;
  gop_i_dts : Z;
  gop_o_dts : option Z
}.

Fixpoint zip_gops (idx : Z) (starts ends : list Q)
    (starts_dts : list Z) (ends_dts : list (option Z)) : list gop :=
  match starts, ends, starts_dts, ends_dts with
  | i :: starts', o :: ends', i_dts :: starts_dts', o_dts :: ends_dts' =>
      mkGop idx i o i_dts o_dts
        :: zip_gops (idx + 1) starts' ends' starts_dts' ends_dts'
  | _, _, _, _ => []
  end.

Definition source_cutpoints (mc : MediaContainer) : list Q :=
  gop_start_times_pts_s mc
    ++ [(start_time mc + duration mc + (1 # 10000))%Q].

(** [source_cutpoints[:-1]] zipped with [source_cutpoints[1:]] and the two
    DTS tables. *)
Definition gops_of (mc : MediaContainer) : list gop :=
  let cp := source_cutpoints mc in
  zip_gops 0 (removelast cp) (tl cp)
    (gop_start_times_dts mc) (gop_end_times_dts mc).

Definition recode_in (g : gop) (s e : Q) : CutSegment :=
  mkCutSegment true s e (gop_i_dts g) (gop_o_dts g) (gop_idx g).

Definition copy_of (g : gop) : CutSegment :=
  mkCutSegment false (gop_i g) (gop_o g) (gop_i_dts g) (gop_o_dts g) (gop_idx g).

(** Lines 80-81: [while p < len(segs) and segs[p][1] <= i: p += 1];
    [rest] is [segs[p:]]. *)
Fixpoint skip_ended (i : Q) (rest : list interval) (p : nat) : nat :=
  match rest with
  | (_, e) :: rest' => if Qle_bool e i then skip_ended i rest' (S p) else p
  | [] => p
  end.

(** Lines 92-94: the intervals that end inside the GOP; [rest] is
    [segs[p:]]. *)
Fixpoint inner_intervals (g : gop) (rest : list interval) (p : nat)
    : list CutSegment * nat :=
  match rest with
  | (s, e) :: rest' =>
      if Qlt_bool e (gop_o g) then
        let r := inner_intervals g rest' (S p) in
        (recode_in g s e :: fst r, snd r)
      else ([], p)
  | [] => ([], p)
  end.

(** Lines 92-96: what is done with the GOP once [p] points at the first
    interval not yet dealt with. *)
Definition gop_tail (segs : list interval) (g : gop)
    (p : nat) (cut_segments : list CutSegment) : nat * list CutSegment :=
  let r := inner_intervals g (drop p segs) p in
  let cut_segments := cut_segments ++ fst r in
  let p := snd r in
  match segs !! p with
  | Some (s, _) =>
      if Qlt_bool s (gop_o g) then (p, cut_segments ++ [recode_in g s (gop_o g)])
      else (p, cut_segments)
  | None => (p, cut_segments)
  end.

(** Lines 80-96: the body of the [for] loop over the GOPs. *)
Definition gop_step (segs : list interval) (keyframe_mode : bool) (g : gop)
    (p : nat) (cut_segments : list CutSegment) : nat * list CutSegment :=
  let p := skip_ended (gop_i g) (drop p segs) p in
  match segs !! p with
  | None => (p, cut_segments)
  | Some (s, e) =>
      if Qle_bool (gop_o g) s then (p, cut_segments)
      else if keyframe_mode || (Qle_bool s (gop_i g) && Qle_bool (gop_o g) e)
      then (p, cut_segments ++ [copy_of g])
      else if Qlt_bool s (gop_i g) then
        gop_tail segs g (S p) (cut_segments ++ [recode_in g (gop_i g) e])
      else gop_tail segs g p cut_segments
  end.

Fixpoint gop_loop (segs : list interval) (keyframe_mode : bool)
    (gops : list gop) (p : nat) (cut_segments : list CutSegment)
    : nat * list CutSegment :=
  match gops with
  | [] => (p, cut_segments)
  | g :: gops' =>
      let r := gop_step segs keyframe_mode g p cut_segments in
      gop_loop segs keyframe_mode gops' (fst r) (snd r)
  end.

Definition make_cut_segments_video (mc : MediaContainer)
    (positive_segments : list interval) (keyframe_mode : bool)
    : list CutSegment :=
  snd (gop_loop positive_segments keyframe_mode (gops_of mc) 0%nat []).

Definition make_cut_segments (mc : MediaContainer)
    (positive_segments : list interval) (keyframe_mode : bool)
    : outcome (list CutSegment) :=
  if negb (has_video_stream mc) then
    make_cut_segments_audio mc positive_segments
  else Ret (make_cut_segments_video mc positive_segments keyframe_mode).

(** *** Vocabulary of the planner's properties *)

(** A copy-only segment no longer than [bound] seconds. *)
Definition copy_slice (bound : Q) (c : CutSegment) : Prop :=
  require_recode c = false
  /\ (MiscData.end_time c - MiscData.start_time c <= bound)%Q.

(** The check of [smart_cut], line 186. *)
Definition valid_segment (c : CutSegment) : Prop :=
  (MiscData.start_time c < MiscData.end_time c)%Q.

Definition valid_interval (p : interval) : Prop := (fst p < snd p)%Q.

Definition valid_gop (g : gop) : Prop := (gop_i g < gop_o g)%Q.

(** An audio-only source whose only track has the given packet times. *)
Definition audio_only (frame_times : list Q) : MediaContainer :=
  mkMediaContainer false [frame_times] [] [] [] 0 0.

(** Keep intervals in ascending order: each with [s < e], none starting
    before the one before it ends, the first not before [lo]. *)
Fixpoint ascending_from (lo : Q) (segs : list interval) : Prop :=
  match segs with
  | [] => True
  | (s, e) :: rest => (lo <= s)%Q /\ (s < e)%Q /\ ascending_from e rest
  end.

(** A segment that carries the tags of the GOP [g] and is either the whole
    GOP, to copy, or a stretch inside the GOP, to recode. *)
Definition within_gop (g : gop) (c : CutSegment) : Prop :=
  gop_start_dts c = gop_i_dts g
  /\ gop_end_dts c = gop_o_dts g
  /\ gop_index c = gop_idx g
  /\ (c = copy_of g
      \/ (require_recode c = true
          /\ (gop_i g <= MiscData.start_time c)%Q
          /\ (MiscData.end_time c <= gop_o g)%Q)).

(** A segment that starts before the end of one of the keep intervals
    [segs]; outside keyframe mode it lies inside that interval. *)
Definition from_interval (segs : list interval) (keyframe_mode : bool)
    (c : CutSegment) : Prop :=
  exists p, In p segs
    /\ (MiscData.start_time c < snd p)%Q
    /\ (keyframe_mode = false ->
        (fst p <= MiscData.start_time c)%Q /\ (MiscData.end_time c <= snd p)%Q).

(** One segment ends before the other starts. *)
Definition precedes (a b : CutSegment) : Prop :=
  (MiscData.end_time a <= MiscData.start_time b)%Q.

(** The time bounds of a GOP, as an interval. *)
Definition gop_bounds (g : gop) : interval := (gop_i g, gop_o g).

(** Cutpoints in strictly ascending order. *)
Fixpoint strictly_ascending (l : list Q) : Prop :=
  match l with
  | a :: ((b :: _) as rest) => (a < b)%Q /\ strictly_ascending rest
  | _ => True
  end.

(** Segments that follow one another without gap or overlap, from [a] to
    [b]. *)
Fixpoint chained (a b : Q) (l : list CutSegment) : Prop :=
  match l with
  | [] => a = b
  | c :: rest =>
      MiscData.start_time c = a /\ chained (MiscData.end_time c) b rest
  end.

End Planner.

(** ** The demuxer library, as far as the engine looks at it *)

Module Av.

Inductive stream_type : Type := video | audio | subtitle | attachment.

Definition stream_type_eqb (a b : stream_type) : bool :=
  match a, b with
  | video, video | audio, audio | subtitle, subtitle
  | attachment, attachment => true
  | _, _ => false
  end.

Module Stream.
Record t : Type := mk {
  index : Z;
  type : stream_type;
  codec_name : string;
  time_base : Q
}.
End Stream.

Module Packet.
Record t : Type := mk {
  pts : option Z;
  dts : option Z;
  duration : option Z;
  time_base : Q;
  stream : Stream.t;
  is_keyframe : bool;
  payload : NalTools.bytes
}.

Definition stream_index (p : t) : Z := Stream.index (stream p).

Definition set_pts (v : option Z) (p : t) : t :=
  mk v (dts p) (duration p) (time_base p) (stream p) (is_keyframe p) (payload p).

Definition set_dts (v : option Z) (p : t) : t :=
  mk (pts p) v (duration p) (time_base p) (stream p) (is_keyframe p) (payload p).

Definition set_stream (s : Stream.t) (tb : Q) (p : t) : t :=
  mk (pts p) (dts p) (duration p) tb s (is_keyframe p) (payload p).
End Packet.

(** The library keeps [pts] and [dts] in signed 64-bit fields: assigning
    an integer outside this range to one of them raises OverflowError.  The
    stamps of the model stand for values in this range; a property that
    says what the code hands out assumes that what it assigns fits. *)
Definition int64 (z : Z) : Prop := - 2 ^ 63 <= z < 2 ^ 63.

(** An opened input file: container times in [AV_TIME_BASE] units, the
    streams, and all packets in file order. *)
Record InputContainer : Type := mkInput {
  start_time : option Z;
  duration : option Z;
  streams : list Stream.t;
  packets : list Packet.t
}.

Definition streams_of (ty : stream_type) (c : InputContainer) : list Stream.t :=
  List.filter (fun s => stream_type_eqb (Stream.type s) ty) (streams c).

(** [container.demux(selected)] *)
Definition demux (c : InputContainer) (selected : list Stream.t)
    : list Packet.t :=
  List.filter
    (fun p => existsb (fun s => Stream.index s =? Packet.stream_index p) selected)
    (packets c).

End Av.

(** ** Python objects

    Attribute values are dynamically typed; an instance is its class name
    and its [__dict__]. *)

Module Py.

#[warnings="-register-all"]
Inductive value : Type :=
| VNone
| VBool (b : bool)
| VInt (z : Z)
| VFrac (q : Q)
| VStr (s : string)
| VList (l : list value)
| VPacket (p : Av.Packet.t)
| VStream (s : Av.Stream.t)
| VSelf
| VObj (cls : string) (dict : gmap string value).

Abbreviation dict := (gmap string value).

Definition of_option_int (o : option Z) : value :=
  match o with
  | Some z => VInt z
  | None => VNone
  end.

(** [obj.name] *)
Definition getattr (d : dict) (name : string) : outcome value :=
  match d !! name with
  | Some v => Ret v
  | None => Raise AttributeError
  end.

(** [v.append(x)]: only lists have the method. *)
Definition append (v x : value) : outcome value :=
  match v with
  | VList l => Ret (VList (l ++ [x]))
  | _ => Raise AttributeError
  end.

(** [len(v)] *)
Definition len (v : value) : outcome Z :=
  match v with
  | VList l => Ret (py_len l)
  | VStr s => Ret (Z.of_nat (String.length s))
  | _ => Raise TypeError
  end.

(** [v[i]] *)
Definition getitem (v : value) (i : Z) : outcome value :=
  match v with
  | VList l => py_getitem l i
  | _ => Raise TypeError
  end.

(** Truth value of [v]. *)
Definition truthy (v : value) : bool :=
  match v with
  | VNone => false
  | VBool b => b
  | VInt z => negb (z =? 0)
  | VFrac q => negb (Qeq_bool q 0)
  | VStr s => negb (String.eqb s "")
  | VList l => match l with [] => false | _ => true end
  | _ => true
  end.

(** A dataclass field: required, or with a default (value or factory
    result). *)
Inductive field_default : Type :=
| Required
| Default (v : value).

(** The [__init__] that [@dataclass] generates, called with positional
    arguments only: arguments fill the fields in declaration order, the
    fields left over take their defaults. *)
Fixpoint dataclass_init (fields : list (string * field_default))
    (args : list value) (d : dict) : outcome dict :=
  match fields, args with
  | [], [] => Ret d
  | [], _ :: _ => Raise TypeError
  | (name, _) :: fields', a :: args' =>
      dataclass_init fields' args' (<[name := a]> d)
  | (name, Default v) :: fields', [] =>
      dataclass_init fields' [] (<[name := v]> d)
  | (_, Required) :: _, [] => Raise TypeError
  end.

End Py.

(** ** media_container.py *)

Module MediaContainer.
Import Av Py.

Definition AV_TIME_BASE : positive := 1000000.

(** The fields of the [AudioTrack] dataclass, lines 25-33. *)
Definition AudioTrack_fields : list (string * field_default) :=
  [ ("media_container", Required);
    ("av_stream", Required);
    ("path", Required);
    ("index", Required);
    ("index_in_source", Default (VInt 0));
    ("packets", Default (VList []));
    ("frame_times", Default (VList [])) ].

Definition AudioTrack (args : list value) : outcome dict :=
  dataclass_init AudioTrack_fields args ∅.

(** Lines 94-99: one track per audio stream, built by the call
    [AudioTrack(self, a_s, loading_s, path, i, i)]; the second container
    lists the same streams.  Returns the tracks and the dictionary
    [stream_index_to_audio_track], held as stream index and position of the
    track in the list (the dictionary and the list share the objects). *)
Fixpoint make_audio_tracks (path : string) (i : Z)
    (zipped : list (Stream.t * Stream.t))
    : outcome (list dict * list (Z * nat)) :=
  match zipped with
  | [] => Ret ([], [])
  | (a_s, loading_s) :: rest =>
      do track <- AudioTrack
                    [VSelf; VStream a_s; VStream loading_s; VStr path; VInt i; VInt i];
      do r <- make_audio_tracks path (i + 1) rest;
      Ret (track :: fst r,
           (Stream.index a_s, 0%nat) :: map (fun e => (fst e, S (snd e))) (snd r))
  end.

(** [d[key]] on a dictionary held as an association list; the last
    assignment to a key is the one read. *)
Fixpoint dict_get {V} (d : list (Z * V)) (key : Z) : outcome V :=
  match d with
  | [] => Raise KeyError
  | (k, v) :: rest =>
      match dict_get rest key with
      | Ret v' => Ret v'
      | _ => if k =? key then Ret v else Raise KeyError
      end
  end.

(** The local variables and attributes that the demux loop updates. *)
Record loop_state : Type := mkLoop {
  ls_duration : Q;
  first_keyframe : bool;
  video_keyframe_indices : list Z;
  gop_start_times_dts : list Z;
  gop_end_times_dts : list (option Z);
  gop_start_nal_types : list (option Z);
  last_seen_video_dts : option Z;
  frame_pts : list Z;
  audio_tracks : list dict;
  subtitle_tracks : list (list Packet.t)
}.

(** What the loop reads and never changes. *)
Record loop_env : Type := mkEnv {
  has_video_stream : bool;
  is_h264 : bool;
  is_h265 : bool;
  manual_duration_calc : bool;
  stream_index_to_audio_track : list (Z * nat);
  stream_index_to_subtitle_track : list (Z * nat)
}.

(** Lines 123-148, a video packet with PTS [pts]. *)
Definition video_packet (env : loop_env) (st : loop_state) (packet : Packet.t)
    (pts : Z) : outcome loop_state :=
  do st <-
    (if Packet.is_keyframe packet then
       do nal_type <-
         (if is_h265 env then
            NalTools.get_h265_nal_unit_type (Packet.payload packet)
          else if is_h264 env then
            NalTools.get_h264_nal_unit_type (Packet.payload packet)
          else Ret None);
       let is_safe_keyframe :=
         if first_keyframe st then true
         else if is_h265 env then NalTools.is_safe_h265_keyframe_nal nal_type
         else if is_h264 env then NalTools.is_safe_h264_keyframe_nal nal_type
         else true in
       if is_safe_keyframe then
         let dts := match Packet.dts packet with
                    | Some d => d
                    | None => -100000000
                    end in
         Ret (mkLoop (ls_duration st) false
                (video_keyframe_indices st ++ [py_len (frame_pts st)])
                (gop_start_times_dts st ++ [dts])
                (match last_seen_video_dts st with
                 | Some _ => gop_end_times_dts st ++ [last_seen_video_dts st]
                 | None => gop_end_times_dts st
                 end)
                (gop_start_nal_types st ++ [nal_type])
                (last_seen_video_dts st) (frame_pts st)
                (audio_tracks st) (subtitle_tracks st))
       else
         Ret (mkLoop (ls_duration st) false
                (video_keyframe_indices st) (gop_start_times_dts st)
                (gop_end_times_dts st) (gop_start_nal_types st)
                (last_seen_video_dts st) (frame_pts st)
                (audio_tracks st) (subtitle_tracks st))
     else Ret st);
  Ret (mkLoop (ls_duration st) (first_keyframe st)
         (video_keyframe_indices st) (gop_start_times_dts st)
         (gop_end_times_dts st) (gop_start_nal_types st)
         (Packet.dts packet) (frame_pts st ++ [pts])
         (audio_tracks st) (subtitle_tracks st)).

(** Lines 150-155 on the track object itself. *)
Definition audio_track_packet (track : dict) (packet : Packet.t) (pts : Z)
    : outcome dict :=
  let track := <["last_packet" := VPacket packet]> track in
  do packets <- getattr track "packets";
  do packets <- append packets (VPacket packet);
  let track := <["packets" := packets]> track in
  do frame_times <- getattr track "frame_times";
  do frame_times <- append frame_times (VInt pts);
  Ret (<["frame_times" := frame_times]> track).

(** Lines 150-155. *)
Definition audio_packet (env : loop_env) (st : loop_state) (packet : Packet.t)
    (pts : Z) : outcome loop_state :=
  do pos <- dict_get (stream_index_to_audio_track env) (Packet.stream_index packet);
  match audio_tracks st !! pos with
  | None => Raise KeyError
  | Some track =>
      do track <- audio_track_packet track packet pts;
      Ret (mkLoop (ls_duration st) (first_keyframe st)
             (video_keyframe_indices st) (gop_start_times_dts st)
             (gop_end_times_dts st) (gop_start_nal_types st)
             (last_seen_video_dts st) (frame_pts st)
             (<[pos := track]> (audio_tracks st)) (subtitle_tracks st))
  end.

(** Line 157. *)
Definition subtitle_packet (env : loop_env) (st : loop_state)
    (packet : Packet.t) : outcome loop_state :=
  do pos <- dict_get (stream_index_to_subtitle_track env)
              (Packet.stream_index packet);
  match subtitle_tracks st !! pos with
  | None => Raise IndexError
  | Some track =>
      Ret (mkLoop (ls_duration st) (first_keyframe st)
             (video_keyframe_indices st) (gop_start_times_dts st)
             (gop_end_times_dts st) (gop_start_nal_types st)
             (last_seen_video_dts st) (frame_pts st)
             (audio_tracks st)
             (<[pos := track ++ [packet]]> (subtitle_tracks st)))
  end.

(** Lines 116-157: the body of the demux loop. *)
Definition demux_step (env : loop_env) (st : loop_state) (packet : Packet.t)
    : outcome loop_state :=
  match Packet.pts packet with
  | None => Ret st
  | Some pts =>
      let st :=
        match manual_duration_calc env, Packet.duration packet with
        | true, Some d =>
            mkLoop
              (py_max (ls_duration st)
                 (inject_Z (pts + d) * Packet.time_base packet)%Q)
              (first_keyframe st)
              (video_keyframe_indices st) (gop_start_times_dts st)
              (gop_end_times_dts st) (gop_start_nal_types st)
              (last_seen_video_dts st) (frame_pts st)
              (audio_tracks st) (subtitle_tracks st)
        | _, _ => st
        end in
      match Stream.type (Packet.stream packet) with
      | video =>
          if has_video_stream env then video_packet env st packet pts
          else Ret st
      | audio => audio_packet env st packet pts
      | subtitle => subtitle_packet env st packet
      | attachment => Ret st
      end
  end.

Fixpoint demux_loop (env : loop_env) (st : loop_state)
    (packets : list Packet.t) : outcome loop_state :=
  match packets with
  | [] => Ret st
  | packet :: rest =>
      do st <- demux_step env st packet;
      demux_loop env st rest
  end.

(** *** [_fill_hevc_picture_nal_types], lines 172-231 *)

Record fill_state : Type := mkFill {
  keyframe_index : Z;
  looking_for_picture : bool;
  found_pictures : Z;
  nal_types : list (option Z);
  stopped : bool
}.

Definition fill_step (indices_to_fill : list Z) (st : fill_state)
    (packet : Packet.t) : outcome fill_state :=
  if stopped st then Ret st else
  match Packet.pts packet with
  | None => Ret st
  | Some _ =>
      if negb (stream_type_eqb (Stream.type (Packet.stream packet)) video)
      then Ret st
      else if Packet.is_keyframe packet then
        Ret (mkFill (keyframe_index st + 1)
               (if existsb (Z.eqb (keyframe_index st)) indices_to_fill
                then true else looking_for_picture st)
               (found_pictures st) (nal_types st) false)
      else if looking_for_picture st then
        do nal_type <- NalTools.get_h265_nal_unit_type (Packet.payload packet);
        match nal_type with
        | Some t =>
            if t <=? 21 then
              let current_keyframe_idx := keyframe_index st - 1 in
              let hit := existsb (Z.eqb current_keyframe_idx) indices_to_fill in
              let types :=
                if hit then
                  <[Z.to_nat current_keyframe_idx := Some t]> (nal_types st)
                else nal_types st in
              let found := if hit then found_pictures st + 1
                           else found_pictures st in
              Ret (mkFill (keyframe_index st) false found types
                     (py_len indices_to_fill <=? found))
            else Ret st
        | None => Ret st
        end
      else Ret st
  end.

Fixpoint fill_loop (indices_to_fill : list Z) (st : fill_state)
    (packets : list Packet.t) : outcome fill_state :=
  match packets with
  | [] => Ret st
  | packet :: rest =>
      do st <- fill_step indices_to_fill st packet;
      fill_loop indices_to_fill st rest
  end.

(** The positions [i] with [nal_types[i] == -1]. *)
Fixpoint placeholders (i : Z) (types : list (option Z)) : list Z :=
  match types with
  | [] => []
  | t :: rest =>
      match t with
      | Some (-1) => i :: placeholders (i + 1) rest
      | _ => placeholders (i + 1) rest
      end
  end.

Definition _fill_hevc_picture_nal_types (c : InputContainer)
    (video_stream : option Stream.t) (types : list (option Z))
    : outcome (list (option Z)) :=
  match video_stream with
  | None => Ret types
  | Some vs =>
      if negb (String.eqb (Stream.codec_name vs) "hevc") then Ret types
      else
        let indices_to_fill := placeholders 0 types in
        match indices_to_fill with
        | [] => Ret types
        | _ :: _ =>
            do st <- fill_loop indices_to_fill (mkFill 0 false 0 types false)
                       (demux c (firstn 1 (streams_of video c)));
            Ret (nal_types st)
        end
  end.

(** *** [MediaContainer.__init__], lines 57-170 *)

(** [np.array(l) * time_base] on a list of integers. *)
Fixpoint scale_times (time_base : Q) (l : list value) : outcome (list value) :=
  match l with
  | [] => Ret []
  | VInt z :: rest =>
      do r <- scale_times time_base rest;
      Ret (VFrac (inject_Z z * time_base)%Q :: r)
  | _ :: _ => Raise TypeError
  end.

(** Lines 168-170, one track. *)
Definition convert_frame_times (track : dict) : outcome dict :=
  do frame_times <- getattr track "frame_times";
  do av_stream <- getattr track "av_stream";
  match frame_times, av_stream with
  | VList l, VStream a_s =>
      do times <- scale_times (Stream.time_base a_s) l;
      Ret (<["frame_times" := VList times]> track)
  | _, _ => Raise TypeError
  end.

Fixpoint convert_all_frame_times (tracks : list dict) : outcome (list dict) :=
  match tracks with
  | [] => Ret []
  | t :: rest =>
      do t <- convert_frame_times t;
      do r <- convert_all_frame_times rest;
      Ret (t :: r)
  end.

(** [video_frame_times[video_keyframe_indices]] *)
Fixpoint take_indices (times : list Q) (indices : list Z) : outcome (list Q) :=
  match indices with
  | [] => Ret []
  | i :: rest =>
      do t <- py_getitem times i;
      do r <- take_indices times rest;
      Ret (t :: r)
  end.

Fixpoint subtitle_index (i : nat) (subs : list Stream.t) : list (Z * nat) :=
  match subs with
  | [] => []
  | s :: rest => (Stream.index s, i) :: subtitle_index (S i) rest
  end.

(** Every packet of the file belongs to one of its streams. *)
Definition well_formed (c : InputContainer) : Prop :=
  Forall (fun p => In (Packet.stream p) (streams c)) (Av.packets c).

(** An audio packet that the demux loop does not skip. *)
Definition audio_with_pts (p : Packet.t) : Prop :=
  Stream.type (Packet.stream p) = audio /\ Packet.pts p <> None.

(** A track whose [packets] attribute holds an integer. *)
Definition packets_is_int (track : dict) : Prop :=
  exists i, track !! "packets" = Some (VInt i).

(** The shape of the state that the demux loop keeps on this code: every
    track still holds an integer as [packets], and no track is added or
    lost. *)
Definition loop_shape (n_audio n_subtitle : nat) (st : loop_state) : Prop :=
  Forall packets_is_int (audio_tracks st)
  /\ length (audio_tracks st) = n_audio
  /\ length (subtitle_tracks st) = n_subtitle.

Definition VInts (l : list Z) : value := VList (map VInt l).
Definition VOptInts (l : list (option Z)) : value := VList (map of_option_int l).
Definition VFracs (l : list Q) : value := VList (map VFrac l).
Definition VPackets (l : list Packet.t) : value := VList (map VPacket l).

(** The constructor.  The result is the [__dict__] of the new object:
    exactly the attributes that the body assigns through [self]. *)
Definition init (path : string) (c : InputContainer) : outcome dict :=
  let start_time :=
    match Av.start_time c with
    | Some t => (t # AV_TIME_BASE)
    | None => 0%Q
    end in
  let manual := match Av.duration c with None => true | Some _ => false end in
  let duration :=
    match Av.duration c with
    | Some d => (d # AV_TIME_BASE)
    | None => 0%Q
    end in
  let video_stream := head (streams_of video c) in
  let codec_is (name : string) :=
    match video_stream with
    | Some vs => String.eqb (Stream.codec_name vs) name
    | None => false
    end in
  let audio_streams := streams_of audio c in
  let subtitle_streams := streams_of subtitle c in
  let selected :=
    match video_stream with
    | Some vs => vs :: audio_streams
    | None => audio_streams
    end ++ subtitle_streams in
  do tracks <- make_audio_tracks path 0 (zip audio_streams audio_streams);
  let env :=
    mkEnv (match video_stream with Some _ => true | None => false end)
      (codec_is "h264") (codec_is "hevc") manual
      (snd tracks) (subtitle_index 0 subtitle_streams) in
  let st0 :=
    mkLoop duration true [] [] [] [] None [] (fst tracks)
      (map (fun _ => []) subtitle_streams) in
  do st <- demux_loop env st0 (demux c selected);
  let self : dict :=
    <["gop_start_nal_types" := VOptInts (gop_start_nal_types st)]>
    (<["gop_end_times_dts" := VOptInts (gop_end_times_dts st)]>
    (<["gop_start_times_dts" := VInts (gop_start_times_dts st)]>
    (<["subtitle_tracks" := VList (map VPackets (subtitle_tracks st))]>
    (<["audio_tracks" := VList (map (VObj "AudioTrack") (audio_tracks st))]>
    (<["video_stream" :=
         match video_stream with Some vs => VStream vs | None => VNone end]>
    (<["duration" := VFrac (ls_duration st)]>
    (<["start_time" := VFrac start_time]>
    (<["chat_visualize" := VBool true]>
    (<["chat_history" := VNone]>
    (<["chat_url" := VNone]>
    (<["av_containers" :=
       VList [VObj "InputContainer" ∅; VObj "InputContainer" ∅]]>
    (<["video_keyframe_indices" := VInts (video_keyframe_indices st)]>
    (<["path" := VStr path]> ∅))))))))))))) in
  do self <-
    match video_stream with
    | None => Ret self
    | Some vs =>
        let gop_end := gop_end_times_dts st ++ [last_seen_video_dts st] in
        let video_frame_times :=
          map (fun t => (inject_Z t * Stream.time_base vs)%Q)
            (merge_sort Z.le (frame_pts st)) in
        do gop_start_pts <- take_indices video_frame_times
                              (video_keyframe_indices st);
        do types <- _fill_hevc_picture_nal_types c video_stream
                      (gop_start_nal_types st);
        Ret (<["gop_start_nal_types" := VOptInts types]>
            (<["gop_start_times_pts_s" := VFracs gop_start_pts]>
            (<["video_frame_times" := VFracs video_frame_times]>
            (<["gop_end_times_dts" := VOptInts gop_end]> self))))
    end;
  do tracks <- convert_all_frame_times (audio_tracks st);
  Ret (<["audio_tracks" := VList (map (VObj "AudioTrack") tracks)]> self).

(** *** [get_next_frame_time], lines 237-251 *)

(** [np.searchsorted(a, v)] on an ascending array: the number of elements
    below [v]. *)
Fixpoint searchsorted (a : list Q) (v : Q) : nat :=
  match a with
  | [] => 0
  | x :: rest => if Qlt_bool x v then S (searchsorted rest v) else 0
  end.

(** Lines 239-251 on the array, for [t] already shifted by the start time:
    the frame time that is picked, None in the branch that returns
    [self.duration]. *)
Definition nearest_frame (video_frame_times : list Q) (t : Q) : option Q :=
  let idx := searchsorted video_frame_times t in
  if (idx =? length video_frame_times)%nat then None
  else
    match idx with
    | O => Some (nth 0 video_frame_times 0%Q)
    | S idx' =>
        let prev_val := nth idx' video_frame_times 0%Q in
        let next_val := nth idx video_frame_times 0%Q in
        if Qle_bool (t - prev_val) (next_val - t) then Some prev_val
        else Some next_val
    end.

(** The elements of an array of fractions. *)
Fixpoint fracs_of (l : list value) : outcome (list Q) :=
  match l with
  | [] => Ret []
  | VFrac q :: rest =>
      do r <- fracs_of rest;
      Ret (q :: r)
  | _ :: _ => Raise TypeError
  end.

Definition get_next_frame_time (self : dict) (t : Q) : outcome value :=
  do start_time <- getattr self "start_time";
  match start_time with
  | VFrac start_time =>
      let t := (t + start_time)%Q in
      do video_frame_times <- getattr self "video_frame_times";
      match video_frame_times with
      | VList l =>
          do times <- fracs_of l;
          match nearest_frame times t with
          | None => getattr self "duration"
          | Some x => Ret (VFrac (x - start_time)%Q)
          end
      | _ => Raise TypeError
      end
  | _ => Raise TypeError
  end.

(** *** Vocabulary of the index's invariants *)

(** The safety test that the demux loop applies to a keyframe that is not
    the first one, lines 135-138. *)
Definition keyframe_safe (env : loop_env) (nal_type : option Z) : bool :=
  if is_h265 env then NalTools.is_safe_h265_keyframe_nal nal_type
  else if is_h264 env then NalTools.is_safe_h264_keyframe_nal nal_type
  else true.

(** The state at the start of the demux loop, as far as the GOP tables
    go. *)
Definition fresh (st : loop_state) : Prop :=
  first_keyframe st = true
  /\ video_keyframe_indices st = []
  /\ gop_start_times_dts st = []
  /\ gop_end_times_dts st = []
  /\ gop_start_nal_types st = []
  /\ last_seen_video_dts st = None
  /\ frame_pts st = [].

(** What the loop keeps true of the GOP tables: the three tables of GOP
    starts have one entry per GOP; the keyframe positions go up and point
    into [frame_pts]; the recorded NAL types are None or header values;
    every GOP start but the first passed the safety test; no GOP end is
    recorded without a DTS, and no more GOP ends than GOP starts. *)
Definition gop_tables_ok (env : loop_env) (st : loop_state) : Prop :=
  length (video_keyframe_indices st) = length (gop_start_times_dts st)
  /\ length (gop_start_nal_types st) = length (gop_start_times_dts st)
  /\ StronglySorted Z.lt (video_keyframe_indices st)
  /\ Forall (fun i => 0 <= i < py_len (frame_pts st)) (video_keyframe_indices st)
  /\ Forall (NalTools.in_range 63) (gop_start_nal_types st)
  /\ Forall (fun t => keyframe_safe env t = true) (tl (gop_start_nal_types st))
  /\ (first_keyframe st = true -> gop_start_nal_types st = [])
  /\ Forall (fun d => d <> None) (gop_end_times_dts st)
  /\ (length (gop_end_times_dts st) <= length (gop_start_times_dts st))%nat.

(** A track as [AudioTrack(self, a_s, loading_s, path, i, i)] leaves it. *)
Definition untouched_track (track : dict) : Prop :=
  track !! "frame_times" = Some (VList [])
  /\ exists a_s, track !! "av_stream" = Some (VStream a_s).

(** A packet that the demux loop files under the subtitle stream [s]: it
    has a PTS, its stream is a subtitle stream, and its stream index is
    that of [s]. *)
Definition subtitle_of (s : Stream.t) (p : Packet.t) : bool :=
  match Packet.pts p with Some _ => true | None => false end
  && stream_type_eqb (Stream.type (Packet.stream p)) subtitle
  && (Packet.stream_index p =? Stream.index s).

(** The subtitle tracks once the loop has gone through [processed]. *)
Definition tracks_of (subs : list Stream.t) (processed : list Packet.t)
    : list (list Packet.t) :=
  map (fun s => List.filter (subtitle_of s) processed) subs.

(** No packet of the file is an audio packet with a PTS. *)
Definition no_audio_packet (c : InputContainer) : Prop :=
  Forall (fun p => ~ audio_with_pts p) (Av.packets c).

End MediaContainer.

(** ** From the object to the planner's record *)

Module View.
Import Av Py.

Definition as_frac (v : value) : option Q :=
  match v with VFrac q => Some q | _ => None end.

Definition as_int (v : value) : option Z :=
  match v with VInt z => Some z | _ => None end.

Definition as_option_int (v : value) : option (option Z) :=
  match v with
  | VInt z => Some (Some z)
  | VNone => Some None
  | _ => None
  end.

Definition as_list {A} (f : value -> option A) (v : value) : option (list A) :=
  match v with
  | VList l => mapM f l
  | _ => None
  end.

Definition frame_times_of (track : value) : option (list Q) :=
  match track with
  | VObj _ d => d !! "frame_times" ≫= as_list as_frac
  | _ => None
  end.

(** Reads, from the [__dict__] of a [MediaContainer], the attributes that
    [make_cut_segments] uses. *)
Definition planner_view (self : dict) : option Planner.MediaContainer :=
  video_stream ← self !! "video_stream";
  audio_tracks ← self !! "audio_tracks" ≫= as_list frame_times_of;
  start_time ← self !! "start_time" ≫= as_frac;
  duration ← self !! "duration" ≫= as_frac;
  gop_start_times_dts ← self !! "gop_start_times_dts" ≫= as_list as_int;
  gop_end_times_dts ← self !! "gop_end_times_dts" ≫= as_list as_option_int;
  let gop_start_times_pts_s :=
    default [] (self !! "gop_start_times_pts_s" ≫= as_list as_frac) in
  Some (Planner.mkMediaContainer (truthy video_stream) audio_tracks
          gop_start_times_pts_s gop_start_times_dts gop_end_times_dts
          start_time duration).

End View.

(** ** video_cutter.py: timestamp repair and the choice of a path *)

Module VideoCutter.
Import MiscData Av Py.

(** [is_annexb], lines 35-39, on the bytes of its argument. *)
Definition is_annexb (packet : option NalTools.bytes) : bool :=
  match packet with
  | None => false
  | Some data =>
      NalTools.bytes_eqb (py_slice data 0 3) NalTools.start_code_3
      || NalTools.bytes_eqb (py_slice data 0 4) NalTools.start_code_4
  end.

(** The default of [initial_last_dts]. *)
Definition initial_last_dts : Z := -100000000.

(** [_fix_packet_timestamps], lines 351-384.  Takes [self.last_dts] and
    returns the packet as left by the method with the new [self.last_dts].
    This is the method as long as the stamps it assigns fit the 64-bit
    fields of the packet ([Av.int64]); [last_dts + 1] beyond that range
    raises OverflowError in the code. *)
Definition _fix_packet_timestamps (out_stream : Stream.t) (out_time_base : Q)
    (last_dts : Z) (packet : Packet.t) : Packet.t * Z :=
  let packet := Packet.set_stream out_stream out_time_base packet in
  let packet :=
    match Packet.dts packet with
    | Some d =>
        if (d <? -900000) || (1000000000000 <? d)
        then Packet.set_dts None packet else packet
    | None => packet
    end in
  match Packet.dts packet with
  | Some d =>
      let d := if d <=? last_dts then last_dts + 1 else d in
      let packet := Packet.set_dts (Some d) packet in
      let packet :=
        match Packet.pts packet with
        | Some t => if t <? d then Packet.set_pts (Some d) packet else packet
        | None => packet
        end in
      (packet, d)
  | None =>
      let pts_value := match Packet.pts packet with
                       | Some t => t
                       | None => 0
                       end in
      let d := if last_dts <? 0 then pts_value else last_dts + 1 in
      (Packet.set_dts (Some d) packet, d)
  end.

(** [for packet in packets: self._fix_packet_timestamps(packet)], as in
    [segment] and [finish]. *)
Fixpoint fix_packets (out_stream : Stream.t) (out_time_base : Q)
    (last_dts : Z) (packets : list Packet.t) : list Packet.t * Z :=
  match packets with
  | [] => ([], last_dts)
  | packet :: rest =>
      let r := _fix_packet_timestamps out_stream out_time_base last_dts packet in
      let r' := fix_packets out_stream out_time_base (snd r) rest in
      (fst r :: fst r', snd r')
  end.

(** The CRF that [init_encoder] sets, lines 265-267 and 285-291, as a
    number ([str(crf_value)] is what goes into the options).  A codec name
    that contains [av1] is taken as [av1]. *)
Definition encoder_crf (codec_name : option string)
    (quality : MediaUtils.VideoExportQuality) : Z :=
  let name := match codec_name with Some n => n | None => EmptyString end in
  let codec_name := if MediaUtils.contains "av1" name then Some "av1"%string
                    else codec_name in
  let crf_value := MediaUtils.get_crf_for_quality quality in
  let crf_value :=
    match codec_name with
    | Some n =>
        if existsb (String.eqb n) ["hevc"; "av1"; "vp9"]%string
        then crf_value + 4 else crf_value
    | None => crf_value
    end in
  match quality with
  | MediaUtils.LOSSLESS => 0
  | _ => crf_value
  end.


(** [_should_hybrid_recode_cra], lines 524-542; [mc] is the [__dict__] of
    [self.media_container]. *)
Definition _should_hybrid_recode_cra (mc : dict)
    (is_first_remuxed_segment : bool)
    (last_remuxed_segment_gop_index : option Z) (s : CutSegment)
    : outcome bool :=
  if gop_index s <? 0 then Ret false else
  do gop_has_rasl <- getattr mc "gop_has_rasl";
  do n <- len gop_has_rasl;
  if n <=? gop_index s then Ret false else
  do gop_has_rasl <- getattr mc "gop_has_rasl";
  do flag <- getitem gop_has_rasl (gop_index s);
  if negb (truthy flag) then Ret false else
  Ret ((is_first_remuxed_segment && (0 <? gop_index s))
       || match last_remuxed_segment_gop_index with
          | Some last => last + 1 <? gop_index s
          | None => false
          end).

(** The three branches of [segment], lines 424-438. *)
Inductive branch : Type :=
| recode_segment
| hybrid_recode_cra_segment
| remux_segment.

Definition segment_path (mc : dict) (is_first_remuxed_segment : bool)
    (last_remuxed_segment_gop_index : option Z) (cut_segment : CutSegment)
    : outcome branch :=
  if require_recode cut_segment then Ret recode_segment
  else
    do hybrid <- _should_hybrid_recode_cra mc is_first_remuxed_segment
                   last_remuxed_segment_gop_index cut_segment;
    if hybrid then Ret hybrid_recode_cra_segment else Ret remux_segment.

End VideoCutter.

(** ** track_cutters.py *)

Module TrackCutters.
Import MiscData Av.

(** The cutters are taken with their fields as given: the constructors
    are not part of the model.  In these sources [SubtitleCutter.__init__]
    reads [media_container.av_container] and [PassthruAudioCutter.segment]
    reads [self.track.frame_times_pts] before its loop, two attributes
    that [MediaContainer.__init__] does not assign. *)

(** The default of [initial_prev_dts] and [initial_prev_pts]. *)
Definition initial_prev : Z := -100000.

(** [PassthruAudioCutter.segment], lines 64-80: the loop over the packets
    [in_packets] selected for the segment, for a non-zero [in_tb] (at 0
    the division of line 70 raises ZeroDivisionError) and for stamps that
    fit the 64-bit fields of a packet ([Av.int64]).  Returns the packets
    appended and the new [(prev_pts, prev_dts)]. *)
Fixpoint passthru_packets (out_stream : Stream.t) (in_tb : Q)
    (segment_start_in_output : Q) (cut_segment : CutSegment)
    (prev_pts prev_dts : Z) (in_packets : list Packet.t)
    : list Packet.t * (Z * Z) :=
  match in_packets with
  | [] => ([], (prev_pts, prev_dts))
  | p :: rest =>
      match Packet.pts p, Packet.dts p with
      | Some p_pts, Some p_dts =>
          let shift :=
            ((segment_start_in_output - MiscData.start_time cut_segment) / in_tb)%Q in
          let pts := py_int (inject_Z p_pts + shift)%Q in
          let dts := py_int (inject_Z p_dts + shift)%Q in
          let pts := if pts <=? prev_pts then prev_pts + 1 else pts in
          let dts := if dts <=? prev_dts then prev_dts + 1 else dts in
          let packet :=
            Packet.mk (Some pts) (Some dts) (Packet.duration p)
              (Packet.time_base p) out_stream (Packet.is_keyframe p)
              (Packet.payload p) in
          let r := passthru_packets out_stream in_tb segment_start_in_output
                     cut_segment pts dts rest in
          (packet :: fst r, snd r)
      | _, _ =>
          passthru_packets out_stream in_tb segment_start_in_output
            cut_segment prev_pts prev_dts rest
      end
  end.

(** [SubtitleCutter]: the cursor, the output position and the last PTS. *)
Record subtitle_state : Type := mkSub {
  current_packet_i : nat;
  segment_start_in_output : Q;
  prev_pts : Z
}.

(** Lines 136-144; [rest] is [self.packets[i:]].  Returns the positions
    picked and the cursor on leaving.  Comparing a missing PTS with an
    integer raises. *)
Fixpoint select_subtitles (segment_start_pts segment_end_pts : Z)
    (rest : list Packet.t) (i : nat) : outcome (list nat * nat) :=
  match rest with
  | [] => Ret ([], i)
  | p :: rest' =>
      match Packet.pts p with
      | None => Raise TypeError
      | Some t =>
          if t <? segment_start_pts then
            select_subtitles segment_start_pts segment_end_pts rest' (S i)
          else if (segment_start_pts <=? t) && (t <? segment_end_pts) then
            do r <- select_subtitles segment_start_pts segment_end_pts rest' (S i);
            Ret (i :: fst r, snd r)
          else Ret ([], i)
      end
  end.

(** Lines 146-155.  The packets are the objects of the track itself: each
    one is rewritten in place, in [packets], and handed out. *)
Fixpoint retime_subtitles (out_stream : Stream.t) (in_tb : Q)
    (segment_start_pts : Z) (segment_start_in_output : Q)
    (packets : list Packet.t) (prev_pts : Z) (picked : list nat)
    : outcome (list Packet.t * list Packet.t * Z) :=
  match picked with
  | [] => Ret ([], packets, prev_pts)
  | i :: rest =>
      match packets !! i with
      | None => Raise IndexError
      | Some packet =>
          match Packet.pts packet with
          | None => Raise TypeError
          | Some t =>
              let pts :=
                py_int (inject_Z (t - segment_start_pts)
                        + segment_start_in_output / in_tb)%Q in
              let pts := if pts <? prev_pts then prev_pts + 1 else pts in
              let packet :=
                Packet.mk (Some pts) (Some pts) (Packet.duration packet)
                  (Packet.time_base packet) out_stream
                  (Packet.is_keyframe packet) (Packet.payload packet) in
              do r <- retime_subtitles out_stream in_tb segment_start_pts
                        segment_start_in_output (<[i := packet]> packets)
                        pts rest;
              Ret (packet :: fst (fst r), snd (fst r), snd r)
          end
      end
  end.

(** [SubtitleCutter.segment], lines 126-158, for stamps that fit the
    64-bit fields of a packet ([Av.int64]).  Returns the packets handed
    out, the track's packet list after the call, and the new state.  The
    divisions of lines 128-129 raise at a zero time base. *)
Definition subtitle_segment (out_stream : Stream.t) (in_tb : Q)
    (packets : list Packet.t) (st : subtitle_state) (cut_segment : CutSegment)
    : outcome (list Packet.t * list Packet.t * subtitle_state) :=
  if Qeq_bool in_tb 0 then Raise ZeroDivisionError else
  let segment_start_pts := py_int (MiscData.start_time cut_segment / in_tb)%Q in
  let segment_end_pts := py_int (MiscData.end_time cut_segment / in_tb)%Q in
  do sel <- select_subtitles segment_start_pts segment_end_pts
              (drop (current_packet_i st) packets) (current_packet_i st);
  do r <- retime_subtitles out_stream in_tb segment_start_pts
            (segment_start_in_output st) packets (prev_pts st) (fst sel);
  Ret (fst (fst r), snd (fst r),
       mkSub (snd sel)
         (segment_start_in_output st
          + (MiscData.end_time cut_segment - MiscData.start_time cut_segment))%Q
         (snd r)).

(** *** Vocabulary of the output-timestamp invariant *)

Definition dts_of (p : Packet.t) : Z :=
  match Packet.dts p with Some d => d | None => 0 end.

(** Strictly increasing DTS along an emitted sequence. *)
Fixpoint dts_increasing (packets : list Packet.t) : bool :=
  match packets with
  | p :: ((q :: _) as rest) =>
      match Packet.dts p, Packet.dts q with
      | Some a, Some b => (a <? b) && dts_increasing rest
      | _, _ => false
      end
  | _ => true
  end.

(** Every packet has a DTS, the first above [last], each above the one
    before. *)
Fixpoint increasing_from (last : Z) (packets : list Packet.t) : Prop :=
  match packets with
  | [] => True
  | p :: rest =>
      exists d, Packet.dts p = Some d /\ last < d /\ increasing_from d rest
  end.

(** Every packet has PTS and DTS equal, the first not below [last], each
    not below the one before. *)
Fixpoint nondecreasing_from (last : Z) (packets : list Packet.t) : Prop :=
  match packets with
  | [] => True
  | p :: rest =>
      exists d, Packet.pts p = Some d /\ Packet.dts p = Some d
                /\ last <= d /\ nondecreasing_from d rest
  end.

(** Every packet has a PTS and a DTS, each above that of the packet
    before, the first ones above [last_pts] and [last_dts]. *)
Fixpoint stamps_increasing_from (last_pts last_dts : Z)
    (packets : list Packet.t) : Prop :=
  match packets with
  | [] => True
  | p :: rest =>
      exists t d, Packet.pts p = Some t /\ Packet.dts p = Some d
                  /\ last_pts < t /\ last_dts < d
                  /\ stamps_increasing_from t d rest
  end.

(** The stamp that lines 68-69 of track_cutters.py compute from the stamp
    [x] of a source packet, before the comparison with the one before. *)
Definition passthru_shifted (in_tb segment_start_in_output : Q)
    (cut_segment : CutSegment) (x : Z) : Z :=
  py_int (inject_Z x
          + (segment_start_in_output - MiscData.start_time cut_segment) / in_tb)%Q.

(** The PTS that line 148 computes from the PTS [t] of a subtitle packet,
    before the comparison with the one before. *)
Definition subtitle_shifted (in_tb segment_start_in_output : Q)
    (cut_segment : CutSegment) (t : Z) : Z :=
  py_int (inject_Z (t - py_int (MiscData.start_time cut_segment / in_tb))
          + segment_start_in_output / in_tb)%Q.

Definition pts_of (p : Packet.t) : Z :=
  match Packet.pts p with Some t => t | None => 0 end.

(** A packet with a PTS: the demux loop of the index stores no other. *)
Definition has_pts (p : Packet.t) : Prop := Packet.pts p <> None.

(** The test of line 65 of track_cutters.py, negated: both stamps are
    there. *)
Definition has_stamps (p : Packet.t) : bool :=
  match Packet.pts p, Packet.dts p with
  | Some _, Some _ => true
  | _, _ => false
  end.

(** A packet as the decoder, encoder or demuxer hands it over in the
    ordinary case: PTS present, DTS present and no flush artifact. *)
Definition stamped (p : Packet.t) : Prop :=
  exists t d, Packet.pts p = Some t /\ Packet.dts p = Some d
              /\ -900000 <= d <= 1000000000000.

(** [PTS >= DTS] on a packet. *)
Definition pts_ge_dts (p : Packet.t) : bool :=
  match Packet.pts p, Packet.dts p with
  | Some t, Some d => d <=? t
  | _, _ => false
  end.

End TrackCutters.

(** ** smart_cut.py: the driver *)

Module Driver.
Import MiscData MediaUtils Av.

(** What the driver does to the outside world. *)
Inductive event : Type :=
| EvOpen (file : string)
| EvMux (file : string) (packet : Packet.t)
| EvClose (file : string)
| EvRemove (file : string)
| EvCancelSeen.

(** The trace so far, the output files on disk, and how often
    [cancel_object.cancelled] has been read. *)
Record world : Type := mkWorld {
  log : list event;
  files : gset string;
  polls : nat
}.

Definition empty_world : world := mkWorld [] ∅ 0.

(** The events that only a cancellation brings about. *)
Definition is_cancel_event (e : event) : bool :=
  match e with
  | EvRemove _ | EvCancelSeen => true
  | _ => false
  end.

(** [w'] continues [w] with events that no cancellation brings about, on
    the same files and the files [new], the flag never read. *)
Definition continues_quietly (new : gset string) (w w' : world) : Prop :=
  polls w' = polls w
  /\ files w' = new ∪ files w
  /\ exists evs, log w' = log w ++ evs
                 /\ Forall (fun e => is_cancel_event e = false) evs.

Definition emit (evs : list event) (w : world) : world :=
  mkWorld (log w ++ evs) (files w) (polls w).

(** [cancel_object is not None and cancel_object.cancelled].  The flag is
    set from outside; [flag k] is its value at the [k]-th read. *)
Definition poll (cancel_object : option (nat -> bool)) (w : world)
    : bool * world :=
  match cancel_object with
  | None => (false, w)
  | Some flag =>
      if flag (polls w)
      then (true, mkWorld (log w ++ [EvCancelSeen]) (files w) (S (polls w)))
      else (false, mkWorld (log w) (files w) (S (polls w)))
  end.

Definition open_output (file : string) (w : world) : world :=
  mkWorld (log w ++ [EvOpen file]) ({[file]} ∪ files w) (polls w).

Definition mux (file : string) (packets : list Packet.t) (w : world) : world :=
  emit (map (EvMux file) packets) w.

(** Lines 202-206. *)
Definition remove_if_exists (file : string) (w : world) : world :=
  if decide (file ∈ files w)
  then mkWorld (log w ++ [EvRemove file]) (files w ∖ {[file]}) (polls w)
  else w.

(** The world after a read of the flag that found it set. *)
Definition seen (w : world) : world :=
  mkWorld (log w ++ [EvCancelSeen]) (files w) (S (polls w)).

(** Lines 189-190. *)
Definition drop_garbage_dts (packet : Packet.t) : Packet.t :=
  match Packet.dts packet with
  | Some d => if d <? -900000 then Packet.set_dts None packet else packet
  | None => packet
  end.

(** The test of line 191. *)
Definition bad_dts (packet : Packet.t) : bool :=
  match Packet.dts packet with
  | Some d => 1000000000000 <? d
  | None => false
  end.

(** Lines 189-192 on the packets that one generator returned.  The
    message of line 192 formats [s.start_time], a [Fraction], with
    [:.3f]; [Fraction] takes no format specification before Python 3.12,
    where the f-string raises TypeError.  That is the reading modelled: a
    packet that reaches line 192 ends the export. *)
Definition checked (packets : list Packet.t) : outcome (list Packet.t) :=
  let packets := map drop_garbage_dts packets in
  if existsb bad_dts packets then Raise TypeError else Ret packets.

(** The same segment with another value of [require_recode]: what
    line 113 does to a planned segment. *)
Definition recoded (planned c : CutSegment) : Prop :=
  require_recode c = true
  /\ MiscData.start_time c = MiscData.start_time planned
  /\ MiscData.end_time c = MiscData.end_time planned
  /\ gop_start_dts c = gop_start_dts planned
  /\ gop_end_dts c = gop_end_dts planned
  /\ gop_index c = gop_index planned.

Section ExportLoop.

(** The stream generators (video, audio and subtitle cutters, external
    ones): a state, [segment] and [finish], either of which may raise. *)
Variable G : Type.
Variable g_segment : CutSegment -> G -> outcome (list Packet.t * G).
Variable g_finish : G -> outcome (list Packet.t).
(** The generators set up for an output file, lines 155-172. *)
Variable make_generators : string -> outcome (list G).
(** The name of the [i]-th of [n] output files in segment mode,
    lines 117-126. *)
Variable segment_file_name : string -> nat -> nat -> string.

(** Lines 187-193: [for g in generators: for packet in g.segment(s)].
    Returns the packets muxed and the generators after their calls. *)
Fixpoint run_segment (s : CutSegment) (generators : list G)
    : outcome (list Packet.t * list G) :=
  match generators with
  | [] => Ret ([], [])
  | g :: rest =>
      do r <- g_segment s g;
      do packets <- checked (fst r);
      do r' <- run_segment s rest;
      Ret (packets ++ fst r', snd r :: snd r')
  end.

(** Lines 177-193; [segs] is [cut_segments[previously_done_segments:]] and
    [file_end] the end of the output file's interval. *)
Fixpoint segment_loop (cancel_object : option (nat -> bool)) (file : string)
    (file_end : Q) (segs : list CutSegment) (generators : list G)
    (previously_done_segments : nat) (w : world)
    : outcome (list G * nat * world) :=
  match segs with
  | [] => Ret (generators, previously_done_segments, w)
  | s :: rest =>
      let pw := poll cancel_object w in
      if fst pw then Ret (generators, previously_done_segments, snd pw)
      else if Qle_bool file_end (MiscData.start_time s)
      then Ret (generators, previously_done_segments, snd pw)
      else if negb (Qlt_bool (MiscData.start_time s) (MiscData.end_time s))
      then Raise AssertionError
      else
        do r <- run_segment s generators;
        segment_loop cancel_object file file_end rest (snd r)
          (S previously_done_segments) (mux file (fst r) (snd pw))
  end.

(** Lines 194-198: [for g in generators: for packet in g.finish()].  The
    message of line 197 formats integers only. *)
Fixpoint finish_all (generators : list G) : outcome (list Packet.t) :=
  match generators with
  | [] => Ret []
  | g :: rest =>
      do packets <- g_finish g;
      do packets' <- finish_all rest;
      Ret (packets ++ packets')
  end.

(** Lines 194-206: flush the generators, leave the [with] block, and
    delete the file when the flag is set. *)
Definition finish_file (cancel_object : option (nat -> bool)) (file : string)
    (generators : list G) (w : world) : outcome world :=
  do packets <- finish_all generators;
  let w := mux file packets w in
  let w := emit [EvClose file] w in
  let pw := poll cancel_object w in
  Ret (if fst pw then remove_if_exists file (snd pw) else snd pw).

(** Lines 133-206: the loop over the output files. *)
Fixpoint file_loop (cancel_object : option (nat -> bool))
    (cut_segments : list CutSegment) (output_files : list (string * (Q * Q)))
    (previously_done_segments : nat) (w : world) : outcome world :=
  match output_files with
  | [] => Ret w
  | (file, (_, file_end)) :: rest =>
      let pw := poll cancel_object w in
      if fst pw then Ret (snd pw)
      else
        let w := open_output file (snd pw) in
        do generators <- make_generators file;
        do r <- segment_loop cancel_object file file_end
                  (drop previously_done_segments cut_segments)
                  generators previously_done_segments w;
        do w <- finish_file cancel_object file (fst (fst r)) (snd r);
        file_loop cancel_object cut_segments rest (snd (fst r)) w
  end.

(** Lines 108-113: planning, and the override of RECODE mode. *)
Definition plan (mc : Planner.MediaContainer)
    (positive_segments : list (Q * Q)) (mode : VideoExportMode)
    : outcome (list (Q * Q) * list CutSegment) :=
  let adjusted_segment_times :=
    Planner.make_adjusted_segment_times positive_segments mc in
  do cut_segments <- Planner.make_cut_segments mc adjusted_segment_times
                       (VideoExportMode_eqb mode KEYFRAMES);
  Ret (adjusted_segment_times,
       if VideoExportMode_eqb mode RECODE
       then map (set_require_recode true) cut_segments
       else cut_segments).

(** [smart_cut], lines 101-206.  The function has no [return] statement:
    whenever it comes back, it comes back with [None]. *)
Definition smart_cut (mc : Planner.MediaContainer)
    (positive_segments : list (Q * Q)) (out_path : string)
    (mode : VideoExportMode) (segment_mode : bool)
    (cancel_object : option (nat -> bool)) (w : world)
    : outcome (option exn * world) :=
  do planned <- plan mc positive_segments mode;
  do output_files <-
    (if segment_mode then
       Ret (imap (fun i s =>
                    (segment_file_name out_path (S i) (length (fst planned)), s))
              (fst planned))
     else
       do last <- py_getitem (fst planned) (-1);
       Ret [(out_path, last)]);
  do w <- file_loop cancel_object (snd planned) output_files 0 w;
  Ret (None, w).

(** Generators that keep to [Inv] on the segments [segs]: started in a
    state of [Inv], [segment] returns, stays in [Inv], and hands out no
    packet that reaches the message of line 192. *)
Definition sound_on (Inv : G -> Prop) (segs : list CutSegment) : Prop :=
  forall s g, In s segs -> Inv g ->
    exists packets g',
      g_segment s g = Ret (packets, g')
      /\ Inv g'
      /\ existsb bad_dts (map drop_garbage_dts packets) = false.

End ExportLoop.

End Driver.

(** ** Sample inputs, used where a property is run on a concrete case *)

Module Samples.
Import Av.

Definition hevc_stream : Stream.t := Stream.mk 0 video "hevc" (1 # 90000).
Definition aac_stream : Stream.t := Stream.mk 1 audio "aac" (1 # 48000).
Definition srt_stream : Stream.t := Stream.mk 2 subtitle "subrip" (1 # 1000).

Definition video_packet (pts dts : option Z) : Packet.t :=
  Packet.mk pts dts (Some 3000) (1 # 90000) hevc_stream false [].

Definition hevc_packet (pts dts : Z) (key : bool) (payload : NalTools.bytes)
    : Packet.t :=
  Packet.mk (Some pts) (Some dts) (Some 3000) (1 # 90000) hevc_stream key payload.

Definition audio_packet (pts : Z) : Packet.t :=
  Packet.mk (Some pts) (Some pts) (Some 1024) (1 # 48000) aac_stream true [].

Definition subtitle_packet (pts : Z) : Packet.t :=
  Packet.mk (Some pts) (Some pts) (Some 2000) (1 # 1000) srt_stream true [].

(** Annex-B payloads: an IDR, a CRA, a RASL and a trailing picture. *)
Definition idr_payload : NalTools.bytes :=
  [Byte.x00; Byte.x00; Byte.x00; Byte.x01; Byte.x26; Byte.x01; Byte.xaf; Byte.x08].
Definition cra_payload : NalTools.bytes :=
  [Byte.x00; Byte.x00; Byte.x00; Byte.x01; Byte.x2a; Byte.x01; Byte.xaf; Byte.x08].
Definition rasl_payload : NalTools.bytes :=
  [Byte.x00; Byte.x00; Byte.x00; Byte.x01; Byte.x12; Byte.x01; Byte.xe0; Byte.x44].
Definition trail_payload : NalTools.bytes :=
  [Byte.x00; Byte.x00; Byte.x00; Byte.x01; Byte.x02; Byte.x01; Byte.xd0; Byte.x09].

(** A file with one AAC stream and two packets. *)
Definition audio_file : InputContainer :=
  mkInput (Some 0) (Some 1000000) [aac_stream]
    [audio_packet 0; audio_packet 1024].

(** A file with one AAC stream and no packet. *)
Definition silent_file : InputContainer :=
  mkInput (Some 0) (Some 1000000) [aac_stream] [].

(** An H.265 file of two GOPs; the second opens with a CRA followed by two
    RASL pictures. *)
Definition hevc_file : InputContainer :=
  mkInput (Some 0) (Some 200000) [hevc_stream]
    [ hevc_packet 0 0 true idr_payload;
      hevc_packet 3000 3000 false trail_payload;
      hevc_packet 12000 6000 true cra_payload;
      hevc_packet 6000 9000 false rasl_payload;
      hevc_packet 9000 12000 false rasl_payload;
      hevc_packet 15000 15000 false trail_payload ].

(** [hevc_file] with a subtitle stream: two cues and a packet without
    PTS. *)
Definition subtitled_file : InputContainer :=
  mkInput (Some 0) (Some 200000) [hevc_stream; srt_stream]
    [ hevc_packet 0 0 true idr_payload;
      subtitle_packet 100;
      Packet.mk None None None (1 # 1000) srt_stream true [];
      hevc_packet 3000 3000 false trail_payload;
      subtitle_packet 2500 ].

(** The environment and the start state of the demux loop on [hevc_file]. *)
Definition hevc_env : MediaContainer.loop_env :=
  MediaContainer.mkEnv true false true false [] [].

Definition loop_start : MediaContainer.loop_state :=
  MediaContainer.mkLoop (200000 # 1000000) true [] [] [] [] None [] [] [].

(** A generator that behaves like an encoder with one frame of delay: a
    segment yields the packet held back so far and holds one back; [finish]
    yields what is held back. *)
Definition delayed_segment (s : MiscData.CutSegment) (held : list Packet.t)
    : outcome (list Packet.t * list Packet.t) :=
  Ret (held,
       [video_packet (Some (MiscData.gop_index s)) (Some (MiscData.gop_index s))]).

Definition delayed_finish (held : list Packet.t) : outcome (list Packet.t) :=
  Ret held.

Definition one_generator (file : string) : outcome (list (list Packet.t)) :=
  Ret [[]].

Definition plain_file_name (template : string) (i n : nat) : string := template.

(** Cancellation that is set from the [k]-th read of the flag on. *)
Definition cancelled_from (k : nat) : option (nat -> bool) :=
  Some (fun n => (k <=? n)%nat).

(** The GOP [0, 2) of a source, as the planner's loop sees it. *)
Definition gop_0_2 : Planner.gop := Planner.mkGop 0 0 2 0 (Some 50).

(** The GOP [2, 4) that follows it. *)
Definition gop_2_4 : Planner.gop := Planner.mkGop 1 2 4 50 (Some 99).

(** A video source of three GOPs of 2 seconds. *)
Definition three_gops : Planner.MediaContainer :=
  Planner.mkMediaContainer true [] [0; 2; 4]%Q [0; 180000; 360000]
    [Some 177000; Some 357000; Some 537000] 0 6.

End Samples.

(** ** Proof automation *)

(** Looks up a key that none of the inserts of a dictionary literal names. *)
Ltac other_key := rewrite !lookup_insert_ne by discriminate; apply lookup_empty.

(** Goes through the keys of a dictionary literal that is looked up with
    the key [e]. *)
Ltac by_key e :=
  repeat match goal with
         | |- context [String.eqb e ?k] =>
             destruct (String.eqb_spec e k) as [->|?];
             [vm_compute; auto 6|]
         end.

(** Linear arithmetic with the bounds of the 64-bit range written out. *)
Ltac range_lia :=
  unfold Av.int64 in *;
  change (2 ^ 63) with 9223372036854775808 in *;
  lia.

(** Looks up a key that one of the inserts of a dictionary literal names. *)
Ltac insert_key :=
  repeat (rewrite lookup_insert_ne by discriminate); apply lookup_insert_eq.

(* ================================================================== *)
(** * Properties *)
(* ================================================================== *)

(** ** Python sequences *)

Lemma py_getitem_in_range {A} (l : list A) (i : Z) (d : A) :
  0 <= i < py_len l -> py_getitem l i = Ret (nth (Z.to_nat i) l d).
Proof.
  intros Hi. unfold py_getitem, py_len in *.
  destruct (Z.ltb_spec i 0); [lia|].
  destruct (Z.leb_spec 0 i); [|lia].
  destruct (Z.ltb_spec i (Z.of_nat (length l))); [|lia].
  cbn [andb].
  destruct (nth_error l (Z.to_nat i)) eqn:E.
  - f_equal. symmetry. now apply nth_error_nth.
  - apply nth_error_None in E. lia.
Qed.

Module NalToolsFacts.
Import NalTools.

(** *** [bytes.find] *)

Lemma find_from_range sub rest idx :
  find_from sub rest idx = -1 \/ idx <= find_from sub rest idx.
Proof.
  revert idx. induction rest as [|b rest IH]; intros idx; cbn.
  - destruct (starts_with sub []); [right; lia | now left].
  - destruct (starts_with sub (b :: rest)); [right; lia|].
    destruct (IH (idx + 1)) as [->|H]; [now left | right; lia].
Qed.

Lemma bytes_find_range data sub pos :
  bytes_find data sub pos = -1 \/ pos <= bytes_find data sub pos.
Proof. apply find_from_range. Qed.

Lemma starts_with_app sub rest :
  starts_with sub rest = true -> exists post, rest = sub ++ post.
Proof.
  revert rest. induction sub as [|a sub IH]; intros rest H.
  - now exists rest.
  - destruct rest as [|b rest]; [discriminate|]. cbn in H.
    destruct (Byte.eqb a b) eqn:E; [|discriminate].
    apply Byte.byte_dec_bl in E. subst b.
    destruct (IH _ H) as [post ->]. now exists post.
Qed.

Lemma app_starts_with sub post : starts_with sub (sub ++ post) = true.
Proof.
  induction sub as [|a sub IH]; [reflexivity|]. cbn.
  now rewrite (Byte.byte_dec_lb (x:=a) eq_refl).
Qed.

(** A hit of [find] is an occurrence of the pattern. *)
Lemma find_from_occurs sub rest idx :
  0 <= idx -> find_from sub rest idx <> -1 -> occurs_in sub rest = true.
Proof.
  revert idx. induction rest as [|b rest IH]; intros idx Hidx; cbn.
  - destruct (starts_with sub []); [reflexivity | congruence].
  - destruct (starts_with sub (b :: rest)); [reflexivity|].
    intros H. cbn. exact (IH (idx + 1) ltac:(lia) H).
Qed.

Lemma occurs_in_app sub data :
  occurs_in sub data = true <-> exists pre post, data = pre ++ sub ++ post.
Proof.
  split.
  - induction data as [|b data IH]; cbn; intros H.
    + rewrite orb_false_r in H. apply starts_with_app in H as [post H].
      now exists [], post.
    + apply orb_true_iff in H as [H|H].
      * apply starts_with_app in H as [post H]. now exists [], post.
      * destruct (IH H) as (pre & post & ->). now exists (b :: pre), post.
  - intros (pre & post & ->). induction pre as [|b pre IH]; cbn [app].
    + pose proof (app_starts_with sub post) as H.
      destruct (sub ++ post); cbn; now rewrite H.
    + cbn. rewrite IH. apply orb_true_r.
Qed.

Lemma bytes_find_absent data sub :
  occurs_in sub data = false -> bytes_find data sub 0 = -1.
Proof.
  intros Hno. destruct (Z.eq_dec (bytes_find data sub 0) (-1)) as [|Hne]; [assumption|].
  unfold bytes_find in Hne. cbn in Hne.
  apply (find_from_occurs sub data 0) in Hne; [congruence | lia].
Qed.

(** *** The scanning loops *)

Lemma is_bla_or_idr_range t :
  is_bla_or_idr t = (16 <=? t) && (t <=? 20).
Proof.
  unfold is_bla_or_idr.
  destruct (Z.leb_spec 16 t), (Z.leb_spec t 20); cbn;
    repeat match goal with
           | |- context [?a =? ?b] => destruct (Z.eqb_spec a b); cbn
           end; try reflexivity; lia.
Qed.

Lemma h265_length_prefixed_loop_spec fuel data i found :
  0 <= i -> py_len data - i <= Z.of_nat fuel ->
  h265_length_prefixed_loop fuel data i found =
    Ret (match List.find is_bla_or_idr (h265_length_prefixed_types fuel data i) with
         | Some t => Returned t
         | None => Collected (found ++ h265_length_prefixed_types fuel data i)
         end).
Proof.
  revert i found. induction fuel as [|fuel IH]; intros i found Hi Hfuel.
  - cbn. destruct (Z.ltb_spec i (py_len data - 4)); [lia|].
    cbn. now rewrite app_nil_r.
  - cbn [h265_length_prefixed_loop h265_length_prefixed_types].
    destruct (negb (i <? py_len data - 4)) eqn:Ecnd.
    { cbn. now rewrite app_nil_r. }
    apply negb_false_iff, Z.ltb_lt in Ecnd.
    set (nal_len := int_from_bytes_big (py_slice data i (i + 4))).
    destruct ((nal_len <? 2) || (py_len data - i - 4 <? nal_len)) eqn:Ebrk.
    { cbn. now rewrite app_nil_r. }
    apply orb_false_iff in Ebrk as [E1 E2].
    apply Z.ltb_ge in E1, E2.
    destruct (i + 5 <? py_len data) eqn:E5.
    + apply Z.ltb_lt in E5.
      rewrite (py_getitem_in_range data (i + 4) Byte.x00) by lia.
      cbn [obind List.find].
      destruct (is_bla_or_idr (h265_type_of _)) eqn:Ebla; [reflexivity|].
      rewrite IH by lia.
      destruct (List.find _ _); [reflexivity|]. now rewrite <- app_assoc.
    + now rewrite IH by lia.
Qed.

Lemma h265_annexb_loop_spec fuel data pos found :
  0 <= pos -> py_len data - pos <= Z.of_nat fuel ->
  h265_annexb_loop fuel data pos found =
    Ret (match List.find is_bla_or_idr (h265_annexb_types fuel data pos) with
         | Some t => Returned t
         | None => Collected (found ++ h265_annexb_types fuel data pos)
         end).
Proof.
  revert pos found. induction fuel as [|fuel IH]; intros pos found Hpos Hfuel.
  - cbn. destruct (Z.ltb_spec pos (py_len data - 5)); [lia|].
    cbn. now rewrite app_nil_r.
  - cbn [h265_annexb_loop h265_annexb_types].
    destruct (negb (pos <? py_len data - 5)) eqn:Ecnd.
    { cbn. now rewrite app_nil_r. }
    apply negb_false_iff, Z.ltb_lt in Ecnd.
    pose proof (bytes_find_range data start_code_4 pos) as R4.
    pose proof (bytes_find_range data start_code_3 pos) as R3.
    set (idx4 := bytes_find data start_code_4 pos) in *.
    set (idx3 := bytes_find data start_code_3 pos) in *.
    destruct ((idx4 =? -1) && (idx3 =? -1)) eqn:Enone.
    { cbn. now rewrite app_nil_r. }
    destruct (negb (idx4 =? -1) && ((idx3 =? -1) || (idx4 <=? idx3))) eqn:Efour.
    + apply andb_true_iff in Efour as [Eh _].
      apply negb_true_iff, Z.eqb_neq in Eh.
      destruct (idx4 + 6 <=? py_len data) eqn:E6.
      * apply Z.leb_le in E6.
        rewrite (py_getitem_in_range data (idx4 + 4) Byte.x00) by lia.
        cbn [obind List.find].
        destruct (is_bla_or_idr (h265_type_of _)) eqn:Ebla; [reflexivity|].
        rewrite IH by lia.
        destruct (List.find _ _); [reflexivity|]. now rewrite <- app_assoc.
      * now rewrite IH by lia.
    + assert (Hthree : idx3 <> -1).
      { intros E3. rewrite E3 in Enone, Efour. cbn in Enone, Efour.
        rewrite andb_true_r in Enone, Efour.
        rewrite Enone in Efour. discriminate. }
      destruct (idx3 + 5 <=? py_len data) eqn:E5.
      * apply Z.leb_le in E5.
        rewrite (py_getitem_in_range data (idx3 + 3) Byte.x00) by lia.
        cbn [obind List.find].
        destruct (is_bla_or_idr (h265_type_of _)) eqn:Ebla; [reflexivity|].
        rewrite IH by lia.
        destruct (List.find _ _); [reflexivity|]. now rewrite <- app_assoc.
      * now rewrite IH by lia.
Qed.

(** *** The priority rule *)

Lemma find_is_21 ts t :
  List.find (fun t => t =? 21) ts = Some t -> t = 21.
Proof. intros H. apply find_some in H as [_ H]. now apply Z.eqb_eq in H. Qed.

Lemma find_none_existsb (f : Z -> bool) ts :
  List.find f ts = None -> existsb f ts = false.
Proof.
  induction ts as [|a ts IH]; [reflexivity|]. cbn.
  destruct (f a); [discriminate|]. exact IH.
Qed.

Lemma find_some_existsb (f : Z -> bool) ts t :
  List.find f ts = Some t -> existsb f ts = true.
Proof.
  induction ts as [|a ts IH]; [discriminate|]. cbn.
  destruct (f a); [reflexivity|]. exact IH.
Qed.

Lemma find_bla_or_idr ts :
  List.find is_bla_or_idr ts = List.find (fun t => (16 <=? t) && (t <=? 20)) ts.
Proof.
  induction ts as [|a ts IH]; [reflexivity|]. cbn.
  rewrite is_bla_or_idr_range. now rewrite IH.
Qed.

Lemma h265_pick_choice ts :
  List.find is_bla_or_idr ts = None ->
  h265_pick ts = h265_priority_choice ts.
Proof.
  intros Hno. unfold h265_pick, h265_priority_choice.
  rewrite <- find_bla_or_idr, Hno.
  destruct ts as [|first ts]; [reflexivity|].
  destruct (List.find (fun t => t =? 21) (first :: ts)) as [t|] eqn:E21.
  - rewrite (find_some_existsb _ _ _ E21). now rewrite (find_is_21 _ _ E21).
  - rewrite (find_none_existsb _ _ E21).
    destruct (List.find _ (first :: ts)); reflexivity.
Qed.

Lemma h265_returned_choice ts t :
  List.find is_bla_or_idr ts = Some t -> h265_priority_choice ts = Some t.
Proof.
  intros H. unfold h265_priority_choice. now rewrite <- find_bla_or_idr, H.
Qed.

Lemma h265_annexb_part_spec data :
  h265_annexb_part (length data) data =
    Ret (h265_priority_choice (h265_annexb_types (length data) data 0)).
Proof.
  unfold h265_annexb_part.
  rewrite h265_annexb_loop_spec by (unfold py_len; lia).
  cbn [obind].
  destruct (List.find is_bla_or_idr _) as [t|] eqn:E.
  - now rewrite (h265_returned_choice _ _ E).
  - cbn [app]. now rewrite h265_pick_choice.
Qed.

Lemma length_prefixed_types_nonempty data :
  6 <= py_len data -> length_prefixed_form data = true ->
  h265_length_prefixed_types (length data) data 0 <> [].
Proof.
  unfold length_prefixed_form. intros Hlen Hform.
  apply andb_true_iff in Hform as [H4 Hle].
  apply Z.ltb_lt in H4. apply Z.leb_le in Hle.
  destruct (length data) as [|n] eqn:En; [unfold py_len in *; lia|].
  cbn [h265_length_prefixed_types].
  change (0 + 4) with 4.
  set (nal_len := int_from_bytes_big (py_slice data 0 4)) in *.
  destruct (Z.ltb_spec 0 (py_len data - 4)); [|lia]. cbn [negb].
  destruct (Z.ltb_spec nal_len 2); [lia|].
  destruct (Z.ltb_spec (py_len data - 0 - 4) nal_len); [lia|]. cbn [orb].
  destruct (Z.ltb_spec (0 + 5) (py_len data)); [|lia].
  discriminate.
Qed.

Lemma get_h265_nal_unit_type_returns data :
  returns (get_h265_nal_unit_type data).
Proof.
  unfold get_h265_nal_unit_type, get_h265_nal_unit_type_fuel.
  assert (Hannexb : returns (h265_annexb_part (length data) data))
    by (rewrite h265_annexb_part_spec; now eexists).
  destruct (py_len data <? 6); [now eexists|].
  destruct (_ && _); [|exact Hannexb].
  rewrite h265_length_prefixed_loop_spec by (unfold py_len; lia).
  cbn [obind]. destruct (List.find is_bla_or_idr _); [now eexists|].
  destruct (h265_pick _); [now eexists | exact Hannexb].
Qed.

(** C6.  [get_h265_nal_unit_type] returns the priority choice over the NAL
    sequence of the payload, in either framing: the first type in 16..20
    if there is one; otherwise 21 if a CRA is present; otherwise the first
    type in 0..15; otherwise the first type of the sequence (None when the
    sequence is empty). *)
Theorem h265_classifier_priority (data : bytes) :
  get_h265_nal_unit_type data = Ret (h265_priority_choice (h265_nal_types data)).
Proof.
  unfold get_h265_nal_unit_type, get_h265_nal_unit_type_fuel, h265_nal_types.
  destruct (Z.ltb_spec (py_len data) 6) as [|Hlen]; [reflexivity|].
  fold (length_prefixed_form data).
  destruct (length_prefixed_form data) eqn:Hform.
  - rewrite h265_length_prefixed_loop_spec by (unfold py_len; lia).
    cbn [obind].
    pose proof (length_prefixed_types_nonempty data Hlen Hform) as Hne.
    destruct (List.find is_bla_or_idr _) as [t|] eqn:E.
    + now rewrite (h265_returned_choice _ _ E).
    + cbn [app]. rewrite <- h265_pick_choice by assumption.
      destruct (h265_length_prefixed_types _ _ _) as [|first rest] eqn:Ets;
        [congruence|].
      destruct (h265_pick (first :: rest)) eqn:Ep; [reflexivity|].
      unfold h265_pick in Ep.
      repeat match type of Ep with
             | match ?x with _ => _ end = _ => destruct x
             end; discriminate.
  - apply h265_annexb_part_spec.
Qed.

(** *** H.264: both loops come back *)

Lemma h264_length_prefixed_loop_returns fuel data i found :
  0 <= i -> py_len data - i <= Z.of_nat fuel ->
  returns (h264_length_prefixed_loop fuel data i found).
Proof.
  revert i found. induction fuel as [|fuel IH]; intros i found Hi Hfuel.
  - cbn. destruct (Z.ltb_spec i (py_len data - 4)); [lia|]. cbn. now eexists.
  - cbn [h264_length_prefixed_loop].
    destruct (negb (i <? py_len data - 4)) eqn:Ecnd; [now eexists|].
    apply negb_false_iff, Z.ltb_lt in Ecnd.
    set (nal_len := int_from_bytes_big (py_slice data i (i + 4))).
    destruct ((nal_len <? 1) || (py_len data - i - 4 <? nal_len)) eqn:Ebrk;
      [now eexists|].
    apply orb_false_iff in Ebrk as [E1 E2].
    apply Z.ltb_ge in E1, E2.
    destruct (i + 4 <? py_len data) eqn:E4.
    + apply Z.ltb_lt in E4.
      rewrite (py_getitem_in_range data (i + 4) Byte.x00) by lia.
      cbn [obind].
      destruct (h264_type_of _ =? 5); [now eexists|]. apply IH; lia.
    + apply IH; lia.
Qed.

Lemma h264_annexb_loop_returns fuel data pos found :
  0 <= pos -> py_len data - pos <= Z.of_nat fuel ->
  returns (h264_annexb_loop fuel data pos found).
Proof.
  revert pos found. induction fuel as [|fuel IH]; intros pos found Hpos Hfuel.
  - cbn. destruct (Z.ltb_spec pos (py_len data - 4)); [lia|]. cbn. now eexists.
  - cbn [h264_annexb_loop].
    destruct (negb (pos <? py_len data - 4)) eqn:Ecnd; [now eexists|].
    apply negb_false_iff, Z.ltb_lt in Ecnd.
    pose proof (bytes_find_range data start_code_4 pos) as R4.
    pose proof (bytes_find_range data start_code_3 pos) as R3.
    set (idx4 := bytes_find data start_code_4 pos) in *.
    set (idx3 := bytes_find data start_code_3 pos) in *.
    destruct ((idx4 =? -1) && (idx3 =? -1)) eqn:Enone; [now eexists|].
    destruct (negb (idx4 =? -1) && ((idx3 =? -1) || (idx4 <=? idx3))) eqn:Efour.
    + apply andb_true_iff in Efour as [Eh _].
      apply negb_true_iff, Z.eqb_neq in Eh.
      destruct (idx4 + 5 <=? py_len data) eqn:E5.
      * apply Z.leb_le in E5.
        rewrite (py_getitem_in_range data (idx4 + 4) Byte.x00) by lia.
        cbn [obind].
        destruct (h264_type_of _ =? 5); [now eexists|]. apply IH; lia.
      * apply IH; lia.
    + assert (Hthree : idx3 <> -1).
      { intros E3. rewrite E3 in Enone, Efour. cbn in Enone, Efour.
        rewrite andb_true_r in Enone, Efour.
        rewrite Enone in Efour. discriminate. }
      destruct (idx3 + 4 <=? py_len data) eqn:E4.
      * apply Z.leb_le in E4.
        rewrite (py_getitem_in_range data (idx3 + 3) Byte.x00) by lia.
        cbn [obind].
        destruct (h264_type_of _ =? 5); [now eexists|]. apply IH; lia.
      * apply IH; lia.
Qed.

Lemma h264_annexb_part_returns data :
  returns (h264_annexb_part (length data) data).
Proof.
  unfold h264_annexb_part.
  destruct (h264_annexb_loop_returns (length data) data 0 [])
    as [r ->]; [lia | unfold py_len; lia |].
  cbn. destruct r; now eexists.
Qed.

Lemma get_h264_nal_unit_type_returns data :
  returns (get_h264_nal_unit_type data).
Proof.
  unfold get_h264_nal_unit_type, get_h264_nal_unit_type_fuel.
  destruct (py_len data <? 5); [now eexists|].
  destruct (_ && _); [|apply h264_annexb_part_returns].
  destruct (h264_length_prefixed_loop_returns (length data) data 0 [])
    as [r ->]; [lia | unfold py_len; lia |].
  cbn. destruct r as [t|found]; [now eexists|].
  destruct (h264_pick found); [now eexists | apply h264_annexb_part_returns].
Qed.

(** Without a start code the Annex-B scans collect nothing. *)
Lemma h265_annexb_part_no_start_code data :
  occurs_in start_code_4 data = false ->
  occurs_in start_code_3 data = false ->
  h265_annexb_part (length data) data = Ret None.
Proof.
  intros H4 H3. unfold h265_annexb_part.
  destruct (length data) as [|n] eqn:En; cbn [h265_annexb_loop].
  - destruct (Z.ltb_spec 0 (py_len data - 5)); [unfold py_len in *; lia|].
    reflexivity.
  - rewrite (bytes_find_absent _ _ H4), (bytes_find_absent _ _ H3). cbn.
    destruct (negb _); reflexivity.
Qed.

Lemma h264_annexb_part_no_start_code data :
  occurs_in start_code_4 data = false ->
  occurs_in start_code_3 data = false ->
  h264_annexb_part (length data) data = Ret None.
Proof.
  intros H4 H3. unfold h264_annexb_part.
  destruct (length data) as [|n] eqn:En; cbn [h264_annexb_loop].
  - destruct (Z.ltb_spec 0 (py_len data - 4)); [unfold py_len in *; lia|].
    reflexivity.
  - rewrite (bytes_find_absent _ _ H4), (bytes_find_absent _ _ H3). cbn.
    destruct (negb _); reflexivity.
Qed.

(** C9.  On every byte string both classifiers come back with an integer
    NAL type or with None: no exception, no endless loop.  Inputs shorter
    than 5 bytes (H.264) or 6 bytes (H.265) give None, and so does every
    input that is not in length-prefixed form and holds no Annex-B start
    code. *)
Theorem nal_classifiers_total (data : bytes) :
  (exists r : option Z, get_h264_nal_unit_type data = Ret r)
  /\ (exists r : option Z, get_h265_nal_unit_type data = Ret r)
  /\ (py_len data < 5 -> get_h264_nal_unit_type data = Ret None)
  /\ (py_len data < 6 -> get_h265_nal_unit_type data = Ret None)
  /\ (length_prefixed_form data = false ->
      occurs_in start_code_4 data = false ->
      occurs_in start_code_3 data = false ->
      get_h264_nal_unit_type data = Ret None
      /\ get_h265_nal_unit_type data = Ret None).
Proof.
  split; [apply get_h264_nal_unit_type_returns|].
  split; [apply get_h265_nal_unit_type_returns|].
  unfold get_h264_nal_unit_type, get_h264_nal_unit_type_fuel,
    get_h265_nal_unit_type, get_h265_nal_unit_type_fuel.
  fold (length_prefixed_form data).
  repeat split.
  - intros H. now destruct (Z.ltb_spec (py_len data) 5); [|lia].
  - intros H. now destruct (Z.ltb_spec (py_len data) 6); [|lia].
  - destruct (py_len data <? 5); [reflexivity|]. rewrite H.
    now apply h264_annexb_part_no_start_code.
  - destruct (py_len data <? 6); [reflexivity|]. rewrite H.
    now apply h265_annexb_part_no_start_code.
Qed.

Lemma nal_classifiers_total_witness :
  let short := [Byte.x01; Byte.x02; Byte.x03] in
  let garbage := [Byte.xff; Byte.xfe; Byte.x00; Byte.x00; Byte.x02;
                  Byte.x00; Byte.x01; Byte.x00; Byte.x00] in
  get_h264_nal_unit_type short = Ret None
  /\ get_h265_nal_unit_type short = Ret None
  /\ get_h264_nal_unit_type garbage = Ret None
  /\ get_h265_nal_unit_type garbage = Ret None.
Proof.
  intros short garbage.
  destruct (nal_classifiers_total short) as (_ & _ & H4 & H5 & _).
  destruct (nal_classifiers_total garbage) as (_ & _ & _ & _ & Hno).
  split; [apply H4; unfold py_len; cbn; lia|].
  split; [apply H5; unfold py_len; cbn; lia|].
  apply Hno; reflexivity.
Defined.

End NalToolsFacts.

(** ** Fractions *)

Lemma Qlt_bool_iff (a b : Q) : Qlt_bool a b = true <-> (a < b)%Q.
Proof.
  unfold Qlt_bool. rewrite negb_true_iff. split.
  - intros H. apply Qnot_le_lt. intros Hle.
    apply Qle_bool_iff in Hle. congruence.
  - intros H. destruct (Qle_bool b a) eqn:E; [|reflexivity].
    apply Qle_bool_iff in E. exfalso. exact (Qlt_not_le _ _ H E).
Qed.

Lemma Qlt_bool_false (a b : Q) : Qlt_bool a b = false <-> (b <= a)%Q.
Proof.
  unfold Qlt_bool. rewrite negb_false_iff. apply Qle_bool_iff.
Qed.

Lemma Qle_bool_false (a b : Q) : Qle_bool a b = false <-> (b < a)%Q.
Proof.
  rewrite <- Qlt_bool_iff. unfold Qlt_bool.
  destruct (Qle_bool a b); cbn; intuition congruence.
Qed.

Module PlannerFacts.
Import MiscData Planner.

(** *** The audio-only path *)

Lemma slice_loop_spec s e :
  Forall (copy_slice 19) (fst (slice_loop s e))
  /\ (e <= snd (slice_loop s e) + 20)%Q.
Proof.
  funelim (slice_loop s e); cbn.
  - destruct H as [Hall Hlast]. split; [|exact Hlast].
    constructor; [|exact Hall]. split; [reflexivity|]. cbn. lra.
  - split; [constructor | assumption].
Qed.

Lemma copy_slice_weaken a b c :
  (a <= b)%Q -> copy_slice a c -> copy_slice b c.
Proof. intros Hab [Hr Hl]. split; [exact Hr | lra]. Qed.

Lemma slice_interval_spec min_time max_time p :
  Forall (copy_slice 20) (slice_interval min_time max_time p).
Proof.
  unfold slice_interval.
  destruct (slice_loop_spec (py_max (fst p) min_time) (py_min (snd p) max_time))
    as [Hall Hlast].
  apply Forall_app. split.
  - eapply Forall_impl; [exact Hall|].
    intros c. apply copy_slice_weaken. lra.
  - constructor; [|constructor]. split; [reflexivity|]. cbn. lra.
Qed.

Lemma make_cut_segments_audio_spec mc segs out :
  make_cut_segments_audio mc segs = Ret out ->
  Forall (copy_slice 20) out.
Proof.
  unfold make_cut_segments_audio.
  destruct (py_getitem (audio_tracks mc) 0) as [track| |]; cbn; try discriminate.
  destruct (py_getitem track 0) as [min_time| |]; cbn; try discriminate.
  destruct (py_getitem track (-1)) as [last_time| |]; cbn; try discriminate.
  intros [= <-].
  induction segs as [|p segs IH]; cbn; [constructor|].
  apply Forall_app. split; [apply slice_interval_spec | exact IH].
Qed.

(** C7, amended.  Without a video stream every planned segment is
    copy-only and at most 20 seconds long. *)
Theorem audio_only_segments_copy_at_most_20s mc segs keyframe_mode out :
  has_video_stream mc = false ->
  make_cut_segments mc segs keyframe_mode = Ret out ->
  Forall (copy_slice 20) out.
Proof.
  unfold make_cut_segments. intros -> H. cbn in H.
  exact (make_cut_segments_audio_spec mc segs out H).
Qed.

Lemma audio_only_segments_copy_at_most_20s_witness :
  Forall (copy_slice 20)
    [CutSegment3 false 0 19; CutSegment3 false 19 38; CutSegment3 false 38 50].
Proof.
  apply (audio_only_segments_copy_at_most_20s
           (audio_only [0; 30; 60]%Q) [(0, 50)%Q] false);
    reflexivity.
Defined.

(** C7 as stated fails: a keep interval of exactly 20 seconds is emitted
    as one segment of 20 seconds. *)
Lemma audio_only_slice_longer_than_19s :
  has_video_stream (audio_only [0; 30]%Q) = false
  /\ make_cut_segments (audio_only [0; 30]%Q) [(0, 20)%Q] false
     = Ret [CutSegment3 false 0 20]
  /\ ~ copy_slice 19 (CutSegment3 false 0 20).
Proof.
  split; [reflexivity|]. split; [reflexivity|].
  intros [_ H]. cbn in H. lra.
Qed.

(** C4 at its failing input.  A keep interval past the end of the audio
    of an audio-only source is clamped to an inverted segment, which the
    driver's own check [start_time < end_time] rejects. *)
Theorem audio_only_interval_past_end_inverted :
  valid_interval (5, 6)%Q
  /\ make_cut_segments (audio_only [0; 1]%Q) [(5, 6)%Q] false
     = Ret [CutSegment3 false 5 (1 + (1 # 10000))]
  /\ ~ valid_segment (CutSegment3 false 5 (1 + (1 # 10000))).
Proof.
  split; [reflexivity|]. split; [reflexivity|].
  unfold valid_segment. cbn. lra.
Qed.

(** *** The video path *)

Lemma drop_cons_lookup {A} (l : list A) p x rest :
  drop p l = x :: rest -> l !! p = Some x /\ drop (S p) l = rest.
Proof.
  intros H. assert (Hx : l !! p = Some x).
  { rewrite <- (Nat.add_0_r p), <- lookup_drop, H. reflexivity. }
  split; [exact Hx|].
  rewrite (drop_S _ _ _ Hx) in H. congruence.
Qed.

Lemma skip_ended_stays i segs p s e :
  segs !! p = Some (s, e) -> (i < e)%Q ->
  skip_ended i (drop p segs) p = p.
Proof.
  intros Hp Hlt. rewrite (drop_S _ _ _ Hp). cbn [skip_ended].
  apply Qle_bool_false in Hlt. now rewrite Hlt.
Qed.

Lemma skip_ended_current i rest : forall segs p s e,
  drop p segs = rest ->
  segs !! skip_ended i rest p = Some (s, e) -> (i < e)%Q.
Proof.
  induction rest as [|[s0 e0] rest IH]; intros segs p s e Hdrop Hlook; cbn in Hlook.
  - assert (Hlen : (length segs <= p)%nat).
    { destruct (Nat.le_gt_cases (length segs) p) as [|Hgt]; [assumption|].
      apply (f_equal length) in Hdrop. rewrite length_drop in Hdrop.
      cbn in Hdrop. lia. }
    rewrite lookup_ge_None_2 in Hlook by exact Hlen. discriminate.
  - apply drop_cons_lookup in Hdrop as [Hp Hdrop].
    destruct (Qle_bool e0 i) eqn:E.
    + exact (IH segs (S p) s e Hdrop Hlook).
    + rewrite Hp in Hlook. injection Hlook as -> ->.
      now apply Qle_bool_false.
Qed.

Lemma inner_intervals_valid g rest p :
  Forall valid_interval rest ->
  Forall valid_segment (fst (inner_intervals g rest p)).
Proof.
  revert p. induction rest as [|[s e] rest IH]; intros p Hall; cbn.
  - constructor.
  - destruct (Qlt_bool e (gop_o g)); cbn; [|constructor].
    inversion Hall; subst. constructor; [assumption | now apply IH].
Qed.

Lemma gop_tail_valid segs g p acc :
  Forall valid_interval segs ->
  Forall valid_segment acc ->
  Forall valid_segment (snd (gop_tail segs g p acc)).
Proof.
  intros Hsegs Hacc. unfold gop_tail.
  assert (Hmid : Forall valid_segment
                   (acc ++ fst (inner_intervals g (drop p segs) p))).
  { apply Forall_app. split; [assumption|].
    apply inner_intervals_valid. now apply Forall_drop. }
  destruct (segs !! _) as [[s e]|]; [|exact Hmid].
  destruct (Qlt_bool s (gop_o g)) eqn:E; [|exact Hmid].
  cbn. apply Forall_app. split; [exact Hmid|].
  constructor; [|constructor]. now apply Qlt_bool_iff.
Qed.

Lemma gop_step_valid segs keyframe_mode g p acc :
  Forall valid_interval segs ->
  valid_gop g ->
  Forall valid_segment acc ->
  Forall valid_segment (snd (gop_step segs keyframe_mode g p acc)).
Proof.
  intros Hsegs Hg Hacc. unfold gop_step.
  destruct (segs !! _) as [[s e]|] eqn:Hlook; [|exact Hacc].
  apply (skip_ended_current _ _ segs p s e eq_refl) in Hlook.
  destruct (Qle_bool (gop_o g) s); [exact Hacc|].
  destruct (keyframe_mode || _).
  { cbn. apply Forall_app. split; [exact Hacc|].
    constructor; [exact Hg | constructor]. }
  destruct (Qlt_bool s (gop_i g)).
  - apply gop_tail_valid; [assumption|].
    apply Forall_app. split; [exact Hacc|].
    constructor; [exact Hlook | constructor].
  - now apply gop_tail_valid.
Qed.

Lemma gop_loop_valid segs keyframe_mode gops : forall p acc,
  Forall valid_interval segs ->
  Forall valid_gop gops ->
  Forall valid_segment acc ->
  Forall valid_segment (snd (gop_loop segs keyframe_mode gops p acc)).
Proof.
  induction gops as [|g gops IH]; intros p acc Hsegs Hgops Hacc; cbn.
  - exact Hacc.
  - inversion Hgops; subst.
    apply IH; [assumption | assumption |].
    now apply gop_step_valid.
Qed.

(** An interval that covers the second GOP exactly gives one copy
    segment; one that starts a little after the GOP start gives one recode
    segment. *)
Example whole_gop_is_copied :
  make_cut_segments Samples.three_gops [(2, 4)%Q] false
  = Ret [mkCutSegment false 2 4 180000 (Some 357000) 1].
Proof. reflexivity. Qed.

Example late_start_is_recoded :
  make_cut_segments Samples.three_gops [(2.001, 3)%Q] false
  = Ret [mkCutSegment true 2.001 3 180000 (Some 357000) 1].
Proof. reflexivity. Qed.

(** In keyframe mode the GOPs that an interval touches are copied whole. *)
Example keyframe_mode_copies_touched_gops :
  make_cut_segments Samples.three_gops [(2.5, 4.5)%Q] true
  = Ret [ mkCutSegment false 2 4 180000 (Some 357000) 1;
          mkCutSegment false 4 (0 + 6 + (1 # 10000)) 360000 (Some 537000) 2 ].
Proof. reflexivity. Qed.

(** With a video stream whose GOP table is ascending, every planned
    segment passes the driver's check.  The inverted segments of the
    audio-only path have no counterpart here. *)
Lemma video_segments_valid mc segs keyframe_mode :
  Forall valid_interval segs ->
  Forall valid_gop (gops_of mc) ->
  Forall valid_segment (make_cut_segments_video mc segs keyframe_mode).
Proof.
  intros Hsegs Hgops. unfold make_cut_segments_video.
  apply gop_loop_valid; [assumption | assumption | constructor].
Qed.

(** Lines 92-96 spelled out.  Of the intervals from [p] on, [inside] are
    those that end inside the GOP, and [next] begins with the first one
    that does not: each of [inside] gives a recode segment with its own
    bounds, and the first of [next], if it starts inside the GOP, a recode
    segment up to the GOP end, with [p] left on it. *)
Lemma inner_intervals_app g inside next : forall p,
  Forall (fun q => (snd q < gop_o g)%Q) inside ->
  match next with [] => True | q :: _ => (gop_o g <= snd q)%Q end ->
  inner_intervals g (inside ++ next) p
  = (map (fun q => recode_in g (fst q) (snd q)) inside,
     (p + length inside)%nat).
Proof.
  induction inside as [|[s e] inside IH]; intros p Hin Hnext;
    cbn [app map length inner_intervals].
  - rewrite Nat.add_0_r. destruct next as [|[s e] next]; [reflexivity|].
    cbn [snd inner_intervals] in *. apply Qlt_bool_false in Hnext.
    now rewrite Hnext.
  - inversion Hin as [|? ? He Hin']; subst. cbn [snd] in He.
    apply Qlt_bool_iff in He. rewrite He, (IH (S p) Hin' Hnext).
    cbn [fst snd]. now rewrite Nat.add_succ_r.
Qed.

Lemma gop_tail_app segs g p acc inside next :
  drop p segs = inside ++ next ->
  Forall (fun q => (snd q < gop_o g)%Q) inside ->
  match next with [] => True | q :: _ => (gop_o g <= snd q)%Q end ->
  gop_tail segs g p acc
  = ((p + length inside)%nat,
     acc ++ map (fun q => recode_in g (fst q) (snd q)) inside
         ++ match next with
            | (s', _) :: _ =>
                if Qlt_bool s' (gop_o g)
                then [recode_in g s' (gop_o g)] else []
            | [] => []
            end).
Proof.
  intros Hdrop Hin Hnext. unfold gop_tail.
  rewrite Hdrop, (inner_intervals_app g inside next p Hin Hnext).
  cbn [fst snd].
  assert (Hlook : segs !! (p + length inside)%nat = head next).
  { rewrite <- lookup_drop, Hdrop, lookup_app_r by lia.
    rewrite Nat.sub_diag. now destruct next. }
  rewrite Hlook. destruct next as [|[s' e'] next]; cbn [head].
  - now rewrite app_nil_r.
  - destruct (Qlt_bool s' (gop_o g)).
    + now rewrite app_assoc.
    + now rewrite !app_nil_r.
Qed.

Lemma gop_step_starts_before segs g p acc s e inside next :
  segs !! p = Some (s, e) ->
  (s < gop_i g)%Q -> (gop_i g < e)%Q -> (e < gop_o g)%Q ->
  drop (S p) segs = inside ++ next ->
  Forall (fun q => (snd q < gop_o g)%Q) inside ->
  match next with [] => True | q :: _ => (gop_o g <= snd q)%Q end ->
  gop_step segs false g p acc
  = ((S p + length inside)%nat,
     acc ++ [recode_in g (gop_i g) e]
         ++ map (fun q => recode_in g (fst q) (snd q)) inside
         ++ match next with
            | (s', _) :: _ =>
                if Qlt_bool s' (gop_o g)
                then [recode_in g s' (gop_o g)] else []
            | [] => []
            end).
Proof.
  intros Hp Hsi Hie Heo Hdrop Hin Hnext.
  unfold gop_step. rewrite (skip_ended_stays _ _ _ _ _ Hp Hie), Hp.
  assert (H1 : Qle_bool (gop_o g) s = false) by (apply Qle_bool_false; lra).
  assert (H2 : Qle_bool (gop_o g) e = false) by (apply Qle_bool_false; lra).
  assert (H3 : Qlt_bool s (gop_i g) = true) by (now apply Qlt_bool_iff).
  rewrite H1, H2, H3, andb_false_r. cbn [orb].
  rewrite (gop_tail_app segs g (S p) _ inside next Hdrop Hin Hnext).
  now rewrite <- app_assoc.
Qed.

(** C2, amended.  Outside keyframe mode, for a GOP [i, o) and the current
    interval (s, e):
    - when the interval begins before the GOP start and ends inside the
      GOP, the planner emits the recode segment (max(s, i), e) = (i, e),
      moves [p] to the next interval and goes on with the same GOP: each
      following interval that ends inside the GOP gives a recode segment
      with its own bounds, and the first one that does not, if it starts
      inside the GOP, a recode segment up to the GOP end, with [p] left on
      it;
    - when the interval begins after the GOP start, inside the GOP, and
      ends past the GOP end, it emits exactly one recode segment (s, o)
      and leaves [p] on the same interval; the next GOP [o, o'), which
      finds [p] there, plans the remainder from [o] on: as a copy of the
      whole GOP when the interval reaches [o'], and otherwise as in the
      first case, beginning with the recode segment (o, e). *)
Theorem gop_step_partial_overlap segs g p acc s e :
  segs !! p = Some (s, e) ->
  ((s < gop_i g)%Q -> (gop_i g < e)%Q -> (e < gop_o g)%Q ->
     py_max s (gop_i g) = gop_i g
     /\ forall inside next,
          drop (S p) segs = inside ++ next ->
          Forall (fun q => (snd q < gop_o g)%Q) inside ->
          match next with [] => True | q :: _ => (gop_o g <= snd q)%Q end ->
          gop_step segs false g p acc
          = ((S p + length inside)%nat,
             acc ++ [recode_in g (py_max s (gop_i g)) e]
                 ++ map (fun q => recode_in g (fst q) (snd q)) inside
                 ++ match next with
                    | (s', _) :: _ =>
                        if Qlt_bool s' (gop_o g)
                        then [recode_in g s' (gop_o g)] else []
                    | [] => []
                    end))
  /\ ((gop_i g < s)%Q -> (s < gop_o g)%Q -> (gop_o g < e)%Q ->
        gop_step segs false g p acc = (p, acc ++ [recode_in g s (gop_o g)])
        /\ forall g' acc',
             gop_i g' = gop_o g -> (gop_i g' < gop_o g')%Q ->
             ((gop_o g' <= e)%Q ->
              gop_step segs false g' p acc' = (p, acc' ++ [copy_of g']))
             /\ ((e < gop_o g')%Q ->
                 forall inside next,
                   drop (S p) segs = inside ++ next ->
                   Forall (fun q => (snd q < gop_o g')%Q) inside ->
                   match next with
                   | [] => True
                   | q :: _ => (gop_o g' <= snd q)%Q
                   end ->
                   gop_step segs false g' p acc'
                   = ((S p + length inside)%nat,
                      acc' ++ [recode_in g' (gop_i g') e]
                           ++ map (fun q => recode_in g' (fst q) (snd q)) inside
                           ++ match next with
                              | (s', _) :: _ =>
                                  if Qlt_bool s' (gop_o g')
                                  then [recode_in g' s' (gop_o g')] else []
                              | [] => []
                              end))).
Proof.
  intros Hp. split.
  - intros Hsi Hie Heo.
    assert (Hmax : py_max s (gop_i g) = gop_i g).
    { unfold py_max. apply Qlt_bool_iff in Hsi. now rewrite Hsi. }
    split; [exact Hmax|]. rewrite Hmax. intros inside next Hdrop Hin Hn.
    exact (gop_step_starts_before segs g p acc s e inside next
             Hp Hsi Hie Heo Hdrop Hin Hn).
  - intros His Hso Hoe. split.
    + unfold gop_step. rewrite (skip_ended_stays _ _ _ _ _ Hp) by lra.
      rewrite Hp.
      assert (H1 : Qle_bool (gop_o g) s = false) by (apply Qle_bool_false; lra).
      assert (H2 : Qle_bool s (gop_i g) = false) by (apply Qle_bool_false; lra).
      assert (H3 : Qlt_bool s (gop_i g) = false) by (apply Qlt_bool_false; lra).
      assert (H4 : Qlt_bool e (gop_o g) = false) by (apply Qlt_bool_false; lra).
      assert (H5 : Qlt_bool s (gop_o g) = true) by (now apply Qlt_bool_iff).
      rewrite H1, H2, H3. cbn [orb andb].
      unfold gop_tail. rewrite (drop_S _ _ _ Hp). cbn [inner_intervals].
      rewrite H4. cbn [fst snd]. rewrite Hp, H5, app_nil_r. reflexivity.
    + intros g' acc' Hnext Hg'. split.
      * intros Hreach. unfold gop_step.
        rewrite (skip_ended_stays _ _ _ _ _ Hp) by (rewrite Hnext; lra).
        rewrite Hp.
        assert (H1 : Qle_bool (gop_o g') s = false)
          by (apply Qle_bool_false; rewrite Hnext in Hg'; lra).
        assert (H2 : Qle_bool s (gop_i g') = true)
          by (apply Qle_bool_iff; rewrite Hnext; lra).
        assert (H3 : Qle_bool (gop_o g') e = true) by (now apply Qle_bool_iff).
        now rewrite H1, H2, H3.
      * intros Hinside inside next Hdrop Hin Hn.
        apply (gop_step_starts_before segs g' p acc' s e inside next Hp);
          [rewrite Hnext; lra | rewrite Hnext; lra | exact Hinside
          | exact Hdrop | exact Hin | exact Hn].
Qed.

Lemma gop_step_partial_overlap_witness :
  gop_step [(-1, 1)%Q; (1.5, 1.75)%Q; (1.9, 3)%Q] false Samples.gop_0_2 0 []
  = (2%nat, [ recode_in Samples.gop_0_2 0 1;
              recode_in Samples.gop_0_2 1.5 1.75;
              recode_in Samples.gop_0_2 1.9 2 ])
  /\ gop_step [(1, 3)%Q] false Samples.gop_0_2 0 []
     = (0%nat, [recode_in Samples.gop_0_2 1 2])
  /\ gop_step [(1, 3)%Q] false Samples.gop_2_4 0 [recode_in Samples.gop_0_2 1 2]
     = (1%nat, [recode_in Samples.gop_0_2 1 2; recode_in Samples.gop_2_4 2 3])
  /\ gop_step [(1, 5)%Q] false Samples.gop_2_4 0 [recode_in Samples.gop_0_2 1 2]
     = (0%nat, [recode_in Samples.gop_0_2 1 2; copy_of Samples.gop_2_4]).
Proof.
  split; [|split; [|split]].
  - destruct (gop_step_partial_overlap [(-1, 1)%Q; (1.5, 1.75)%Q; (1.9, 3)%Q]
                Samples.gop_0_2 0 [] (-1) 1 eq_refl) as [Hfirst _].
    destruct Hfirst as [_ Hfirst]; [reflexivity | reflexivity | reflexivity|].
    apply (Hfirst [(1.5, 1.75)%Q] [(1.9, 3)%Q] eq_refl).
    + repeat constructor.
    + cbn. lra.
  - destruct (gop_step_partial_overlap [(1, 3)%Q] Samples.gop_0_2 0 [] 1 3
                eq_refl) as [_ Hsecond].
    destruct Hsecond as [Hsecond _]; [reflexivity | reflexivity | reflexivity|].
    exact Hsecond.
  - destruct (gop_step_partial_overlap [(1, 3)%Q] Samples.gop_0_2 0 [] 1 3
                eq_refl) as [_ Hsecond].
    destruct Hsecond as [_ Hnext]; [reflexivity | reflexivity | reflexivity|].
    destruct (Hnext Samples.gop_2_4 [recode_in Samples.gop_0_2 1 2] eq_refl)
      as [_ Hinside]; [reflexivity|].
    apply (Hinside ltac:(reflexivity) [] [] eq_refl); constructor.
  - destruct (gop_step_partial_overlap [(1, 5)%Q] Samples.gop_0_2 0 [] 1 5
                eq_refl) as [_ Hsecond].
    destruct Hsecond as [_ Hnext]; [reflexivity | reflexivity | reflexivity|].
    destruct (Hnext Samples.gop_2_4 [recode_in Samples.gop_0_2 1 2] eq_refl)
      as [Hcopy _]; [reflexivity|].
    apply Hcopy. cbn. lra.
Defined.

(** C2 as stated fails: for a GOP [0, 2) and the interval (1, 3), which
    begins after the GOP start and ends past the GOP end, the planner
    emits the segment (1, 2), not (max(1, 0), 3), and [p] stays on the
    interval; the rest of the interval becomes the segment (2, 3) of the
    next GOP. *)
Lemma planner_edge_case_counterexample :
  let segs := [(1, 3)%Q] in
  (gop_i Samples.gop_0_2 < 1)%Q /\ (gop_o Samples.gop_0_2 < 3)%Q
  /\ gop_step segs false Samples.gop_0_2 0 [] = (0%nat, [recode_in Samples.gop_0_2 1 2])
  /\ gop_step segs false Samples.gop_0_2 0 []
     <> gop_tail segs Samples.gop_0_2 1 [recode_in Samples.gop_0_2 (py_max 1 (gop_i Samples.gop_0_2)) 3]
  /\ make_cut_segments
       (mkMediaContainer true [] [0; 2]%Q [0; 50] [Some 49; Some 99] 0 4)
       segs false
     = Ret [mkCutSegment true 1 2 0 (Some 49) 0;
            mkCutSegment true 2 3 50 (Some 99) 1].
Proof.
  cbn zeta. split; [reflexivity|]. split; [reflexivity|].
  split; [reflexivity|]. split; [|reflexivity].
  vm_compute. discriminate.
Qed.

End PlannerFacts.

Module TimestampFacts.
Import MiscData Av VideoCutter TrackCutters.

(** *** The video repair on packets that carry a usable DTS *)

Lemma fix_stamped out_stream out_time_base last_dts p :
  stamped p ->
  let r := _fix_packet_timestamps out_stream out_time_base last_dts p in
  Packet.dts (fst r) = Some (snd r)
  /\ last_dts < snd r
  /\ pts_ge_dts (fst r) = true.
Proof.
  intros (t & d & Hp & Hd & Hlo & Hhi).
  unfold _fix_packet_timestamps. cbn. rewrite Hd.
  destruct (Z.ltb_spec d (-900000)); [lia|].
  destruct (Z.ltb_spec 1000000000000 d); [lia|].
  cbn. rewrite Hd, Hp.
  destruct (Z.leb_spec d last_dts);
    match goal with
    | |- context [?a <? ?b] => destruct (Z.ltb_spec a b)
    end; cbn; unfold pts_ge_dts; cbn; try rewrite Hp;
    repeat split; try lia; apply Z.leb_le; lia.
Qed.

Lemma fix_packets_stamped out_stream out_time_base packets : forall last_dts,
  Forall stamped packets ->
  let r := fix_packets out_stream out_time_base last_dts packets in
  increasing_from last_dts (fst r)
  /\ forallb pts_ge_dts (fst r) = true.
Proof.
  induction packets as [|p packets IH]; intros last_dts Hall; cbn.
  - split; [exact I | reflexivity].
  - inversion Hall as [|? ? Hp Hrest]; subst.
    destruct (fix_stamped out_stream out_time_base last_dts p Hp)
      as (Hd & Hlt & Hge).
    destruct (IH (snd (_fix_packet_timestamps out_stream out_time_base last_dts p))
                Hrest) as [Hinc Hall'].
    split.
    + eexists. split; [exact Hd|]. split; [exact Hlt | exact Hinc].
    + now rewrite Hge, Hall'.
Qed.

(** *** The audio repair keeps DTS increasing *)

Lemma passthru_increasing out_stream in_tb pos cut_segment in_packets :
  forall prev_pts prev_dts,
  increasing_from prev_dts
    (fst (passthru_packets out_stream in_tb pos cut_segment
            prev_pts prev_dts in_packets)).
Proof.
  induction in_packets as [|p rest IH]; intros prev_pts prev_dts; cbn.
  - exact I.
  - destruct (Packet.pts p) as [p_pts|]; [|apply IH].
    destruct (Packet.dts p) as [p_dts|]; [|apply IH].
    cbn. eexists. split; [reflexivity|]. split; [|apply IH].
    destruct (Z.leb_spec
                (py_int (inject_Z p_dts
                         + (pos - MiscData.start_time cut_segment) / in_tb))
                prev_dts); lia.
Qed.

(** The audio loop bumps PTS and DTS independently of each other: it
    keeps [PTS >= DTS] where the source packets have it, and does not
    establish it where they do not. *)

Lemma py_int_shift_mono (a b : Z) (shift : Q) :
  a <= b ->
  py_int (inject_Z a + shift) <= py_int (inject_Z b + shift).
Proof.
  intros Hab. unfold py_int. destruct shift as [n d]. cbn.
  apply Z.quot_le_mono; [lia | nia].
Qed.

Lemma passthru_keeps_pts_ge_dts out_stream in_tb pos cut_segment in_packets :
  forall prev_pts prev_dts,
  prev_dts <= prev_pts ->
  Forall (fun p => forall t d, Packet.pts p = Some t ->
                               Packet.dts p = Some d -> d <= t) in_packets ->
  forallb pts_ge_dts
    (fst (passthru_packets out_stream in_tb pos cut_segment
            prev_pts prev_dts in_packets)) = true.
Proof.
  induction in_packets as [|p rest IH]; intros prev_pts prev_dts Hprev Hall; cbn.
  - reflexivity.
  - inversion Hall as [|? ? Hp Hrest]; subst.
    destruct (Packet.pts p) as [p_pts|] eqn:Ept; [|now apply IH].
    destruct (Packet.dts p) as [p_dts|] eqn:Edt; [|now apply IH].
    specialize (Hp _ _ eq_refl eq_refl).
    pose proof (py_int_shift_mono p_dts p_pts
                  ((pos - MiscData.start_time cut_segment) / in_tb) Hp) as Hm.
    cbn. unfold pts_ge_dts at 1. cbn.
    set (pts1 := py_int (inject_Z p_pts + _)) in *.
    set (dts1 := py_int (inject_Z p_dts + _)) in *.
    assert (Hle : (if dts1 <=? prev_dts then prev_dts + 1 else dts1)
                  <= (if pts1 <=? prev_pts then prev_pts + 1 else pts1)).
    { destruct (Z.leb_spec dts1 prev_dts), (Z.leb_spec pts1 prev_pts); lia. }
    apply andb_true_iff. split; [now apply Z.leb_le | now apply IH].
Qed.

(** *** The subtitle repair: DTS equals PTS and never goes down *)

Lemma retime_subtitles_nondecreasing out_stream in_tb start pos picked :
  forall packets prev out packets' last,
  retime_subtitles out_stream in_tb start pos packets prev picked
  = Ret (out, packets', last) ->
  nondecreasing_from prev out.
Proof.
  induction picked as [|i picked IH]; intros packets prev out packets' last; cbn.
  - intros [= <- _ _]. exact I.
  - destruct (packets !! i) as [packet|]; [|discriminate].
    destruct (Packet.pts packet) as [t|]; [|discriminate].
    match goal with
    | |- context [retime_subtitles _ _ _ _ ?ps ?pv picked] =>
        destruct (retime_subtitles out_stream in_tb start pos ps pv picked)
          as [[[out1 packets1] last1]| |] eqn:E
    end; cbn; try discriminate.
    intros [= <- _ _]. cbn.
    eexists. split; [reflexivity|]. split; [reflexivity|].
    split; [|exact (IH _ _ _ _ _ E)].
    destruct (Z.ltb_spec
                (py_int (inject_Z (t - start) + pos / in_tb)) prev); lia.
Qed.

(** C1 at its failing inputs.
    Video: after a packet with DTS 10, a flush packet with PTS 5 and a
    garbage DTS leaves [_fix_packet_timestamps] with DTS 11 and PTS 5, so
    PTS < DTS.
    Subtitles: two packets with the same PTS in one segment leave
    [SubtitleCutter.segment] with the same DTS, so the DTS sequence is not
    strictly increasing. *)
Theorem timestamp_repair_failing_inputs :
  (let out :=
     fst (fix_packets Samples.hevc_stream (1 # 90000) initial_last_dts
            [ Samples.video_packet (Some 10) (Some 10);
              Samples.video_packet (Some 5) (Some 2000000000000) ]) in
   map (fun p => (Packet.pts p, Packet.dts p)) out
   = [(Some 10, Some 10); (Some 5, Some 11)]
   /\ forallb pts_ge_dts out = false)
  /\ (exists out packets st,
        subtitle_segment Samples.srt_stream (1 # 1000)
          [Samples.subtitle_packet 100; Samples.subtitle_packet 100]
          (mkSub 0 0 initial_prev) (CutSegment3 false 0 10)
        = Ret (out, packets, st)
        /\ map Packet.dts out = [Some 100; Some 100]
        /\ dts_increasing out = false).
Proof.
  split.
  - cbn zeta. split; reflexivity.
  - eexists _, _, _. split; [vm_compute; reflexivity|].
    split; reflexivity.
Qed.

End TimestampFacts.

Module IndexFacts.
Import MiscData Av Py MediaContainer.

(** *** The attributes the constructor leaves behind *)

Lemma init_attributes path c self :
  init path c = Ret self ->
  self !! "gop_has_rasl" = None /\ self !! "gop_leading_end_dts" = None.
Proof.
  unfold init.
  destruct (make_audio_tracks _ _ _) as [tracks| |]; cbn [obind]; try discriminate.
  destruct (demux_loop _ _ _) as [st| |]; cbn [obind]; try discriminate.
  destruct (head (streams_of video c)) as [vs|]; cbn [obind].
  - destruct (take_indices _ _) as [gop_start_pts| |]; cbn [obind]; try discriminate.
    destruct (_fill_hevc_picture_nal_types _ _ _) as [types| |]; cbn [obind];
      try discriminate.
    destruct (convert_all_frame_times _) as [tracks'| |]; cbn [obind];
      try discriminate.
    intros [= <-]. split; other_key.
  - destruct (convert_all_frame_times _) as [tracks'| |]; cbn [obind];
      try discriminate.
    intros [= <-]. split; other_key.
Qed.

Lemma hybrid_check_needs_rasl_table (self : dict) first last s :
  self !! "gop_has_rasl" = None ->
  0 <= gop_index s ->
  VideoCutter._should_hybrid_recode_cra self first last s = Raise AttributeError.
Proof.
  intros Hno Hidx. unfold VideoCutter._should_hybrid_recode_cra.
  destruct (Z.ltb_spec (gop_index s) 0); [lia|].
  unfold getattr. now rewrite Hno.
Qed.

(** C3 on the code.  The object that [MediaContainer.__init__] builds has
    no attribute [gop_has_rasl] and none [gop_leading_end_dts]: no pass
    over the packets computes them.  The cutter's check for hybrid CRA
    handling, which reads [gop_has_rasl], therefore raises on every copy
    segment that names a GOP. *)
Theorem index_has_no_rasl_tables path c self first last s :
  init path c = Ret self ->
  require_recode s = false ->
  0 <= gop_index s ->
  self !! "gop_has_rasl" = None
  /\ self !! "gop_leading_end_dts" = None
  /\ VideoCutter.segment_path self first last s = Raise AttributeError.
Proof.
  intros Hinit Hcopy Hidx.
  destruct (init_attributes path c self Hinit) as [Hrasl Hlead].
  split; [exact Hrasl|]. split; [exact Hlead|].
  unfold VideoCutter.segment_path. rewrite Hcopy.
  now rewrite hybrid_check_needs_rasl_table.
Qed.

Lemma index_has_no_rasl_tables_witness :
  exists self,
    init "in.mp4" Samples.hevc_file = Ret self
    /\ self !! "gop_has_rasl" = None
    /\ self !! "gop_leading_end_dts" = None
    /\ VideoCutter.segment_path self true None
         (mkCutSegment false (6000 # 90000) (2 # 1) 6000 (Some 15000) 1)
       = Raise AttributeError.
Proof.
  assert (H : is_ret (init "in.mp4" Samples.hevc_file) = true)
    by (vm_compute; reflexivity).
  destruct (init "in.mp4" Samples.hevc_file) as [self| |] eqn:E;
    try discriminate H.
  exists self. split; [reflexivity|].
  apply (index_has_no_rasl_tables "in.mp4" Samples.hevc_file self true None
           (mkCutSegment false (6000 # 90000) (2 # 1) 6000 (Some 15000) 1)
           E eq_refl).
  cbn. lia.
Defined.

(** *** Audio tracks *)

(** What [AudioTrack(self, a_s, loading_s, path, i, i)] binds: the six
    positional arguments land on the first six fields, so [loading_s] is
    taken as [path], [path] as [index], and the last [i] as [packets]. *)
Lemma AudioTrack_call a_s loading_s path i :
  AudioTrack [VSelf; VStream a_s; VStream loading_s; VStr path; VInt i; VInt i]
  = Ret (<["frame_times" := VList []]>
        (<["packets" := VInt i]>
        (<["index_in_source" := VInt i]>
        (<["index" := VStr path]>
        (<["path" := VStream loading_s]>
        (<["av_stream" := VStream a_s]>
        (<["media_container" := VSelf]> ∅))))))).
Proof. reflexivity. Qed.

Lemma make_audio_tracks_packets path zipped : forall i tracks index,
  make_audio_tracks path i zipped = Ret (tracks, index) ->
  Forall packets_is_int tracks.
Proof.
  induction zipped as [|[a_s loading_s] rest IH]; intros i tracks index; cbn.
  - intros [= <- <-]. constructor.
  - destruct (make_audio_tracks path (i + 1) rest) as [[tr ix]| |] eqn:E;
      cbn; try discriminate.
    intros [= <- <-]. constructor; [|exact (IH _ _ _ E)].
    exists i. rewrite lookup_insert_ne by discriminate.
    apply lookup_insert_eq.
Qed.

Lemma audio_track_packet_raises track packet pts :
  packets_is_int track ->
  audio_track_packet track packet pts = Raise AttributeError.
Proof.
  intros [i Hi]. unfold audio_track_packet, getattr.
  rewrite lookup_insert_ne by discriminate. now rewrite Hi.
Qed.

Lemma audio_packet_no_return env st packet pts :
  Forall packets_is_int (audio_tracks st) ->
  ~ returns (audio_packet env st packet pts).
Proof.
  intros Hall [st' H]. unfold audio_packet in H.
  destruct (dict_get _ _) as [pos| |]; cbn in H; try discriminate.
  destruct (audio_tracks st !! pos) as [track|] eqn:E; [|discriminate].
  rewrite audio_track_packet_raises in H; [discriminate|].
  rewrite Forall_forall in Hall. apply Hall.
  eapply list_elem_of_lookup_2. exact E.
Qed.

Lemma video_packet_tracks env st packet pts st' :
  video_packet env st packet pts = Ret st' ->
  audio_tracks st' = audio_tracks st.
Proof.
  unfold video_packet.
  destruct (Packet.is_keyframe packet).
  - destruct (if is_h265 env then _ else _) as [nal_type| |]; cbn;
      try discriminate.
    destruct (if first_keyframe st then _ else _); cbn; now intros [= <-].
  - cbn. now intros [= <-].
Qed.

Lemma subtitle_packet_tracks env st packet st' :
  subtitle_packet env st packet = Ret st' ->
  audio_tracks st' = audio_tracks st.
Proof.
  unfold subtitle_packet.
  destruct (dict_get _ _) as [pos| |]; cbn; try discriminate.
  destruct (subtitle_tracks st !! pos); [|discriminate]. now intros [= <-].
Qed.

(** A step that comes back was no audio packet with a PTS, and leaves the
    tracks as they were. *)
Lemma demux_step_tracks env st packet st' :
  Forall packets_is_int (audio_tracks st) ->
  demux_step env st packet = Ret st' ->
  audio_tracks st' = audio_tracks st
  /\ (Stream.type (Packet.stream packet) = audio -> Packet.pts packet = None).
Proof.
  intros Hall. unfold demux_step.
  destruct (Packet.pts packet) as [pts|]; [|now intros [= <-]].
  set (st1 := match manual_duration_calc env, Packet.duration packet with
              | true, Some d => _
              | _, _ => st
              end).
  assert (H1 : audio_tracks st1 = audio_tracks st).
  { unfold st1. destruct (manual_duration_calc env), (Packet.duration packet);
      reflexivity. }
  destruct (Stream.type (Packet.stream packet)).
  - destruct (has_video_stream env).
    + intros H. apply video_packet_tracks in H. split; [congruence | discriminate].
    + intros [= <-]. split; [exact H1 | discriminate].
  - intros H. exfalso.
    apply (audio_packet_no_return env st1 packet pts);
      [now rewrite H1 | exists st'; exact H].
  - intros H. apply subtitle_packet_tracks in H. split; [congruence | discriminate].
  - intros [= <-]. split; [exact H1 | discriminate].
Qed.

Lemma demux_loop_no_audio env packets : forall st st',
  Forall packets_is_int (audio_tracks st) ->
  demux_loop env st packets = Ret st' ->
  audio_tracks st' = audio_tracks st
  /\ Forall (fun p => Stream.type (Packet.stream p) = audio ->
                      Packet.pts p = None) packets.
Proof.
  induction packets as [|packet rest IH]; intros st st' Hall; cbn.
  - intros [= <-]. split; [reflexivity | constructor].
  - destruct (demux_step env st packet) as [st1| |] eqn:E; cbn; try discriminate.
    destruct (demux_step_tracks env st packet st1 Hall E) as [Htr Hp].
    intros H. destruct (IH st1 st') as [Htr' Hrest]; [now rewrite Htr | exact H |].
    split; [congruence | now constructor].
Qed.

Lemma demux_selects c selected packet :
  In packet (Av.packets c) ->
  In (Packet.stream packet) selected ->
  In packet (demux c selected).
Proof.
  intros Hp Hs. unfold demux. apply filter_In. split; [exact Hp|].
  apply existsb_exists. exists (Packet.stream packet).
  split; [exact Hs | apply Z.eqb_refl].
Qed.

Lemma audio_packet_never_indexed path c packet pts :
  In packet (Av.packets c) ->
  In (Packet.stream packet) (Av.streams c) ->
  Stream.type (Packet.stream packet) = audio ->
  Packet.pts packet = Some pts ->
  ~ returns (init path c).
Proof.
  intros Hin Hstream Haudio Hpts [self Hinit]. unfold init in Hinit.
  destruct (make_audio_tracks _ _ _) as [[tracks index]| |] eqn:Etracks;
    cbn [obind] in Hinit; try discriminate.
  destruct (demux_loop _ _ _) as [st| |] eqn:Eloop; cbn [obind] in Hinit;
    try discriminate.
  apply demux_loop_no_audio in Eloop as [_ Hall];
    [|exact (make_audio_tracks_packets _ _ _ _ _ Etracks)].
  rewrite Forall_forall in Hall.
  assert (Hnone : Packet.pts packet = None); [|congruence].
  apply Hall; [|exact Haudio].
  apply list_elem_of_In, demux_selects; [exact Hin|].
  apply in_or_app. left.
  assert (Ha : In (Packet.stream packet) (streams_of audio c)).
  { apply filter_In. split; [exact Hstream|]. now rewrite Haudio. }
  destruct (head (streams_of video c)); [right|]; exact Ha.
Qed.

(** *** The exception is the AttributeError of [append] *)

Lemma dict_get_shift (d : list (Z * nat)) key :
  dict_get (map (fun e => (fst e, S (snd e))) d) key
  = do pos <- dict_get d key; Ret (S pos).
Proof.
  induction d as [|[k v] d IH]; [reflexivity|]. cbn. rewrite IH.
  destruct (dict_get d key); cbn; try reflexivity;
    destruct (k =? key); reflexivity.
Qed.

Lemma make_audio_tracks_index path zipped : forall i,
  exists tracks index,
    make_audio_tracks path i zipped = Ret (tracks, index)
    /\ Forall packets_is_int tracks
    /\ length tracks = length zipped
    /\ (forall key pos, dict_get index key = Ret pos ->
          (pos < length tracks)%nat)
    /\ (forall s, In s (map fst zipped) ->
          returns (dict_get index (Stream.index s))).
Proof.
  induction zipped as [|[a_s loading_s] rest IH]; intros i.
  - exists [], []. repeat split; [constructor | discriminate | intros s []].
  - destruct (IH (i + 1)) as (tracks & index & E & Hint & Hlen & Hpos & Hkey).
    cbn [make_audio_tracks]. rewrite AudioTrack_call, E. cbn [obind fst snd].
    eexists _, _. split; [reflexivity|].
    split.
    { constructor; [|exact Hint]. exists i.
      rewrite lookup_insert_ne by discriminate. apply lookup_insert_eq. }
    split; [cbn; lia|]. split.
    + intros key pos. cbn [dict_get]. rewrite dict_get_shift.
      destruct (dict_get index key) as [pos'| |] eqn:Eg; cbn [obind].
      * intros [= <-]. specialize (Hpos _ _ Eg). cbn. lia.
      * destruct (_ =? key); [intros [= <-]; cbn; lia | discriminate].
      * destruct (_ =? key); [intros [= <-]; cbn; lia | discriminate].
    + intros s Hs. cbn [dict_get]. rewrite dict_get_shift.
      destruct (dict_get index (Stream.index s)) as [pos| |] eqn:Eg;
        cbn [obind]; [now eexists| |].
      all: destruct Hs as [<-|Hs];
        [ cbn; rewrite Z.eqb_refl; now eexists
        | destruct (Hkey s Hs) as [pos' Eg']; congruence ].
Qed.

Lemma subtitle_index_keys subs : forall i,
  (forall key pos, dict_get (subtitle_index i subs) key = Ret pos ->
     (i <= pos < i + length subs)%nat)
  /\ (forall s, In s subs ->
        returns (dict_get (subtitle_index i subs) (Stream.index s))).
Proof.
  induction subs as [|s0 subs IH]; intros i.
  - split; [discriminate | intros s []].
  - destruct (IH (S i)) as [Hpos Hkey]. split.
    + intros key pos. cbn [subtitle_index dict_get].
      destruct (dict_get (subtitle_index (S i) subs) key) as [pos'| |] eqn:Eg.
      * intros [= <-]. specialize (Hpos _ _ Eg). cbn. lia.
      * destruct (_ =? key); [intros [= <-]; cbn; lia | discriminate].
      * destruct (_ =? key); [intros [= <-]; cbn; lia | discriminate].
    + intros s Hs. cbn [subtitle_index dict_get].
      destruct (dict_get (subtitle_index (S i) subs) (Stream.index s))
        as [pos| |] eqn:Eg; [now eexists| |].
      all: destruct Hs as [<-|Hs];
        [ rewrite Z.eqb_refl; now eexists
        | destruct (Hkey s Hs) as [pos' Eg']; congruence ].
Qed.

Lemma video_packet_returns env st packet pts :
  exists st',
    video_packet env st packet pts = Ret st'
    /\ audio_tracks st' = audio_tracks st
    /\ subtitle_tracks st' = subtitle_tracks st.
Proof.
  unfold video_packet.
  destruct (Packet.is_keyframe packet); [|cbn; now eexists].
  assert (Hnal : returns
            (if is_h265 env
             then NalTools.get_h265_nal_unit_type (Packet.payload packet)
             else if is_h264 env
                  then NalTools.get_h264_nal_unit_type (Packet.payload packet)
                  else Ret None)).
  { destruct (is_h265 env).
    - apply NalToolsFacts.get_h265_nal_unit_type_returns.
    - destruct (is_h264 env); [|now eexists].
      apply NalToolsFacts.get_h264_nal_unit_type_returns. }
  destruct Hnal as [nal_type ->]. cbn [obind].
  destruct (if first_keyframe st then _ else _); cbn; now eexists.
Qed.

Section DemuxLoop.
Variable c : InputContainer.
Variable env : loop_env.
Variables n_audio n_subtitle : nat.
Hypothesis audio_keys : forall s,
  In s (streams c) -> Stream.type s = audio ->
  returns (dict_get (stream_index_to_audio_track env) (Stream.index s)).
Hypothesis audio_positions : forall key pos,
  dict_get (stream_index_to_audio_track env) key = Ret pos ->
  (pos < n_audio)%nat.
Hypothesis subtitle_keys : forall s,
  In s (streams c) -> Stream.type s = subtitle ->
  returns (dict_get (stream_index_to_subtitle_track env) (Stream.index s)).
Hypothesis subtitle_positions : forall key pos,
  dict_get (stream_index_to_subtitle_track env) key = Ret pos ->
  (pos < n_subtitle)%nat.

Lemma audio_packet_raises st packet pts :
  loop_shape n_audio n_subtitle st ->
  In (Packet.stream packet) (streams c) ->
  Stream.type (Packet.stream packet) = audio ->
  audio_packet env st packet pts = Raise AttributeError.
Proof.
  intros (Hall & Hlen & _) Hin Haudio. unfold audio_packet.
  destruct (audio_keys _ Hin Haudio) as [pos Hpos].
  unfold Packet.stream_index. rewrite Hpos. cbn [obind].
  pose proof (audio_positions _ _ Hpos) as Hlt.
  destruct (audio_tracks st !! pos) as [track|] eqn:E.
  - rewrite audio_track_packet_raises; [reflexivity|].
    rewrite Forall_forall in Hall. apply Hall.
    eapply list_elem_of_lookup_2. exact E.
  - apply lookup_ge_None in E. lia.
Qed.

Lemma subtitle_packet_returns st packet :
  loop_shape n_audio n_subtitle st ->
  In (Packet.stream packet) (streams c) ->
  Stream.type (Packet.stream packet) = subtitle ->
  exists st', subtitle_packet env st packet = Ret st'
              /\ loop_shape n_audio n_subtitle st'.
Proof.
  intros (Hall & Hlen & Hsub) Hin Htype. unfold subtitle_packet.
  destruct (subtitle_keys _ Hin Htype) as [pos Hpos].
  unfold Packet.stream_index. rewrite Hpos. cbn [obind].
  pose proof (subtitle_positions _ _ Hpos) as Hlt.
  destruct (subtitle_tracks st !! pos) as [track|] eqn:E.
  - eexists. split; [reflexivity|]. repeat split; cbn; try assumption.
    now rewrite length_insert.
  - apply lookup_ge_None in E. lia.
Qed.

Lemma demux_step_cases st packet :
  loop_shape n_audio n_subtitle st ->
  In (Packet.stream packet) (streams c) ->
  (audio_with_pts packet /\ demux_step env st packet = Raise AttributeError)
  \/ (~ audio_with_pts packet
      /\ exists st', demux_step env st packet = Ret st'
                     /\ loop_shape n_audio n_subtitle st').
Proof.
  intros Hshape Hin. unfold demux_step, audio_with_pts.
  destruct (Packet.pts packet) as [pts|];
    [|right; split; [intros [_ H]; congruence | now eexists]].
  set (st1 := match manual_duration_calc env, Packet.duration packet with
              | true, Some d => _
              | _, _ => st
              end).
  assert (Hshape1 : loop_shape n_audio n_subtitle st1).
  { unfold st1. destruct (manual_duration_calc env), (Packet.duration packet);
      exact Hshape. }
  destruct (Stream.type (Packet.stream packet)) eqn:Htype.
  - right. split; [intros [H _]; discriminate|].
    destruct (has_video_stream env); [|now eexists].
    destruct (video_packet_returns env st1 packet pts) as (st' & E & Ha & Hs).
    exists st'. split; [exact E|].
    destruct Hshape1 as (H1 & H2 & H3).
    repeat split; [now rewrite Ha | now rewrite Ha | now rewrite Hs].
  - left. split; [split; [reflexivity | discriminate]|].
    now apply audio_packet_raises.
  - right. split; [intros [H _]; discriminate|].
    now apply subtitle_packet_returns.
  - right. split; [intros [H _]; discriminate | now eexists].
Qed.

Lemma demux_loop_raises packets : forall st,
  loop_shape n_audio n_subtitle st ->
  Forall (fun p => In (Packet.stream p) (streams c)) packets ->
  Exists audio_with_pts packets ->
  demux_loop env st packets = Raise AttributeError.
Proof.
  induction packets as [|packet rest IH]; intros st Hshape Hwf Hex.
  - inversion Hex.
  - inversion Hwf as [|? ? Hin Hrest]; subst. cbn [demux_loop].
    destruct (demux_step_cases st packet Hshape Hin)
      as [[_ ->]|(Hno & st' & -> & Hshape')]; [reflexivity|].
    cbn [obind]. apply IH; [assumption | assumption |].
    inversion Hex; subst; [contradiction | assumption].
Qed.

End DemuxLoop.

(** C5 on the code.  The call [AudioTrack(self, a_s, loading_s, path, i, i)]
    passes six positional arguments to a dataclass whose sixth field is
    [packets], so every track starts with the integer [i] where the packet
    list should be.  On a source that has an audio packet with a PTS, the
    constructor therefore raises AttributeError, at
    [track.packets.append(packet)]: no such source gets an index. *)
Theorem audio_packet_aborts_construction path c packet :
  well_formed c ->
  In packet (Av.packets c) ->
  audio_with_pts packet ->
  init path c = Raise AttributeError.
Proof.
  intros Hwf Hin Haudio. unfold init.
  set (audio_streams := streams_of audio c).
  set (subtitle_streams := streams_of subtitle c).
  set (selected := _ ++ subtitle_streams).
  destruct (make_audio_tracks_index path (zip audio_streams audio_streams) 0)
    as (tracks & index & -> & Hint & Hlen & Hpos & Hkey).
  cbn [obind fst snd].
  destruct (subtitle_index_keys subtitle_streams 0) as [Hspos Hskey].
  assert (Hfst : map fst (zip audio_streams audio_streams) = audio_streams).
  { clear. induction audio_streams as [|s l IH]; [reflexivity|].
    cbn. now rewrite IH. }
  assert (Hsel : forall p, In p (Av.packets c) -> audio_with_pts p ->
                           In (Packet.stream p) selected).
  { intros p Hp [Ht _]. unfold well_formed in Hwf.
    rewrite Forall_forall in Hwf. apply list_elem_of_In, Hwf in Hp.
    apply in_or_app. left.
    assert (Ha : In (Packet.stream p) audio_streams).
    { apply filter_In. split; [exact Hp|]. now rewrite Ht. }
    destruct (head (streams_of video c)); [right|]; exact Ha. }
  rewrite (demux_loop_raises c _ (length tracks) (length subtitle_streams));
    cbn [stream_index_to_audio_track stream_index_to_subtitle_track].
  - reflexivity.
  - intros s Hs Ht. apply Hkey. rewrite Hfst.
    apply filter_In. split; [exact Hs|]. now rewrite Ht.
  - exact Hpos.
  - intros s Hs Ht. apply Hskey.
    apply filter_In. split; [exact Hs|]. now rewrite Ht.
  - intros key pos H. specialize (Hspos _ _ H). lia.
  - repeat split; cbn; [exact Hint | now rewrite length_map].
  - apply Forall_forall. intros p Hp.
    apply list_elem_of_In, filter_In in Hp as [Hp _].
    unfold well_formed in Hwf. rewrite Forall_forall in Hwf.
    apply Hwf. now apply list_elem_of_In.
  - apply Exists_exists. exists packet. split; [|exact Haudio].
    apply list_elem_of_In, demux_selects; [exact Hin | now apply Hsel].
Qed.

Lemma audio_packet_aborts_construction_witness :
  init "in.m4a" Samples.audio_file = Raise AttributeError.
Proof.
  apply (audio_packet_aborts_construction "in.m4a" Samples.audio_file
           (Samples.audio_packet 0)).
  - repeat constructor.
  - left. reflexivity.
  - split; [reflexivity | discriminate].
Defined.

(** The index of the sample H.265 file as the planner reads it: the second
    GOP starts at the smallest PTS of its pictures, the first RASL one. *)
Example hevc_index_for_planner :
  (do self <- init "in.mp4" Samples.hevc_file; Ret (View.planner_view self))
  = Ret (Some (Planner.mkMediaContainer true [] [0 # 90000; 6000 # 90000]%Q
                 [0; 6000] [Some 3000; Some 15000] (0 # 1000000) (200000 # 1000000))).
Proof. vm_compute. reflexivity. Qed.

End IndexFacts.

Module DriverFacts.
Import MiscData MediaUtils Av Driver.

(** A run of the driver depends on what the generators do only on the
    segments of the plan. *)
Lemma run_segment_ext G (f f' : CutSegment -> G -> outcome (list Packet.t * G))
    s generators :
  (forall g, f s g = f' s g) ->
  run_segment G f s generators = run_segment G f' s generators.
Proof.
  intros Hagree. induction generators as [|g generators IH];
    cbn [run_segment]; [reflexivity|].
  now rewrite Hagree, IH.
Qed.

Lemma segment_loop_ext G (f f' : CutSegment -> G -> outcome (list Packet.t * G))
    cancel_object file file_end segs :
  (forall s, In s segs -> forall g, f s g = f' s g) ->
  forall generators done w,
  segment_loop G f cancel_object file file_end segs generators done w
  = segment_loop G f' cancel_object file file_end segs generators done w.
Proof.
  induction segs as [|s segs IH]; intros Hagree generators done w;
    cbn [segment_loop]; [reflexivity|].
  rewrite (run_segment_ext G f f' s generators)
    by (apply Hagree; now left).
  destruct (fst (poll cancel_object w)); [reflexivity|].
  destruct (Qle_bool file_end (MiscData.start_time s)); [reflexivity|].
  destruct (negb _); [reflexivity|].
  destruct (run_segment G f' s generators) as [r| |]; cbn [obind];
    [|reflexivity | reflexivity].
  apply IH. intros s' Hs'. apply Hagree. now right.
Qed.

Lemma file_loop_ext G (f f' : CutSegment -> G -> outcome (list Packet.t * G))
    g_finish make_generators cancel_object cut_segments :
  (forall s, In s cut_segments -> forall g, f s g = f' s g) ->
  forall output_files done w,
  file_loop G f g_finish make_generators cancel_object cut_segments
    output_files done w
  = file_loop G f' g_finish make_generators cancel_object cut_segments
      output_files done w.
Proof.
  intros Hagree output_files.
  induction output_files as [|[file [a b]] rest IH]; intros done w;
    cbn [file_loop]; [reflexivity|].
  destruct (fst (poll cancel_object w)); [reflexivity|].
  destruct (make_generators file) as [generators| |]; cbn [obind];
    [|reflexivity | reflexivity].
  rewrite (segment_loop_ext G f f' cancel_object file b
             (drop done cut_segments)).
  - destruct (segment_loop G f' _ _ _ _ _ _ _) as [r| |]; cbn [obind];
      [|reflexivity | reflexivity].
    destruct (finish_file G g_finish _ _ _ _) as [w1| |]; cbn [obind];
      [|reflexivity | reflexivity].
    apply IH.
  - intros s Hs. apply Hagree. apply list_elem_of_In.
    apply list_elem_of_In in Hs.
    exact (elem_of_sublist _ _ _ Hs (sublist_drop cut_segments done)).
Qed.

(** C10.  In RECODE mode the plan that [smart_cut] exports is the plan of
    [make_cut_segments], segment by segment, with [require_recode] set on
    each one: same times and same GOP tags, the whole-GOP copies included.
    So [VideoCutter.segment] takes the recode branch for every segment of
    the export, whatever the state of the cutter and of the index; and the
    export is the same for any two sets of generators that do the same on
    the segments with [require_recode] set: the driver hands them no
    other. *)
Theorem recode_mode_recodes_every_segment mc positive_segments adjusted
    cut_segments :
  plan mc positive_segments RECODE = Ret (adjusted, cut_segments) ->
  adjusted = Planner.make_adjusted_segment_times positive_segments mc
  /\ (exists planned,
        Planner.make_cut_segments mc adjusted false = Ret planned
        /\ Forall2 recoded planned cut_segments)
  /\ Forall (fun c =>
               forall index first last,
                 VideoCutter.segment_path index first last c
                 = Ret VideoCutter.recode_segment)
       cut_segments
  /\ (forall G (g_segment g_segment' :
                  CutSegment -> G -> outcome (list Packet.t * G))
        g_finish make_generators segment_file_name out_path segment_mode
        cancel_object w,
        (forall s g, require_recode s = true ->
                     g_segment s g = g_segment' s g) ->
        smart_cut G g_segment g_finish make_generators segment_file_name
          mc positive_segments out_path RECODE segment_mode cancel_object w
        = smart_cut G g_segment' g_finish make_generators segment_file_name
            mc positive_segments out_path RECODE segment_mode cancel_object w).
Proof.
  intros Hplan.
  assert (Hflags : Forall (fun c => require_recode c = true) cut_segments
                   /\ adjusted
                      = Planner.make_adjusted_segment_times positive_segments mc
                   /\ exists planned,
                        Planner.make_cut_segments mc adjusted false = Ret planned
                        /\ Forall2 recoded planned cut_segments).
  { revert Hplan. unfold plan. cbn [VideoExportMode_eqb].
    destruct (Planner.make_cut_segments _ _ _) as [planned| |] eqn:E; cbn;
      try discriminate.
    intros [= <- <-]. split; [|split; [reflexivity|]].
    - apply Forall_forall. intros c Hc.
      apply list_elem_of_fmap in Hc as (c0 & -> & _). reflexivity.
    - exists planned. split; [exact E|].
      clear E. induction planned as [|c planned IH]; constructor;
        [repeat split | exact IH]. }
  destruct Hflags as (Hflags & Hadjusted & Hplanned).
  split; [exact Hadjusted|]. split; [exact Hplanned|]. split.
  - eapply Forall_impl; [exact Hflags|]. intros c Hc index first last.
    unfold VideoCutter.segment_path. now rewrite Hc.
  - intros G g_segment g_segment' g_finish make_generators segment_file_name
      out_path segment_mode cancel_object w Hagree.
    unfold smart_cut. rewrite Hplan. cbn [obind fst snd].
    destruct (if segment_mode then _ else _) as [output_files| |];
      cbn [obind]; [|reflexivity | reflexivity].
    rewrite (file_loop_ext G g_segment g_segment' g_finish make_generators
               cancel_object cut_segments); [reflexivity|].
    intros s Hs g. apply Hagree.
    rewrite Forall_forall in Hflags. apply Hflags. now apply list_elem_of_In.
Qed.

Lemma recode_mode_recodes_every_segment_witness :
  exists adjusted cut_segments,
    plan Samples.three_gops [(0.5, 5)%Q] RECODE = Ret (adjusted, cut_segments)
    /\ Planner.make_cut_segments Samples.three_gops adjusted false
       = Ret [ mkCutSegment true 0.5 2 0 (Some 177000) 0;
               mkCutSegment false 2 (4 # 1) 180000 (Some 357000) 1;
               mkCutSegment true (4 # 1) 5 360000 (Some 537000) 2 ]
    /\ Forall2 recoded
         [ mkCutSegment true 0.5 2 0 (Some 177000) 0;
           mkCutSegment false 2 (4 # 1) 180000 (Some 357000) 1;
           mkCutSegment true (4 # 1) 5 360000 (Some 537000) 2 ]
         cut_segments
    /\ Forall (fun c =>
                 forall index first last,
                   VideoCutter.segment_path index first last c
                   = Ret VideoCutter.recode_segment)
         cut_segments.
Proof.
  eexists _, _. split; [reflexivity|].
  destruct (recode_mode_recodes_every_segment Samples.three_gops [(0.5, 5)%Q]
              _ _ eq_refl) as (_ & (planned & Hplanned & Hrecoded) & Hpath & _).
  split; [reflexivity|].
  assert (Hlist : planned
                  = [ mkCutSegment true 0.5 2 0 (Some 177000) 0;
                      mkCutSegment false 2 (4 # 1) 180000 (Some 357000) 1;
                      mkCutSegment true (4 # 1) 5 360000 (Some 537000) 2 ]).
  { assert (Hcomputed : Planner.make_cut_segments Samples.three_gops
                          (Planner.make_adjusted_segment_times [(0.5, 5)%Q]
                             Samples.three_gops) false
                        = Ret [ mkCutSegment true 0.5 2 0 (Some 177000) 0;
                                mkCutSegment false 2 (4 # 1) 180000 (Some 357000) 1;
                                mkCutSegment true (4 # 1) 5 360000 (Some 537000) 2 ])
      by reflexivity.
    rewrite Hcomputed in Hplanned. now injection Hplanned as <-. }
  rewrite Hlist in Hrecoded. split; [exact Hrecoded | exact Hpath].
Defined.

(** *** Cancellation *)

Section Cancellation.
Variable G : Type.
Variable g_segment : CutSegment -> G -> outcome (list Packet.t * G).
Variable g_finish : G -> outcome (list Packet.t).
Variable make_generators : string -> outcome (list G).
Variable segment_file_name : string -> nat -> nat -> string.

Lemma smart_cut_returns_None mc positive_segments out_path mode segment_mode
    cancel_object w r w' :
  smart_cut G g_segment g_finish make_generators segment_file_name
    mc positive_segments out_path mode segment_mode cancel_object w
  = Ret (r, w') ->
  r = None.
Proof.
  unfold smart_cut.
  destruct (plan _ _ _) as [planned| |]; cbn [obind]; try discriminate.
  destruct (if segment_mode then _ else _) as [output_files| |]; cbn [obind];
    try discriminate.
  destruct (file_loop _ _ _ _ _ _ _ _ _) as [w1| |]; cbn [obind];
    try discriminate.
  now intros [= <- _].
Qed.

Lemma finish_file_reads_flag flag file generators packets w :
  finish_all G g_finish generators = Ret packets ->
  file ∈ files w ->
  finish_file G g_finish (Some flag) file generators w
  = Ret (if flag (polls w)
         then mkWorld
                (log w ++ map (EvMux file) packets
                 ++ [EvClose file; EvCancelSeen; EvRemove file])
                (files w ∖ {[file]}) (S (polls w))
         else mkWorld
                (log w ++ map (EvMux file) packets ++ [EvClose file])
                (files w) (S (polls w))).
Proof.
  intros Hfinish Hfile.
  unfold finish_file. rewrite Hfinish. cbn [obind].
  unfold mux, emit, poll, remove_if_exists. cbn.
  destruct (flag (polls w)); cbn.
  - destruct (decide (file ∈ files w)) as [_|Hn]; [|done].
    do 2 f_equal. now rewrite <- !app_assoc.
  - do 2 f_equal. now rewrite <- !app_assoc.
Qed.

(** C8, amended.  The flag is read at three places.
    - At a segment boundary (line 178): when it is found set, no further
      segment is handed to the generators.
    - After the output file is closed (line 202), which comes after the
      packets of the generators' [finish] are muxed into it: when the flag
      is found set there, the file just closed is deleted, whether it was
      cut short or is complete; when it is not, the file is kept.
    - Before an output file is opened (line 134): when the flag is found
      set there, no further file is opened and nothing is deleted.
    Put together for a flag that is set between the opening of an output
    file and its first segment, and stays set: the file receives the
    packets of [finish] and nothing else, is closed and deleted, and no
    further file is opened.  Whenever [smart_cut] returns, it returns
    None, as it does after a complete export. *)
Theorem cancel_seen_at_each_read flag file :
  (forall file_end s rest generators done w,
     flag (polls w) = true ->
     segment_loop G g_segment (Some flag) file file_end (s :: rest)
       generators done w
     = Ret (generators, done, seen w))
  /\ (forall generators packets w,
        finish_all G g_finish generators = Ret packets ->
        file ∈ files w ->
        finish_file G g_finish (Some flag) file generators w
        = Ret (if flag (polls w)
               then mkWorld
                      (log w ++ map (EvMux file) packets
                       ++ [EvClose file; EvCancelSeen; EvRemove file])
                      (files w ∖ {[file]}) (S (polls w))
               else mkWorld
                      (log w ++ map (EvMux file) packets ++ [EvClose file])
                      (files w) (S (polls w))))
  /\ (forall cut_segments interval more done w,
        flag (polls w) = true ->
        file_loop G g_segment g_finish make_generators (Some flag)
          cut_segments ((file, interval) :: more) done w
        = Ret (seen w))
  /\ (forall cut_segments interval more done w generators packets s rest,
        flag (polls w) = false ->
        flag (S (polls w)) = true ->
        flag (S (S (polls w))) = true ->
        flag (S (S (S (polls w)))) = true ->
        make_generators file = Ret generators ->
        finish_all G g_finish generators = Ret packets ->
        drop done cut_segments = s :: rest ->
        file_loop G g_segment g_finish make_generators (Some flag)
          cut_segments ((file, interval) :: more) done w
        = Ret (mkWorld
                 (log w ++ [EvOpen file; EvCancelSeen]
                  ++ map (EvMux file) packets
                  ++ [EvClose file; EvCancelSeen; EvRemove file]
                  ++ match more with [] => [] | _ :: _ => [EvCancelSeen] end)
                 (({[file]} ∪ files w) ∖ {[file]})
                 (match more with [] => 3 | _ :: _ => 4 end + polls w)))
  /\ (forall mc positive_segments out_path mode segment_mode w0 r w',
        smart_cut G g_segment g_finish make_generators segment_file_name
          mc positive_segments out_path mode segment_mode (Some flag) w0
        = Ret (r, w') ->
        r = None).
Proof.
  split; [|split; [|split; [|split]]].
  - intros file_end s rest generators done w Hflag.
    cbn. now rewrite Hflag.
  - intros generators packets w. apply finish_file_reads_flag.
  - intros cut_segments [a b] more done w Hflag.
    cbn. now rewrite Hflag.
  - intros cut_segments [a b] more done w generators packets s rest
      H0 H1 H2 H3 Hgen Hfinish Hdrop.
    assert (Hp0 : poll (Some flag) w
                  = (false, mkWorld (log w) (files w) (S (polls w))))
      by (unfold poll; now rewrite H0).
    cbn [file_loop]. rewrite Hp0. cbn [fst snd].
    rewrite Hgen. cbn [obind]. rewrite Hdrop.
    set (w1 := open_output file _).
    assert (Hp1 : poll (Some flag) w1 = (true, seen w1))
      by (unfold poll, w1; cbn [polls open_output]; now rewrite H1).
    cbn [segment_loop]. rewrite Hp1. cbn [fst snd obind].
    rewrite (finish_file_reads_flag flag file generators packets (seen w1)
               Hfinish)
      by (cbn; apply elem_of_union_l, elem_of_singleton_2; reflexivity).
    cbn [obind seen polls w1 open_output]. rewrite H2.
    cbn [log files].
    destruct more as [|[file' [a' b']] more]; cbn [file_loop].
    + subst w1. cbn. do 2 f_equal. rewrite <- !app_assoc. reflexivity.
    + unfold poll. cbn [polls]. rewrite H3. subst w1. cbn.
      do 2 f_equal. rewrite <- !app_assoc. reflexivity.
  - intros. eapply smart_cut_returns_None; eassumption.
Qed.

End Cancellation.

Lemma cancel_seen_at_each_read_witness :
  let held := [Samples.video_packet (Some 0) (Some 0)] in
  let w := mkWorld [EvOpen "out.mp4"] {["out.mp4"]} 2 in
  segment_loop _ Samples.delayed_segment (Samples.cancelled_from 2) "out.mp4" 16
    [CutSegment3 false 2 4] [held] 1 w
  = Ret ([held], 1%nat,
         mkWorld [EvOpen "out.mp4"; EvCancelSeen] {["out.mp4"]} 3)
  /\ finish_file _ Samples.delayed_finish (Samples.cancelled_from 2) "out.mp4"
       [held] w
     = Ret (mkWorld [ EvOpen "out.mp4";
                      EvMux "out.mp4" (Samples.video_packet (Some 0) (Some 0));
                      EvClose "out.mp4"; EvCancelSeen; EvRemove "out.mp4" ]
              ({["out.mp4"]} ∖ {["out.mp4"]}) 3)
  /\ file_loop _ Samples.delayed_segment Samples.delayed_finish
       Samples.one_generator (Samples.cancelled_from 2) []
       [("out.mp4", (0, 16)%Q); ("next.mp4", (16, 32)%Q)] 0 w
     = Ret (mkWorld [EvOpen "out.mp4"; EvCancelSeen] {["out.mp4"]} 3)
  /\ file_loop _ Samples.delayed_segment Samples.delayed_finish
       Samples.one_generator (Samples.cancelled_from 1)
       [CutSegment3 false 0 4; CutSegment3 false 4 8]
       [("out.mp4", (0, 16)%Q); ("next.mp4", (16, 32)%Q)] 0 empty_world
     = Ret (mkWorld [ EvOpen "out.mp4"; EvCancelSeen; EvClose "out.mp4";
                      EvCancelSeen; EvRemove "out.mp4"; EvCancelSeen ]
              (({["out.mp4"]} ∪ ∅) ∖ {["out.mp4"]}) 4).
Proof.
  cbn zeta.
  destruct (cancel_seen_at_each_read _ Samples.delayed_segment
              Samples.delayed_finish Samples.one_generator
              Samples.plain_file_name (fun n => (2 <=? n)%nat) "out.mp4")
    as (Hsegment & Hclosed & Hfile & _).
  destruct (cancel_seen_at_each_read _ Samples.delayed_segment
              Samples.delayed_finish Samples.one_generator
              Samples.plain_file_name (fun n => (1 <=? n)%nat) "out.mp4")
    as (_ & _ & _ & Hrun & _).
  split; [|split; [|split]].
  - exact (Hsegment 16%Q (CutSegment3 false 2 4) []
             [[Samples.video_packet (Some 0) (Some 0)]] 1%nat
             (mkWorld [EvOpen "out.mp4"] {["out.mp4"]} 2) eq_refl).
  - refine (Hclosed [[Samples.video_packet (Some 0) (Some 0)]]
              [Samples.video_packet (Some 0) (Some 0)]
              (mkWorld [EvOpen "out.mp4"] {["out.mp4"]} 2) eq_refl _).
    cbn. apply elem_of_singleton_2. reflexivity.
  - exact (Hfile [] (0, 16)%Q [("next.mp4", (16, 32)%Q)] 0%nat
             (mkWorld [EvOpen "out.mp4"] {["out.mp4"]} 2) eq_refl).
  - exact (Hrun [CutSegment3 false 0 4; CutSegment3 false 4 8] (0, 16)%Q
             [("next.mp4", (16, 32)%Q)] 0%nat empty_world [[]] []
             (CutSegment3 false 0 4) [CutSegment3 false 4 8]
             eq_refl eq_refl eq_refl eq_refl eq_refl eq_refl eq_refl).
Defined.

(** C8 as stated fails.  One output file, three copy segments, a
    generator that holds one packet back, the flag set before the second
    segment: after the cancellation is seen the held packet is still muxed
    (by the flush of [finish]), and the call returns None, exactly as the
    same call without cancellation does. *)
Lemma cancellation_counterexample :
  exists w w',
    smart_cut _ Samples.delayed_segment Samples.delayed_finish
      Samples.one_generator Samples.plain_file_name
      Samples.three_gops [(0, 6)%Q] "out.mp4" SMARTCUT false
      (Samples.cancelled_from 2) empty_world
    = Ret (None, w)
    /\ log w = [ EvOpen "out.mp4";
                 EvCancelSeen;
                 EvMux "out.mp4" (Samples.video_packet (Some 0) (Some 0));
                 EvClose "out.mp4";
                 EvCancelSeen;
                 EvRemove "out.mp4" ]
    /\ smart_cut _ Samples.delayed_segment Samples.delayed_finish
         Samples.one_generator Samples.plain_file_name
         Samples.three_gops [(0, 6)%Q] "out.mp4" SMARTCUT false
         None empty_world
       = Ret (None, w').
Proof.
  eexists _, _. split; [vm_compute; reflexivity|].
  split; [reflexivity | vm_compute; reflexivity].
Qed.

End DriverFacts.

(** ** nal_tools.py: the H.264 rule, the range of the results, framing *)

Module ClassifierFacts.
Import NalTools NalToolsFacts.

(** *** H.264: the loops in terms of the NAL sequence *)

Lemma h264_length_prefixed_loop_spec fuel data i found :
  0 <= i -> py_len data - i <= Z.of_nat fuel ->
  h264_length_prefixed_loop fuel data i found =
    Ret (if existsb (fun t => t =? 5) (h264_length_prefixed_types fuel data i)
         then Returned 5
         else Collected (found ++ h264_length_prefixed_types fuel data i)).
Proof.
  revert i found. induction fuel as [|fuel IH]; intros i found Hi Hfuel.
  - cbn. destruct (Z.ltb_spec i (py_len data - 4)); [lia|].
    cbn. now rewrite app_nil_r.
  - cbn [h264_length_prefixed_loop h264_length_prefixed_types].
    destruct (negb (i <? py_len data - 4)) eqn:Ecnd.
    { cbn. now rewrite app_nil_r. }
    apply negb_false_iff, Z.ltb_lt in Ecnd.
    set (nal_len := int_from_bytes_big (py_slice data i (i + 4))).
    destruct ((nal_len <? 1) || (py_len data - i - 4 <? nal_len)) eqn:Ebrk.
    { cbn. now rewrite app_nil_r. }
    apply orb_false_iff in Ebrk as [E1 E2].
    apply Z.ltb_ge in E1, E2.
    destruct (i + 4 <? py_len data) eqn:E4.
    + apply Z.ltb_lt in E4.
      rewrite (py_getitem_in_range data (i + 4) Byte.x00) by lia.
      cbn [obind existsb].
      destruct (h264_type_of _ =? 5) eqn:Eidr; [reflexivity|].
      rewrite IH by lia. cbn [orb].
      destruct (existsb _ _); [reflexivity|]. now rewrite <- app_assoc.
    + now rewrite IH by lia.
Qed.

Lemma h264_annexb_loop_spec fuel data pos found :
  0 <= pos -> py_len data - pos <= Z.of_nat fuel ->
  h264_annexb_loop fuel data pos found =
    Ret (if existsb (fun t => t =? 5) (h264_annexb_types fuel data pos)
         then Returned 5
         else Collected (found ++ h264_annexb_types fuel data pos)).
Proof.
  revert pos found. induction fuel as [|fuel IH]; intros pos found Hpos Hfuel.
  - cbn. destruct (Z.ltb_spec pos (py_len data - 4)); [lia|].
    cbn. now rewrite app_nil_r.
  - cbn [h264_annexb_loop h264_annexb_types].
    destruct (negb (pos <? py_len data - 4)) eqn:Ecnd.
    { cbn. now rewrite app_nil_r. }
    apply negb_false_iff, Z.ltb_lt in Ecnd.
    pose proof (bytes_find_range data start_code_4 pos) as R4.
    pose proof (bytes_find_range data start_code_3 pos) as R3.
    set (idx4 := bytes_find data start_code_4 pos) in *.
    set (idx3 := bytes_find data start_code_3 pos) in *.
    destruct ((idx4 =? -1) && (idx3 =? -1)) eqn:Enone.
    { cbn. now rewrite app_nil_r. }
    destruct (negb (idx4 =? -1) && ((idx3 =? -1) || (idx4 <=? idx3))) eqn:Efour.
    + apply andb_true_iff in Efour as [Eh _].
      apply negb_true_iff, Z.eqb_neq in Eh.
      destruct (idx4 + 5 <=? py_len data) eqn:E5.
      * apply Z.leb_le in E5.
        rewrite (py_getitem_in_range data (idx4 + 4) Byte.x00) by lia.
        cbn [obind existsb].
        destruct (h264_type_of _ =? 5) eqn:Eidr; [reflexivity|].
        rewrite IH by lia. cbn [orb].
        destruct (existsb _ _); [reflexivity|]. now rewrite <- app_assoc.
      * now rewrite IH by lia.
    + assert (Hthree : idx3 <> -1).
      { intros E3. rewrite E3 in Enone, Efour. cbn in Enone, Efour.
        rewrite andb_true_r in Enone, Efour.
        rewrite Enone in Efour. discriminate. }
      destruct (idx3 + 4 <=? py_len data) eqn:E4.
      * apply Z.leb_le in E4.
        rewrite (py_getitem_in_range data (idx3 + 3) Byte.x00) by lia.
        cbn [obind existsb].
        destruct (h264_type_of _ =? 5) eqn:Eidr; [reflexivity|].
        rewrite IH by lia. cbn [orb].
        destruct (existsb _ _); [reflexivity|]. now rewrite <- app_assoc.
      * now rewrite IH by lia.
Qed.

Lemma h264_pick_choice ts :
  existsb (fun t => t =? 5) ts = false ->
  h264_pick ts = h264_priority_choice ts.
Proof.
  intros Hno. unfold h264_pick, h264_priority_choice. rewrite Hno.
  destruct ts as [|first ts]; [reflexivity|].
  destruct (List.find _ (first :: ts)); reflexivity.
Qed.

Lemma h264_annexb_part_spec data :
  h264_annexb_part (length data) data =
    Ret (h264_priority_choice (h264_annexb_types (length data) data 0)).
Proof.
  unfold h264_annexb_part.
  rewrite h264_annexb_loop_spec by (unfold py_len; lia).
  cbn [obind].
  destruct (existsb _ _) eqn:E.
  - unfold h264_priority_choice. now rewrite E.
  - cbn [app]. now rewrite h264_pick_choice.
Qed.

Lemma h264_length_prefixed_types_nonempty data :
  5 <= py_len data -> length_prefixed_form data = true ->
  h264_length_prefixed_types (length data) data 0 <> [].
Proof.
  unfold length_prefixed_form. intros Hlen Hform.
  apply andb_true_iff in Hform as [H4 Hle].
  apply Z.ltb_lt in H4. apply Z.leb_le in Hle.
  destruct (length data) as [|n] eqn:En; [unfold py_len in *; lia|].
  cbn [h264_length_prefixed_types].
  change (0 + 4) with 4.
  set (nal_len := int_from_bytes_big (py_slice data 0 4)) in *.
  destruct (Z.ltb_spec 0 (py_len data - 4)); [|lia]. cbn [negb].
  destruct (Z.ltb_spec nal_len 1); [lia|].
  destruct (Z.ltb_spec (py_len data - 0 - 4) nal_len); [lia|]. cbn [orb].
  destruct (Z.ltb_spec 4 (py_len data)); [|lia].
  discriminate.
Qed.

Lemma h264_pick_nonempty first rest : h264_pick (first :: rest) <> None.
Proof. unfold h264_pick. destruct (List.find _ _); discriminate. Qed.

(** X1.  [get_h264_nal_unit_type] returns the choice of its docstring over
    the NAL units of the payload, in either framing: 5 when an IDR slice
    is among them; otherwise the first type in 1..4; otherwise the first
    type met; None when there is no NAL unit to read. *)
Theorem h264_classifier_priority (data : bytes) :
  get_h264_nal_unit_type data = Ret (h264_priority_choice (h264_nal_types data)).
Proof.
  unfold get_h264_nal_unit_type, get_h264_nal_unit_type_fuel, h264_nal_types.
  destruct (Z.ltb_spec (py_len data) 5) as [|Hlen]; [reflexivity|].
  fold (length_prefixed_form data).
  destruct (length_prefixed_form data) eqn:Hform.
  - rewrite h264_length_prefixed_loop_spec by (unfold py_len; lia).
    cbn [obind].
    pose proof (h264_length_prefixed_types_nonempty data Hlen Hform) as Hne.
    destruct (existsb _ _) eqn:E.
    + unfold h264_priority_choice. now rewrite E.
    + cbn [app]. rewrite <- h264_pick_choice by assumption.
      destruct (h264_length_prefixed_types _ _ _) as [|first rest] eqn:Ets;
        [congruence|].
      pose proof (h264_pick_nonempty first rest) as Hp.
      destruct (h264_pick (first :: rest)); [reflexivity | congruence].
  - apply h264_annexb_part_spec.
Qed.

(** *** The range of the results *)

Lemma h265_type_of_range b : 0 <= h265_type_of b <= 63.
Proof.
  unfold h265_type_of.
  assert (E : forall a, Z.land a 63 = a mod 64).
  { intros a. change 63 with (Z.ones 6). now rewrite Z.land_ones by lia. }
  rewrite E.
  pose proof (Z.mod_pos_bound (Z.shiftr (byte_val b) 1) 64 eq_refl). lia.
Qed.

Lemma h264_type_of_range b : 0 <= h264_type_of b <= 31.
Proof.
  unfold h264_type_of.
  assert (E : forall a, Z.land a 31 = a mod 32).
  { intros a. change 31 with (Z.ones 5). now rewrite Z.land_ones by lia. }
  rewrite E.
  pose proof (Z.mod_pos_bound (byte_val b) 32 eq_refl). lia.
Qed.

Lemma h265_length_prefixed_types_range fuel data : forall i,
  List.Forall (fun t => 0 <= t <= 63) (h265_length_prefixed_types fuel data i).
Proof.
  induction fuel as [|fuel IH]; intros i; cbn [h265_length_prefixed_types];
    [constructor|].
  destruct (negb _); [constructor|].
  destruct (_ || _); [constructor|].
  destruct (i + 5 <? py_len data); [|apply IH].
  constructor; [apply h265_type_of_range | apply IH].
Qed.

Lemma h265_annexb_types_range fuel data : forall pos,
  List.Forall (fun t => 0 <= t <= 63) (h265_annexb_types fuel data pos).
Proof.
  induction fuel as [|fuel IH]; intros pos; cbn [h265_annexb_types];
    [constructor|].
  destruct (negb (pos <? _)); [constructor|].
  destruct (_ && _); [constructor|].
  destruct (_ && _).
  - destruct (_ <=? py_len data); [|apply IH].
    constructor; [apply h265_type_of_range | apply IH].
  - destruct (_ <=? py_len data); [|apply IH].
    constructor; [apply h265_type_of_range | apply IH].
Qed.

Lemma h264_length_prefixed_types_range fuel data : forall i,
  List.Forall (fun t => 0 <= t <= 31) (h264_length_prefixed_types fuel data i).
Proof.
  induction fuel as [|fuel IH]; intros i; cbn [h264_length_prefixed_types];
    [constructor|].
  destruct (negb _); [constructor|].
  destruct (_ || _); [constructor|].
  destruct (i + 4 <? py_len data); [|apply IH].
  constructor; [apply h264_type_of_range | apply IH].
Qed.

Lemma h264_annexb_types_range fuel data : forall pos,
  List.Forall (fun t => 0 <= t <= 31) (h264_annexb_types fuel data pos).
Proof.
  induction fuel as [|fuel IH]; intros pos; cbn [h264_annexb_types];
    [constructor|].
  destruct (negb (pos <? _)); [constructor|].
  destruct (_ && _); [constructor|].
  destruct (_ && _).
  - destruct (_ <=? py_len data); [|apply IH].
    constructor; [apply h264_type_of_range | apply IH].
  - destruct (_ <=? py_len data); [|apply IH].
    constructor; [apply h264_type_of_range | apply IH].
Qed.

Lemma h265_nal_types_range data :
  List.Forall (fun t => 0 <= t <= 63) (h265_nal_types data).
Proof.
  unfold h265_nal_types. destruct (_ <? 6); [constructor|].
  destruct (length_prefixed_form data);
    [apply h265_length_prefixed_types_range | apply h265_annexb_types_range].
Qed.

Lemma h264_nal_types_range data :
  List.Forall (fun t => 0 <= t <= 31) (h264_nal_types data).
Proof.
  unfold h264_nal_types. destruct (_ <? 5); [constructor|].
  destruct (length_prefixed_form data);
    [apply h264_length_prefixed_types_range | apply h264_annexb_types_range].
Qed.

Lemma h265_priority_choice_In ts t :
  h265_priority_choice ts = Some t -> In t ts.
Proof.
  unfold h265_priority_choice.
  destruct (List.find _ ts) as [t1|] eqn:E1.
  { intros [= <-]. now apply find_some in E1. }
  destruct (existsb _ ts) eqn:E2.
  { intros [= <-]. apply existsb_exists in E2 as (x & Hx & Ex).
    apply Z.eqb_eq in Ex. now subst. }
  destruct (List.find (fun t => (0 <=? t) && (t <=? 15)) ts) as [t3|] eqn:E3.
  { intros [= <-]. now apply find_some in E3. }
  destruct ts; [discriminate|]. cbn. intros [= <-]. now left.
Qed.

Lemma h264_priority_choice_In ts t :
  h264_priority_choice ts = Some t -> In t ts.
Proof.
  unfold h264_priority_choice.
  destruct (existsb _ ts) eqn:E2.
  { intros [= <-]. apply existsb_exists in E2 as (x & Hx & Ex).
    apply Z.eqb_eq in Ex. now subst. }
  destruct (List.find _ ts) as [t3|] eqn:E3.
  { intros [= <-]. now apply find_some in E3. }
  destruct ts; [discriminate|]. cbn. intros [= <-]. now left.
Qed.

Lemma h265_pick_In found t : h265_pick found = Some t -> In t found.
Proof.
  unfold h265_pick. destruct found as [|first rest]; [discriminate|].
  destruct (List.find (fun t => t =? 21) _) as [t1|] eqn:E1.
  { intros [= <-]. now apply find_some in E1. }
  destruct (List.find (fun t => (0 <=? t) && (t <=? 15)) _) as [t2|] eqn:E2.
  { intros [= <-]. now apply find_some in E2. }
  intros [= <-]. now left.
Qed.

Lemma h264_pick_In found t : h264_pick found = Some t -> In t found.
Proof.
  unfold h264_pick. destruct found as [|first rest]; [discriminate|].
  destruct (List.find _ _) as [t2|] eqn:E2.
  { intros [= <-]. now apply find_some in E2. }
  intros [= <-]. now left.
Qed.

Lemma h265_result_range data r :
  get_h265_nal_unit_type data = Ret r -> in_range 63 r.
Proof.
  assert (Hannexb : forall r, h265_annexb_part (length data) data = Ret r ->
                              in_range 63 r).
  { intros r0. rewrite h265_annexb_part_spec. intros [= <-].
    destruct (h265_priority_choice _) as [t|] eqn:E; [|exact I].
    apply h265_priority_choice_In in E.
    pose proof (h265_annexb_types_range (length data) data 0) as Hall.
    rewrite List.Forall_forall in Hall. now apply Hall. }
  unfold get_h265_nal_unit_type, get_h265_nal_unit_type_fuel.
  destruct (py_len data <? 6); [now intros [= <-]|].
  destruct (_ && _); [|apply Hannexb].
  rewrite h265_length_prefixed_loop_spec by (unfold py_len; lia).
  cbn [obind app].
  pose proof (h265_length_prefixed_types_range (length data) data 0) as Hall.
  rewrite List.Forall_forall in Hall.
  destruct (List.find is_bla_or_idr _) as [t|] eqn:E.
  { intros [= <-]. apply Hall. now apply find_some in E. }
  destruct (h265_pick _) as [t|] eqn:Ep; [|apply Hannexb].
  intros [= <-]. apply Hall. now apply h265_pick_In.
Qed.

Lemma h264_result_range data r :
  get_h264_nal_unit_type data = Ret r -> in_range 31 r.
Proof.
  assert (Hannexb : forall r, h264_annexb_part (length data) data = Ret r ->
                              in_range 31 r).
  { intros r0. rewrite h264_annexb_part_spec. intros [= <-].
    destruct (h264_priority_choice _) as [t|] eqn:E; [|exact I].
    apply h264_priority_choice_In in E.
    pose proof (h264_annexb_types_range (length data) data 0) as Hall.
    rewrite List.Forall_forall in Hall. now apply Hall. }
  unfold get_h264_nal_unit_type, get_h264_nal_unit_type_fuel.
  destruct (py_len data <? 5); [now intros [= <-]|].
  destruct (_ && _); [|apply Hannexb].
  rewrite h264_length_prefixed_loop_spec by (unfold py_len; lia).
  cbn [obind app].
  pose proof (h264_length_prefixed_types_range (length data) data 0) as Hall.
  rewrite List.Forall_forall in Hall.
  destruct (existsb _ _) eqn:E.
  { intros [= <-]. cbn. lia. }
  destruct (h264_pick _) as [t|] eqn:Ep; [|apply Hannexb].
  intros [= <-]. apply Hall. now apply h264_pick_In.
Qed.

(** X2.  The H.265 classifier returns None or a type in 0..63, the H.264
    classifier None or a type in 0..31: both read the type through a mask
    of the header byte and return nothing else, in particular never the
    placeholder -1 that the look-ahead pass of the index searches for. *)
Theorem classifier_results_in_range (data : bytes) :
  (exists r, get_h265_nal_unit_type data = Ret r /\ in_range 63 r)
  /\ (exists r, get_h264_nal_unit_type data = Ret r /\ in_range 31 r).
Proof.
  split.
  - destruct (get_h265_nal_unit_type_returns data) as [r Hr].
    exists r. split; [exact Hr | exact (h265_result_range data r Hr)].
  - destruct (get_h264_nal_unit_type_returns data) as [r Hr].
    exists r. split; [exact Hr | exact (h264_result_range data r Hr)].
Qed.

(** *** Leading pictures *)

(** The H.265 result in terms of the NAL sequence, on the fuel the
    classifier passes. *)
Lemma get_h265_nal_unit_type_fuel_spec data :
  get_h265_nal_unit_type_fuel (length data) data
  = Ret (h265_priority_choice (h265_nal_types data)).
Proof.
  unfold get_h265_nal_unit_type_fuel, h265_nal_types.
  destruct (Z.ltb_spec (py_len data) 6) as [|Hlen]; [reflexivity|].
  fold (length_prefixed_form data).
  destruct (length_prefixed_form data) eqn:Hform; [|apply h265_annexb_part_spec].
  rewrite h265_length_prefixed_loop_spec by (unfold py_len; lia).
  cbn [obind].
  pose proof (length_prefixed_types_nonempty data Hlen Hform) as Hne.
  destruct (List.find is_bla_or_idr _) as [t|] eqn:E;
    [now rewrite (h265_returned_choice _ _ E)|].
  cbn [app]. rewrite <- h265_pick_choice by assumption.
  destruct (h265_length_prefixed_types _ _ _) as [|first rest]; [congruence|].
  destruct (h265_pick (first :: rest)) eqn:Ep; [reflexivity|].
  unfold h265_pick in Ep.
  repeat match type of Ep with
         | match ?x with _ => _ end = _ => destruct x
         end; discriminate.
Qed.

Lemma find_none_forall (f : Z -> bool) ts :
  List.find f ts = None -> List.Forall (fun t => f t = false) ts.
Proof.
  induction ts as [|a ts IH]; cbn; [constructor|].
  destruct (f a) eqn:E; [discriminate|]. intros H.
  constructor; [exact E | exact (IH H)].
Qed.

Lemma existsb_false_forall (f : Z -> bool) ts :
  existsb f ts = false -> List.Forall (fun t => f t = false) ts.
Proof.
  induction ts as [|a ts IH]; cbn; [constructor|].
  intros H. apply orb_false_iff in H as [E H].
  constructor; [exact E | exact (IH H)].
Qed.

(** X3.  When the H.265 classifier calls a payload a leading picture
    (RASL or RADL, types 6..9), none of the NAL units that its parse of
    the payload read is a BLA, IDR or CRA unit (types 16..21): those win
    over every other type read.  And no leading type passes for a safe
    keyframe.  This is about the units as the classifier parses them; the
    parse can take an Annex-B payload for a length-prefixed one, see
    [cra_read_as_leading] and the framing property below. *)
Theorem leading_result_reads_no_keyframe_type (data : bytes) :
  classified_as_leading data ->
  List.Forall (fun t => ~ (16 <= t <= 21)) (h265_nal_types data)
  /\ (forall r, get_h265_nal_unit_type data = Ret r ->
        is_safe_h265_keyframe_nal r = false).
Proof.
  intros (r & Hr & Hlead).
  unfold get_h265_nal_unit_type in Hr.
  rewrite get_h265_nal_unit_type_fuel_spec in Hr. injection Hr as Hr.
  assert (Hlead_range : exists t, r = Some t /\ 6 <= t <= 9).
  { destruct r as [t|]; [|discriminate]. exists t. split; [reflexivity|].
    unfold is_leading_picture_nal_type, is_rasl_nal_type, is_radl_nal_type
      in Hlead.
    repeat match type of Hlead with
           | context [?a =? ?b] => destruct (Z.eqb_spec a b)
           end; cbn in Hlead; try discriminate; lia. }
  destruct Hlead_range as (t & -> & Ht).
  split.
  - unfold h265_priority_choice in Hr.
    destruct (List.find _ (h265_nal_types data)) as [t1|] eqn:E1.
    { injection Hr as ->. apply find_some in E1 as [_ E1]. lia. }
    destruct (existsb _ (h265_nal_types data)) eqn:E2.
    { injection Hr as <-. lia. }
    apply find_none_forall in E1. apply existsb_false_forall in E2.
    rewrite List.Forall_forall in *. intros x Hx.
    specialize (E1 x Hx). specialize (E2 x Hx). cbn in E1, E2. lia.
  - intros r'. unfold get_h265_nal_unit_type.
    rewrite get_h265_nal_unit_type_fuel_spec, Hr. intros [= <-].
    unfold is_safe_h265_keyframe_nal.
    repeat match goal with
           | |- context [?a =? ?b] => destruct (Z.eqb_spec a b)
           end; cbn; try reflexivity; lia.
Qed.

Lemma leading_result_reads_no_keyframe_type_witness :
  List.Forall (fun t => ~ (16 <= t <= 21)) (h265_nal_types Samples.rasl_payload)
  /\ (forall r, get_h265_nal_unit_type Samples.rasl_payload = Ret r ->
        is_safe_h265_keyframe_nal r = false).
Proof.
  apply (leading_result_reads_no_keyframe_type Samples.rasl_payload).
  exists (Some 9). split; reflexivity.
Defined.

(** A CRA picture behind a 3-byte start code, in a payload of 302 bytes:
    the first four bytes read as the length 298, the payload is taken as
    length-prefixed, and the type is read from the second header byte:
    8, a RASL picture.  The classification of such a payload says nothing
    of the picture it carries. *)
Example cra_read_as_leading :
  let data := start_code_3 ++ [Byte.x2a; Byte.x11] ++ repeat Byte.x00 297 in
  h265_type_of Byte.x2a = 21
  /\ get_h265_nal_unit_type data = Ret (Some 8)
  /\ classified_as_leading data.
Proof.
  cbn zeta. split; [reflexivity|].
  assert (H : get_h265_nal_unit_type
                (start_code_3 ++ [Byte.x2a; Byte.x11] ++ repeat Byte.x00 297)
              = Ret (Some 8)) by (vm_compute; reflexivity).
  split; [exact H|]. exists (Some 8). split; [exact H | reflexivity].
Qed.

(** *** Framing *)

Lemma bytes_eqb_firstn sub data :
  bytes_eqb (firstn (length sub) data) sub = starts_with sub data.
Proof.
  revert data. induction sub as [|a sub IH]; intros data; [reflexivity|].
  destruct data as [|b data]; [reflexivity|]. cbn.
  rewrite IH. destruct (Byte.eqb b a) eqn:E.
  - apply Byte.byte_dec_bl in E. subst b.
    now rewrite (Byte.byte_dec_lb (x:=a) eq_refl).
  - destruct (Byte.eqb a b) eqn:E'; [|reflexivity].
    apply Byte.byte_dec_bl in E'. subst b.
    now rewrite (Byte.byte_dec_lb (x:=a) eq_refl) in E.
Qed.

Lemma byte_val_nonneg b : 0 <= byte_val b.
Proof. unfold byte_val. lia. Qed.

(** X4.  How the classifiers take a payload that [is_annexb] calls
    Annex-B.  [is_annexb] holds exactly for the payloads that begin with a
    3-byte or a 4-byte start code.  Behind a 4-byte start code the first
    four bytes read as the length 1, so the payload is never taken as
    length-prefixed, and the first NAL type is read from byte 4.  Behind a
    3-byte start code the first four bytes read as 256 plus the header
    byte: the payload is taken as length-prefixed as soon as it is that
    long, and the first NAL type is then read from byte 4, the byte after
    the header. *)
Theorem annexb_framing (data : bytes) :
  VideoCutter.is_annexb (Some data)
  = starts_with start_code_3 data || starts_with start_code_4 data
  /\ (starts_with start_code_4 data = true ->
      length_prefixed_form data = false)
  /\ (forall b c rest,
        data = start_code_4 ++ b :: c :: rest ->
        head (h265_nal_types data) = Some (h265_type_of b))
  /\ (forall b c rest,
        data = start_code_3 ++ b :: c :: rest ->
        length_prefixed_form data = (260 + byte_val b <=? py_len data)
        /\ (260 + byte_val b <= py_len data ->
            head (h265_nal_types data) = Some (h265_type_of c))).
Proof.
  assert (Hfour : starts_with start_code_4 data = true ->
                  length_prefixed_form data = false).
  { intros H. apply starts_with_app in H as [post ->].
    unfold length_prefixed_form. reflexivity. }
  split.
  { unfold VideoCutter.is_annexb, py_slice. cbn [Z.sub Z.to_nat skipn].
    change (Z.to_nat (3 - 0)) with (length start_code_3).
    change (Z.to_nat (4 - 0)) with (length start_code_4).
    now rewrite !bytes_eqb_firstn. }
  split; [exact Hfour|]. split.
  - intros b c rest ->. unfold h265_nal_types.
    rewrite Hfour by reflexivity.
    cbn [app start_code_4].
    set (d := Byte.x00 :: Byte.x00 :: Byte.x00 :: Byte.x01 :: b :: c :: rest).
    assert (Hlen : py_len d = 6 + Z.of_nat (length rest)).
    { unfold py_len, d. cbn [length]. lia. }
    assert (Hfuel : length d = S (S (S (S (S (S (length rest)))))))
      by reflexivity.
    rewrite Hfuel, Hlen.
    destruct (Z.ltb_spec (6 + Z.of_nat (length rest)) 6); [lia|].
    cbn [h265_annexb_types]. rewrite Hlen.
    destruct (Z.ltb_spec 0 (6 + Z.of_nat (length rest) - 5)); [|lia].
    cbn [negb].
    change (bytes_find d start_code_4 0) with 0.
    change (bytes_find d start_code_3 0) with 1.
    cbn [Z.eqb negb andb orb Z.leb Z.compare].
    destruct (Z.leb_spec (0 + 6) (6 + Z.of_nat (length rest))); [|lia].
    reflexivity.
  - intros b c rest ->. cbn [app start_code_3].
    set (d := Byte.x00 :: Byte.x00 :: Byte.x01 :: b :: c :: rest).
    assert (Hlen : py_len d = 5 + Z.of_nat (length rest)).
    { unfold py_len, d. cbn [length]. lia. }
    assert (Hfuel : length d = S (S (S (S (S (length rest))))))
      by reflexivity.
    assert (Hn : int_from_bytes_big (py_slice d 0 4) = 256 + byte_val b).
    { unfold py_slice, int_from_bytes_big, d.
      change (Z.to_nat (4 - 0)) with 4%nat. change (Z.to_nat 0) with 0%nat.
      cbn [firstn skipn fold_left].
      change (byte_val Byte.x00) with 0. change (byte_val Byte.x01) with 1.
      lia. }
    pose proof (byte_val_nonneg b) as Hb.
    assert (Hform : length_prefixed_form d = (260 + byte_val b <=? py_len d)).
    { unfold length_prefixed_form. rewrite Hn, Hlen.
      destruct (Z.ltb_spec 4 (256 + byte_val b)); [|lia]. cbn [andb].
      destruct (Z.leb_spec (256 + byte_val b) (5 + Z.of_nat (length rest) - 4)),
        (Z.leb_spec (260 + byte_val b) (5 + Z.of_nat (length rest)));
        try reflexivity; lia. }
    split; [exact Hform|].
    intros Hlong. unfold h265_nal_types. rewrite Hform.
    destruct (Z.leb_spec (260 + byte_val b) (py_len d)); [|lia].
    rewrite Hfuel. cbn [h265_length_prefixed_types].
    change (0 + 4) with 4. rewrite Hn, Hlen in *.
    destruct (Z.ltb_spec (5 + Z.of_nat (length rest)) 6); [lia|].
    destruct (Z.ltb_spec 0 (5 + Z.of_nat (length rest) - 4)); [|lia].
    cbn [negb].
    destruct (Z.ltb_spec (256 + byte_val b) 2); [lia|].
    destruct (Z.ltb_spec (5 + Z.of_nat (length rest) - 0 - 4) (256 + byte_val b));
      [lia|].
    cbn [orb].
    destruct (Z.ltb_spec (0 + 5) (5 + Z.of_nat (length rest))); [|lia].
    reflexivity.
Qed.

End ClassifierFacts.

(** ** smart_cut.py: the shape of a plan *)

Module PlanShapeFacts.
Import MiscData Planner PlannerFacts.

(** *** The interval adjustment *)

(** X10.  [make_adjusted_segment_times] keeps the intervals in order: for
    a source of non-negative duration, every interval with [0 <= s < e]
    that starts less than ten seconds past the end of the source comes out
    with its start before its end, whichever of its two ends are snapped
    to the ten-second margins. *)
Theorem adjusted_intervals_valid mc (segs : list interval) :
  (0 <= duration mc)%Q ->
  Forall (fun p => (0 <= fst p)%Q /\ (fst p < snd p)%Q
                   /\ (fst p < duration mc + 10)%Q) segs ->
  Forall valid_interval (make_adjusted_segment_times segs mc).
Proof.
  intros Hdur Hall. unfold make_adjusted_segment_times.
  induction Hall as [|[s e] segs (Hs & Hse & Hend) _ IH]; cbn [map];
    constructor; [|exact IH].
  cbn [fst snd] in *. unfold adjust_segment, valid_interval. cbn [fst snd].
  destruct (Qle_bool s EPSILON), (Qle_bool (duration mc - EPSILON) e); lra.
Qed.

Lemma adjusted_intervals_valid_witness :
  Forall valid_interval
    (make_adjusted_segment_times [(0, 1)%Q; (2, 6)%Q] Samples.three_gops).
Proof.
  apply (adjusted_intervals_valid Samples.three_gops [(0, 1)%Q; (2, 6)%Q]).
  - cbn. lra.
  - repeat constructor; cbn; lra.
Defined.

(** *** Ascending intervals *)

Lemma ascending_from_drop segs : forall lo p,
  ascending_from lo segs -> exists lo', ascending_from lo' (drop p segs).
Proof.
  induction segs as [|[s e] segs IH]; intros lo p Hasc.
  - exists lo. now rewrite drop_nil.
  - destruct p as [|p]; [now exists lo|].
    destruct Hasc as (_ & _ & Hrest). exact (IH e p Hrest).
Qed.

Lemma ascending_from_valid segs : forall lo,
  ascending_from lo segs -> Forall valid_interval segs.
Proof.
  induction segs as [|[s e] segs IH]; intros lo Hasc; [constructor|].
  destruct Hasc as (_ & Hse & Hrest).
  constructor; [exact Hse | exact (IH e Hrest)].
Qed.

(** *** Every segment lies in the GOP whose tags it carries *)

Lemma inner_intervals_within g segs : forall rest p lo,
  drop p segs = rest -> ascending_from lo rest -> (gop_i g <= lo)%Q ->
  Forall (within_gop g) (fst (inner_intervals g rest p))
  /\ exists lo', (gop_i g <= lo')%Q
                 /\ ascending_from lo' (drop (snd (inner_intervals g rest p)) segs).
Proof.
  induction rest as [|[s e] rest IH]; intros p lo Hdrop Hasc Hlo.
  - cbn. split; [constructor|]. exists lo. rewrite Hdrop. now split.
  - cbn [inner_intervals]. destruct (Qlt_bool e (gop_o g)) eqn:E.
    + apply Qlt_bool_iff in E.
      destruct Hasc as (Hs & Hse & Hrest).
      apply drop_cons_lookup in Hdrop as [_ Hdrop'].
      destruct (IH (S p) e Hdrop' Hrest ltac:(lra)) as [Hall Hnext].
      cbn [fst snd]. split; [|exact Hnext].
      constructor; [|exact Hall].
      repeat split; try reflexivity. right. cbn. repeat split; lra.
    + cbn [fst snd]. split; [constructor|].
      exists lo. rewrite Hdrop. now split.
Qed.

Lemma gop_tail_within (R : CutSegment -> Prop) segs g p acc lo :
  (forall c, within_gop g c -> R c) ->
  ascending_from lo (drop p segs) -> (gop_i g <= lo)%Q ->
  Forall R acc ->
  Forall R (snd (gop_tail segs g p acc)).
Proof.
  intros HR Hasc Hlo Hacc. unfold gop_tail.
  destruct (inner_intervals_within g segs (drop p segs) p lo eq_refl Hasc Hlo)
    as [Hinner (lo' & Hlo' & Hasc')].
  assert (Hmid : Forall R (acc ++ fst (inner_intervals g (drop p segs) p))).
  { apply Forall_app. split; [exact Hacc|].
    eapply Forall_impl; [exact Hinner | exact HR]. }
  destruct (segs !! _) as [[s e]|] eqn:Hlook; [|exact Hmid].
  destruct (Qlt_bool s (gop_o g)) eqn:E; [|exact Hmid].
  apply Qlt_bool_iff in E.
  rewrite (drop_S _ _ _ Hlook) in Hasc'. destruct Hasc' as (Hs & _ & _).
  cbn [snd]. apply Forall_app. split; [exact Hmid|].
  constructor; [|constructor]. apply HR.
  repeat split; try reflexivity. right. cbn. repeat split; lra.
Qed.

Lemma gop_step_within (R : CutSegment -> Prop) segs keyframe_mode g p acc lo :
  (forall c, within_gop g c -> R c) ->
  ascending_from lo segs ->
  Forall R acc ->
  Forall R (snd (gop_step segs keyframe_mode g p acc)).
Proof.
  intros HR Hasc Hacc. unfold gop_step.
  set (p1 := skip_ended (gop_i g) (drop p segs) p).
  destruct (segs !! p1) as [[s e]|] eqn:Hlook; [|exact Hacc].
  pose proof (skip_ended_current _ _ segs p s e eq_refl Hlook) as Hie.
  destruct (ascending_from_drop segs lo p1 Hasc) as [lo1 Hasc1].
  rewrite (drop_S _ _ _ Hlook) in Hasc1.
  destruct Hasc1 as (Hlo1 & Hse & Hrest).
  destruct (Qle_bool (gop_o g) s); [exact Hacc|].
  destruct (keyframe_mode || (Qle_bool s (gop_i g) && Qle_bool (gop_o g) e))
    eqn:Ecopy.
  { cbn [snd]. apply Forall_app. split; [exact Hacc|].
    constructor; [|constructor]. apply HR.
    repeat split; try reflexivity. now left. }
  apply orb_false_iff in Ecopy as [_ Ecopy].
  destruct (Qlt_bool s (gop_i g)) eqn:Efirst.
  - apply Qlt_bool_iff in Efirst.
    assert (Hsi : Qle_bool s (gop_i g) = true) by (apply Qle_bool_iff; lra).
    rewrite Hsi in Ecopy. cbn [andb] in Ecopy. apply Qle_bool_false in Ecopy.
    apply (gop_tail_within R segs g (S p1) _ e HR Hrest); [lra|].
    apply Forall_app. split; [exact Hacc|].
    constructor; [|constructor]. apply HR.
    repeat split; try reflexivity. right. cbn. repeat split; lra.
  - apply Qlt_bool_false in Efirst.
    apply (gop_tail_within R segs g p1 acc s HR); [|exact Efirst | exact Hacc].
    rewrite (drop_S _ _ _ Hlook). repeat split; [lra | exact Hse | exact Hrest].
Qed.

Lemma gop_loop_within (R : CutSegment -> Prop) segs keyframe_mode lo gops :
  forall p acc,
  (forall g c, In g gops -> within_gop g c -> R c) ->
  ascending_from lo segs ->
  Forall R acc ->
  Forall R (snd (gop_loop segs keyframe_mode gops p acc)).
Proof.
  induction gops as [|g gops IH]; intros p acc HR Hasc Hacc; cbn.
  - exact Hacc.
  - apply IH; [intros g' c Hg'; apply HR; now right | exact Hasc |].
    apply (gop_step_within R segs keyframe_mode g p acc lo);
      [intros c; apply HR; now left | exact Hasc | exact Hacc].
Qed.

(** X7.  For keep intervals in ascending order, every segment of the plan
    of a video source lies in one GOP of the index and carries that GOP's
    DTS bounds and number: it is either the whole GOP with
    [require_recode = False], or a recode segment that starts no earlier
    than the GOP and ends no later. *)
Theorem video_segments_within_gops mc segs keyframe_mode lo :
  ascending_from lo segs ->
  Forall (fun c => exists g, In g (gops_of mc) /\ within_gop g c)
    (make_cut_segments_video mc segs keyframe_mode).
Proof.
  intros Hasc. unfold make_cut_segments_video.
  apply (gop_loop_within _ segs keyframe_mode lo (gops_of mc) 0%nat []);
    [|exact Hasc | constructor].
  intros g c Hg Hc. now exists g.
Qed.

Lemma video_segments_within_gops_witness :
  Forall (fun c => exists g, In g (gops_of Samples.three_gops) /\ within_gop g c)
    (make_cut_segments_video Samples.three_gops [(0.5, 3)%Q; (3.5, 5)%Q] false).
Proof.
  apply (video_segments_within_gops Samples.three_gops
           [(0.5, 3)%Q; (3.5, 5)%Q] false 0).
  cbn. repeat split; lra.
Defined.

(** *** The plan against the keep intervals and the GOP table *)

Lemma zip_gops_valid cp : forall idx starts_dts ends_dts,
  strictly_ascending cp ->
  Forall valid_gop (zip_gops idx (removelast cp) (tl cp) starts_dts ends_dts).
Proof.
  induction cp as [|a cp IH]; intros idx starts_dts ends_dts Hasc;
    [constructor|].
  destruct cp as [|b cp]; [constructor|].
  destruct Hasc as [Hab Hasc].
  change (removelast (a :: b :: cp)) with (a :: removelast (b :: cp)).
  cbn [tl zip_gops].
  destruct starts_dts as [|i_dts starts_dts]; [constructor|].
  destruct ends_dts as [|o_dts ends_dts]; [constructor|].
  constructor; [exact Hab|].
  exact (IH (idx + 1) starts_dts ends_dts Hasc).
Qed.

(** X5.  On a video source whose cutpoints (the GOP start times followed
    by the end of the source) strictly ascend, every segment planned for
    keep intervals with [s < e] has its start before its end: the check
    [assert s.start_time < s.end_time] of the driver holds for the whole
    plan, in either mode. *)
Theorem video_plan_passes_driver_check mc segs keyframe_mode :
  strictly_ascending (source_cutpoints mc) ->
  Forall valid_interval segs ->
  Forall valid_segment (make_cut_segments_video mc segs keyframe_mode).
Proof.
  intros Hasc Hsegs. apply video_segments_valid; [exact Hsegs|].
  unfold gops_of. now apply zip_gops_valid.
Qed.

Lemma video_plan_passes_driver_check_witness :
  Forall valid_segment
    (make_cut_segments_video Samples.three_gops [(0.5, 3)%Q; (3.5, 5)%Q] false).
Proof.
  apply (video_plan_passes_driver_check Samples.three_gops
           [(0.5, 3)%Q; (3.5, 5)%Q] false).
  - cbn. repeat split; lra.
  - repeat constructor; unfold valid_interval; cbn; lra.
Defined.

Lemma lookup_In {A} (l : list A) k x : l !! k = Some x -> In x l.
Proof. intros H. apply list_elem_of_In. eapply list_elem_of_lookup_2, H. Qed.

Lemma inner_intervals_from g segs keyframe_mode : forall rest p,
  drop p segs = rest ->
  Forall valid_interval segs ->
  Forall (from_interval segs keyframe_mode) (fst (inner_intervals g rest p))
  /\ (forall s e, segs !! snd (inner_intervals g rest p) = Some (s, e) ->
        (gop_o g <= e)%Q).
Proof.
  induction rest as [|[s e] rest IH]; intros p Hdrop Hvalid.
  - cbn. split; [constructor|]. intros s e Hlook.
    assert (Hlen : (length segs <= p)%nat).
    { destruct (Nat.le_gt_cases (length segs) p) as [|Hgt]; [assumption|].
      apply (f_equal length) in Hdrop. rewrite length_drop in Hdrop.
      cbn in Hdrop. lia. }
    rewrite lookup_ge_None_2 in Hlook by exact Hlen. discriminate.
  - apply drop_cons_lookup in Hdrop as [Hp Hdrop].
    cbn [inner_intervals]. destruct (Qlt_bool e (gop_o g)) eqn:E.
    + destruct (IH (S p) Hdrop Hvalid) as [Hall Hstop].
      cbn [fst snd]. split; [|exact Hstop].
      constructor; [|exact Hall].
      exists (s, e). split; [exact (lookup_In _ _ _ Hp)|].
      rewrite Forall_forall in Hvalid.
      pose proof (Hvalid (s, e) (list_elem_of_lookup_2 _ _ _ Hp)) as Hse.
      unfold valid_interval in Hse. cbn in *. split; [exact Hse|].
      intros _. split; lra.
    + cbn [fst snd]. split; [constructor|].
      intros s' e' Hlook. rewrite Hp in Hlook. injection Hlook as <- <-.
      now apply Qlt_bool_false.
Qed.

Lemma gop_tail_from segs keyframe_mode g p acc :
  Forall valid_interval segs ->
  Forall (from_interval segs keyframe_mode) acc ->
  Forall (from_interval segs keyframe_mode) (snd (gop_tail segs g p acc)).
Proof.
  intros Hvalid Hacc. unfold gop_tail.
  destruct (inner_intervals_from g segs keyframe_mode (drop p segs) p
              eq_refl Hvalid) as [Hinner Hstop].
  assert (Hmid : Forall (from_interval segs keyframe_mode)
                   (acc ++ fst (inner_intervals g (drop p segs) p))).
  { apply Forall_app. now split. }
  destruct (segs !! _) as [[s e]|] eqn:Hlook; [|exact Hmid].
  destruct (Qlt_bool s (gop_o g)) eqn:E; [|exact Hmid].
  apply Qlt_bool_iff in E. specialize (Hstop s e eq_refl).
  cbn [snd]. apply Forall_app. split; [exact Hmid|].
  constructor; [|constructor].
  exists (s, e). split; [exact (lookup_In _ _ _ Hlook)|].
  cbn. split; [lra|]. intros _. split; lra.
Qed.

Lemma gop_step_from segs keyframe_mode g p acc :
  Forall valid_interval segs ->
  Forall (from_interval segs keyframe_mode) acc ->
  Forall (from_interval segs keyframe_mode)
    (snd (gop_step segs keyframe_mode g p acc)).
Proof.
  intros Hvalid Hacc. unfold gop_step.
  destruct (segs !! _) as [[s e]|] eqn:Hlook; [|exact Hacc].
  pose proof (skip_ended_current _ _ segs p s e eq_refl Hlook) as Hie.
  pose proof (lookup_In _ _ _ Hlook) as Hin.
  destruct (Qle_bool (gop_o g) s); [exact Hacc|].
  destruct (keyframe_mode || (Qle_bool s (gop_i g) && Qle_bool (gop_o g) e))
    eqn:Ecopy.
  { cbn [snd]. apply Forall_app. split; [exact Hacc|].
    constructor; [|constructor].
    exists (s, e). split; [exact Hin|]. cbn. split; [exact Hie|].
    intros ->. cbn [orb] in Ecopy.
    apply andb_true_iff in Ecopy as [E1 E2].
    apply Qle_bool_iff in E1, E2. now split. }
  destruct (Qlt_bool s (gop_i g)) eqn:Efirst.
  - apply Qlt_bool_iff in Efirst.
    apply gop_tail_from; [exact Hvalid|].
    apply Forall_app. split; [exact Hacc|].
    constructor; [|constructor].
    exists (s, e). split; [exact Hin|]. cbn. split; [exact Hie|].
    intros _. split; lra.
  - now apply gop_tail_from.
Qed.

Lemma gop_loop_from segs keyframe_mode gops : forall p acc,
  Forall valid_interval segs ->
  Forall (from_interval segs keyframe_mode) acc ->
  Forall (from_interval segs keyframe_mode)
    (snd (gop_loop segs keyframe_mode gops p acc)).
Proof.
  induction gops as [|g gops IH]; intros p acc Hvalid Hacc; cbn.
  - exact Hacc.
  - apply IH; [exact Hvalid|]. now apply gop_step_from.
Qed.

(** X22.  Outside keyframe mode the plan of a video source never reaches
    outside what is to be kept: for keep intervals with [s < e], every
    planned segment, recoded or copied, lies inside one of the keep
    intervals.  (In keyframe mode a copied GOP may stick out of its
    interval; it still starts before the interval ends.) *)
Theorem smartcut_plan_stays_inside_keep_intervals mc segs keyframe_mode :
  Forall valid_interval segs ->
  Forall (from_interval segs keyframe_mode)
    (make_cut_segments_video mc segs keyframe_mode).
Proof.
  intros Hvalid. unfold make_cut_segments_video.
  apply gop_loop_from; [exact Hvalid | constructor].
Qed.

Lemma smartcut_plan_stays_inside_keep_intervals_witness :
  Forall (from_interval [(0.5, 3)%Q; (3.5, 5)%Q] false)
    (make_cut_segments_video Samples.three_gops [(0.5, 3)%Q; (3.5, 5)%Q] false).
Proof.
  apply (smartcut_plan_stays_inside_keep_intervals Samples.three_gops
           [(0.5, 3)%Q; (3.5, 5)%Q] false).
  repeat constructor; unfold valid_interval; cbn; lra.
Defined.

Lemma ascending_from_last segs : forall lo last_interval,
  ascending_from lo segs ->
  last segs = Some last_interval ->
  Forall (fun p => (snd p <= snd last_interval)%Q) segs.
Proof.
  induction segs as [|[s e] segs IH]; intros lo last_interval Hasc Hlast;
    [constructor|].
  destruct Hasc as (_ & Hse & Hrest).
  destruct segs as [|[s' e'] segs].
  - cbn in Hlast. injection Hlast as <-. constructor; [cbn; lra | constructor].
  - pose proof (IH e last_interval Hrest Hlast) as Hall.
    constructor; [|exact Hall].
    inversion Hall as [|? ? He' _]; subst. destruct Hrest as (Hes' & Hse' & _).
    cbn in *. lra.
Qed.

(** *** The plan is in chronological order *)

Lemma zip_gops_ascending cp : forall idx starts_dts ends_dts b,
  strictly_ascending cp ->
  (b <= hd b cp)%Q ->
  ascending_from b
    (map gop_bounds (zip_gops idx (removelast cp) (tl cp) starts_dts ends_dts)).
Proof.
  induction cp as [|a cp IH]; intros idx starts_dts ends_dts b0 Hasc Hb;
    [exact I|].
  destruct cp as [|b cp]; [exact I|].
  destruct Hasc as [Hab Hasc].
  change (removelast (a :: b :: cp)) with (a :: removelast (b :: cp)).
  cbn [tl zip_gops].
  destruct starts_dts as [|i_dts starts_dts]; [exact I|].
  destruct ends_dts as [|o_dts ends_dts]; [exact I|].
  cbn [map ascending_from gop_bounds gop_i gop_o hd] in *.
  split; [exact Hb|]. split; [exact Hab|].
  apply (IH (idx + 1) starts_dts ends_dts b Hasc). cbn. lra.
Qed.

Lemma precedes_snoc acc c b :
  StronglySorted precedes acc ->
  Forall (fun a => (MiscData.end_time a <= b)%Q) acc ->
  (b <= MiscData.start_time c)%Q ->
  StronglySorted precedes (acc ++ [c]).
Proof.
  intros Hsorted Hends Hb.
  apply StronglySorted_app_2; [|exact Hsorted | repeat constructor].
  intros x1 x2 H1 H2. apply list_elem_of_singleton in H2. subst x2.
  rewrite Forall_forall in Hends. specialize (Hends x1 H1).
  unfold precedes. lra.
Qed.

Lemma ends_weaken acc (b b' : Q) :
  (b <= b')%Q ->
  Forall (fun a => (MiscData.end_time a <= b)%Q) acc ->
  Forall (fun a => (MiscData.end_time a <= b')%Q) acc.
Proof.
  intros Hb Hall. eapply Forall_impl; [exact Hall|].
  intros a Ha. cbn in Ha. lra.
Qed.

Lemma inner_intervals_ordered g segs : forall rest p lo acc,
  drop p segs = rest ->
  ascending_from lo rest ->
  StronglySorted precedes acc ->
  Forall (fun a => (MiscData.end_time a <= lo)%Q) acc ->
  (lo <= gop_o g)%Q ->
  StronglySorted precedes (acc ++ fst (inner_intervals g rest p))
  /\ Forall (fun a => (MiscData.end_time a <= gop_o g)%Q)
       (acc ++ fst (inner_intervals g rest p))
  /\ exists lo',
       ascending_from lo' (drop (snd (inner_intervals g rest p)) segs)
       /\ Forall (fun a => (MiscData.end_time a <= lo')%Q)
            (acc ++ fst (inner_intervals g rest p)).
Proof.
  induction rest as [|[s e] rest IH]; intros p lo acc Hdrop Hasc Hsorted Hends Hlo.
  - cbn. rewrite app_nil_r. split; [exact Hsorted|].
    split; [exact (ends_weaken _ _ _ Hlo Hends)|].
    exists lo. rewrite Hdrop. now split.
  - cbn [inner_intervals]. destruct (Qlt_bool e (gop_o g)) eqn:E.
    + apply Qlt_bool_iff in E. destruct Hasc as (Hs & Hse & Hrest).
      apply drop_cons_lookup in Hdrop as [_ Hdrop'].
      cbn [fst snd].
      destruct (IH (S p) e (acc ++ [recode_in g s e]) Hdrop' Hrest)
        as (H1 & H2 & H3).
      * apply (precedes_snoc acc _ lo Hsorted Hends). cbn. exact Hs.
      * apply Forall_app. split.
        -- apply (ends_weaken acc lo e); [lra | exact Hends].
        -- constructor; [cbn; lra | constructor].
      * lra.
      * rewrite <- app_assoc in H1, H2, H3. cbn [app] in H1, H2, H3.
        split; [exact H1|]. split; [exact H2 | exact H3].
    + cbn [fst snd]. rewrite app_nil_r. split; [exact Hsorted|].
      split; [exact (ends_weaken _ _ _ Hlo Hends)|].
      exists lo. rewrite Hdrop. now split.
Qed.

Lemma gop_tail_ordered segs g p acc lo :
  ascending_from lo (drop p segs) ->
  StronglySorted precedes acc ->
  Forall (fun a => (MiscData.end_time a <= lo)%Q) acc ->
  (lo <= gop_o g)%Q ->
  StronglySorted precedes (snd (gop_tail segs g p acc))
  /\ Forall (fun a => (MiscData.end_time a <= gop_o g)%Q)
       (snd (gop_tail segs g p acc)).
Proof.
  intros Hasc Hsorted Hends Hlo. unfold gop_tail.
  destruct (inner_intervals_ordered g segs (drop p segs) p lo acc eq_refl
              Hasc Hsorted Hends Hlo) as (H1 & H2 & lo' & Hasc' & Hends').
  destruct (segs !! _) as [[s e]|] eqn:Hlook; [|now split].
  destruct (Qlt_bool s (gop_o g)) eqn:E; [|now split].
  rewrite (drop_S _ _ _ Hlook) in Hasc'. destruct Hasc' as (Hs & _ & _).
  cbn [snd]. split.
  - apply (precedes_snoc _ _ lo' H1 Hends'). cbn. exact Hs.
  - apply Forall_app. split; [exact H2|].
    constructor; [cbn; lra | constructor].
Qed.

Lemma gop_step_ordered segs keyframe_mode g p acc lo b :
  ascending_from lo segs ->
  (b <= gop_i g)%Q -> (gop_i g < gop_o g)%Q ->
  StronglySorted precedes acc ->
  Forall (fun a => (MiscData.end_time a <= b)%Q) acc ->
  StronglySorted precedes (snd (gop_step segs keyframe_mode g p acc))
  /\ Forall (fun a => (MiscData.end_time a <= gop_o g)%Q)
       (snd (gop_step segs keyframe_mode g p acc)).
Proof.
  intros Hasc Hb Hg Hsorted Hends. unfold gop_step.
  assert (Hkeep : StronglySorted precedes acc
                  /\ Forall (fun a => (MiscData.end_time a <= gop_o g)%Q) acc).
  { split; [exact Hsorted|]. apply (ends_weaken acc b); [lra | exact Hends]. }
  set (p1 := skip_ended (gop_i g) (drop p segs) p).
  destruct (segs !! p1) as [[s e]|] eqn:Hlook; [|exact Hkeep].
  pose proof (skip_ended_current _ _ segs p s e eq_refl Hlook) as Hie.
  destruct (ascending_from_drop segs lo p1 Hasc) as [lo1 Hasc1].
  rewrite (drop_S _ _ _ Hlook) in Hasc1.
  destruct Hasc1 as (Hlo1 & Hse & Hrest).
  destruct (Qle_bool (gop_o g) s); [exact Hkeep|].
  destruct (keyframe_mode || (Qle_bool s (gop_i g) && Qle_bool (gop_o g) e))
    eqn:Ecopy.
  { cbn [snd]. split.
    - apply (precedes_snoc acc _ b Hsorted Hends). cbn. exact Hb.
    - apply Forall_app. split; [exact (proj2 Hkeep)|].
      constructor; [cbn; lra | constructor]. }
  apply orb_false_iff in Ecopy as [_ Ecopy].
  destruct (Qlt_bool s (gop_i g)) eqn:Efirst.
  - apply Qlt_bool_iff in Efirst.
    assert (Hsi : Qle_bool s (gop_i g) = true) by (apply Qle_bool_iff; lra).
    rewrite Hsi in Ecopy. cbn [andb] in Ecopy. apply Qle_bool_false in Ecopy.
    apply (gop_tail_ordered segs g (S p1) _ e Hrest).
    + apply (precedes_snoc acc _ b Hsorted Hends). cbn. exact Hb.
    + apply Forall_app. split.
      * apply (ends_weaken acc b); [lra | exact Hends].
      * constructor; [cbn; lra | constructor].
    + lra.
  - apply Qlt_bool_false in Efirst.
    apply (gop_tail_ordered segs g p1 acc (gop_i g)).
    + rewrite (drop_S _ _ _ Hlook). repeat split; assumption.
    + exact Hsorted.
    + apply (ends_weaken acc b); [lra | exact Hends].
    + lra.
Qed.

Lemma gop_loop_ordered segs keyframe_mode lo gops : forall p acc b,
  ascending_from lo segs ->
  ascending_from b (map gop_bounds gops) ->
  StronglySorted precedes acc ->
  Forall (fun a => (MiscData.end_time a <= b)%Q) acc ->
  StronglySorted precedes (snd (gop_loop segs keyframe_mode gops p acc)).
Proof.
  induction gops as [|g gops IH]; intros p acc b Hasc Hgops Hsorted Hends; cbn.
  - exact Hsorted.
  - destruct Hgops as (Hb & Hg & Hrest).
    destruct (gop_step_ordered segs keyframe_mode g p acc lo b
                Hasc Hb Hg Hsorted Hends) as [H1 H2].
    exact (IH _ _ (gop_o g) Hasc Hrest H1 H2).
Qed.

(** X27.  For keep intervals in ascending order and a video source whose
    cutpoints strictly ascend, the plan is in chronological order and its
    segments do not overlap: every segment ends no later than any segment
    after it starts, in either mode. *)
Theorem video_plan_is_chronological mc segs keyframe_mode lo :
  ascending_from lo segs ->
  strictly_ascending (source_cutpoints mc) ->
  StronglySorted precedes (make_cut_segments_video mc segs keyframe_mode).
Proof.
  intros Hasc Hgops. unfold make_cut_segments_video, gops_of.
  apply (gop_loop_ordered segs keyframe_mode lo _ 0%nat []
           (hd 0%Q (source_cutpoints mc)) Hasc);
    [|constructor | constructor].
  apply zip_gops_ascending; [exact Hgops|].
  destruct (source_cutpoints mc); cbn; lra.
Qed.

Lemma video_plan_is_chronological_witness :
  StronglySorted precedes
    (make_cut_segments_video Samples.three_gops [(0.5, 3)%Q; (3.5, 5)%Q] false).
Proof.
  apply (video_plan_is_chronological Samples.three_gops
           [(0.5, 3)%Q; (3.5, 5)%Q] false 0).
  - cbn. repeat split; lra.
  - cbn. repeat split; lra.
Defined.

(** *** Keyframe mode *)

Lemma gop_loop_keyframe_mode segs gops : forall p acc,
  exists l,
    snd (gop_loop segs true gops p acc) = acc ++ l
    /\ l `sublist_of` map copy_of gops.
Proof.
  induction gops as [|g gops IH]; intros p acc; cbn [gop_loop map].
  - exists []. split; [now rewrite app_nil_r | constructor].
  - assert (Hstep : exists p',
              gop_step segs true g p acc = (p', acc)
              \/ gop_step segs true g p acc = (p', acc ++ [copy_of g])).
    { unfold gop_step. destruct (segs !! _) as [[s e]|]; [|eexists; now left].
      destruct (Qle_bool (gop_o g) s); eexists; [now left | now right]. }
    destruct Hstep as [p' [-> | ->]]; cbn [fst snd].
    + destruct (IH p' acc) as (l & -> & Hl).
      exists l. split; [reflexivity | now apply sublist_cons].
    + destruct (IH p' (acc ++ [copy_of g])) as (l & -> & Hl).
      exists (copy_of g :: l). split; [now rewrite <- app_assoc|].
      now apply sublist_skip.
Qed.

(** X6.  In keyframe mode the plan of a video source is a selection of
    whole GOPs in the order of the index: every segment is a copy of a GOP
    from its start to its end, no GOP is planned twice, and nothing is
    recoded. *)
Theorem keyframe_mode_plans_whole_gops mc segs :
  make_cut_segments_video mc segs true `sublist_of` map copy_of (gops_of mc)
  /\ Forall (fun c => require_recode c = false)
       (make_cut_segments_video mc segs true).
Proof.
  unfold make_cut_segments_video.
  destruct (gop_loop_keyframe_mode segs (gops_of mc) 0%nat []) as (l & -> & Hl).
  cbn [app]. split; [exact Hl|].
  apply Forall_forall. intros c Hc.
  apply (elem_of_sublist _ _ _ Hc) in Hl.
  rename Hl into Hc'.
  apply list_elem_of_fmap in Hc' as (g & -> & _). reflexivity.
Qed.

(** *** The audio-only path *)

Lemma chained_app a b c l1 l2 :
  chained a b l1 -> chained b c l2 -> chained a c (l1 ++ l2).
Proof.
  revert a. induction l1 as [|x l1 IH]; intros a; cbn.
  - now intros ->.
  - intros [Hx H1] H2. split; [exact Hx | now apply IH].
Qed.

Lemma slice_loop_chained s e :
  chained s (snd (slice_loop s e)) (fst (slice_loop s e)).
Proof.
  funelim (slice_loop s e); cbn.
  - split; [reflexivity | exact H].
  - reflexivity.
Qed.

(** X8.  On the audio-only path the segments planned for one keep interval
    tile the clamped interval: the first starts at [max(s, min_time)], each
    next one starts where the one before ends, and the last ends at
    [min(e, max_time)].  Nothing of the clamped interval is left out and
    nothing is planned twice. *)
Theorem audio_slices_tile_interval min_time max_time (p : interval) :
  slice_interval min_time max_time p <> []
  /\ chained (py_max (fst p) min_time) (py_min (snd p) max_time)
       (slice_interval min_time max_time p).
Proof.
  unfold slice_interval. split.
  - destruct (fst (slice_loop _ _)); discriminate.
  - eapply chained_app; [apply slice_loop_chained|].
    cbn. split; reflexivity.
Qed.

Lemma py_getitem_nonempty {A} (x : A) (l : list A) :
  returns (py_getitem (x :: l) 0) /\ returns (py_getitem (x :: l) (-1)).
Proof.
  split.
  - now exists x.
  - unfold py_getitem. cbn [Z.ltb Z.compare].
    set (n := Z.of_nat (length (x :: l))).
    assert (Hn : 1 <= n) by (unfold n; cbn [length]; lia).
    destruct (Z.leb_spec 0 (-1 + n)); [|lia].
    destruct (Z.ltb_spec (-1 + n) n); [|lia]. cbn [andb].
    destruct (nth_error (x :: l) (Z.to_nat (-1 + n))) as [y|] eqn:E;
      [now exists y|].
    apply nth_error_None in E. unfold n in *. lia.
Qed.

(** X9.  Without a video stream the planner reads the first and the last
    packet time of the first audio track.  It returns a plan exactly when
    that track exists and has a packet; on a source with no audio track,
    or whose first audio track is empty, it raises IndexError, whatever
    the keep intervals are. *)
Theorem audio_only_plan_needs_audio_packets mc segs keyframe_mode :
  has_video_stream mc = false ->
  match audio_tracks mc with
  | (_ :: _) :: _ => returns (make_cut_segments mc segs keyframe_mode)
  | _ => make_cut_segments mc segs keyframe_mode = Raise IndexError
  end.
Proof.
  intros Hno. unfold make_cut_segments, make_cut_segments_audio.
  rewrite Hno. cbn [negb].
  destruct (audio_tracks mc) as [|[|t ts] rest]; [reflexivity | reflexivity |].
  change (py_getitem ((t :: ts) :: rest) 0) with (Ret (A:=list Q) (t :: ts)).
  cbn [obind].
  destruct (py_getitem_nonempty t ts) as [[a ->] [b ->]]. cbn [obind].
  now eexists.
Qed.

Lemma audio_only_plan_needs_audio_packets_witness :
  returns (make_cut_segments (audio_only [0; 30]%Q) [(0, 20)%Q] false)
  /\ make_cut_segments (audio_only []) [(0, 20)%Q] false = Raise IndexError.
Proof.
  split.
  - exact (audio_only_plan_needs_audio_packets (audio_only [0; 30]%Q)
             [(0, 20)%Q] false eq_refl).
  - exact (audio_only_plan_needs_audio_packets (audio_only [])
             [(0, 20)%Q] false eq_refl).
Defined.

End PlanShapeFacts.

(** ** media_container.py: the tables of the index *)

Module IndexTableFacts.
Import Av Py MediaContainer.

(** *** What the demux loop keeps true *)

Lemma fresh_tables_ok env st : fresh st -> gop_tables_ok env st.
Proof.
  intros (Hk & Hi & Hs & He & Hn & Hl & Hf). unfold gop_tables_ok.
  rewrite Hi, Hs, He, Hn. cbn.
  repeat split; try constructor.
Qed.

Lemma nal_type_in_range env payload r :
  (if is_h265 env then NalTools.get_h265_nal_unit_type payload
   else if is_h264 env then NalTools.get_h264_nal_unit_type payload
   else Ret None) = Ret r ->
  NalTools.in_range 63 r.
Proof.
  destruct (is_h265 env); [apply ClassifierFacts.h265_result_range|].
  destruct (is_h264 env); [|now intros [= <-]].
  intros H. apply ClassifierFacts.h264_result_range in H.
  destruct r as [t|]; [|exact I]. cbn in *. lia.
Qed.

Lemma video_packet_tables env st packet pts st' :
  video_packet env st packet pts = Ret st' ->
  gop_tables_ok env st -> gop_tables_ok env st'.
Proof.
  unfold video_packet.
  intros Hret (Hlen1 & Hlen2 & Hsorted & Hbound & Hrange & Hsafe & Hfirst
               & Hends & Hendlen).
  assert (Hbound' : Forall (fun i => 0 <= i < py_len (frame_pts st ++ [pts]))
                      (video_keyframe_indices st)).
  { eapply Forall_impl; [exact Hbound|]. intros i Hi. unfold py_len in *.
    rewrite length_app. cbn. lia. }
  destruct (Packet.is_keyframe packet).
  - destruct (if is_h265 env then _ else _) as [nal_type| |] eqn:Enal;
      cbn [obind] in Hret; try discriminate.
    apply nal_type_in_range in Enal.
    fold (keyframe_safe env nal_type) in Hret.
    destruct (if first_keyframe st then true else keyframe_safe env nal_type)
      eqn:Esafe; cbn [obind] in Hret; injection Hret as <-;
      unfold gop_tables_ok; cbn.
    + repeat split.
      * rewrite !length_app. cbn. lia.
      * rewrite !length_app. cbn. lia.
      * apply StronglySorted_app_2; [|exact Hsorted | repeat constructor].
        intros x1 x2 H1 H2. apply list_elem_of_singleton in H2. subst x2.
        rewrite Forall_forall in Hbound. specialize (Hbound _ H1). lia.
      * apply Forall_app. split; [exact Hbound'|].
        constructor; [|constructor]. unfold py_len.
        rewrite length_app. cbn. lia.
      * apply Forall_app. split; [exact Hrange | now repeat constructor].
      * destruct (gop_start_nal_types st) as [|first rest] eqn:Etypes;
          [constructor|].
        cbn. apply Forall_app. split; [exact Hsafe|].
        constructor; [|constructor].
        destruct (first_keyframe st); [|exact Esafe].
        specialize (Hfirst eq_refl). discriminate.
      * discriminate.
      * destruct (last_seen_video_dts st) eqn:El; [|exact Hends].
        apply Forall_app. split; [exact Hends|]. now repeat constructor.
      * destruct (last_seen_video_dts st); rewrite !length_app; cbn; lia.
    + repeat split; try assumption. discriminate.
  - cbn [obind] in Hret. injection Hret as <-. unfold gop_tables_ok. cbn.
    repeat split; assumption.
Qed.

Lemma demux_step_tables env st packet st' :
  demux_step env st packet = Ret st' ->
  gop_tables_ok env st -> gop_tables_ok env st'.
Proof.
  unfold demux_step. intros Hret Hok.
  destruct (Packet.pts packet) as [pts|]; [|now injection Hret as <-].
  set (st1 := match manual_duration_calc env, Packet.duration packet with
              | true, Some d => _
              | _, _ => st
              end) in Hret.
  assert (Hok1 : gop_tables_ok env st1).
  { unfold st1. destruct (manual_duration_calc env), (Packet.duration packet);
      exact Hok. }
  clearbody st1.
  destruct (Stream.type (Packet.stream packet)).
  - destruct (has_video_stream env); [|now injection Hret as <-].
    exact (video_packet_tables env st1 packet pts st' Hret Hok1).
  - unfold audio_packet in Hret.
    destruct (dict_get _ _) as [pos| |]; cbn [obind] in Hret; try discriminate.
    destruct (audio_tracks st1 !! pos) as [track|]; [|discriminate].
    destruct (audio_track_packet track packet pts) as [track'| |];
      cbn [obind] in Hret; try discriminate.
    injection Hret as <-. exact Hok1.
  - unfold subtitle_packet in Hret.
    destruct (dict_get _ _) as [pos| |]; cbn [obind] in Hret; try discriminate.
    destruct (subtitle_tracks st1 !! pos) as [track|]; [|discriminate].
    injection Hret as <-. exact Hok1.
  - now injection Hret as <-.
Qed.

Lemma demux_loop_tables env packets : forall st st',
  demux_loop env st packets = Ret st' ->
  gop_tables_ok env st -> gop_tables_ok env st'.
Proof.
  induction packets as [|packet rest IH]; intros st st'; cbn.
  - now intros [= <-].
  - destruct (demux_step env st packet) as [st1| |] eqn:E; cbn;
      try discriminate.
    intros Hret Hok. apply (IH st1 st' Hret).
    exact (demux_step_tables env st packet st1 E Hok).
Qed.

(** *** The look-ahead pass *)

Lemma no_placeholders types : forall i,
  Forall (NalTools.in_range 63) types -> placeholders i types = [].
Proof.
  induction types as [|t types IH]; intros i Hall; [reflexivity|].
  inversion Hall as [|? ? Ht Hrest]; subst. cbn [placeholders].
  rewrite (IH (i + 1) Hrest).
  destruct t as [[|p|p]|]; try reflexivity.
  cbn in Ht. lia.
Qed.

Lemma fill_without_placeholders c video_stream types :
  Forall (NalTools.in_range 63) types ->
  _fill_hevc_picture_nal_types c video_stream types = Ret types.
Proof.
  intros Hall. unfold _fill_hevc_picture_nal_types.
  destruct video_stream as [vs|]; [|reflexivity].
  destruct (negb _); [reflexivity|].
  now rewrite (no_placeholders types 0 Hall).
Qed.

(** X13.  The demux loop records, for every GOP start, what a classifier
    returned: None or a header value, never the placeholder -1.  So
    [_fill_hevc_picture_nal_types] finds nothing to fill on any source: it
    returns at its check of [indices_to_fill], opens no second container
    and leaves [gop_start_nal_types] as the loop built it. *)
Theorem lookahead_finds_nothing_to_fill env st0 packets st c video_stream :
  fresh st0 ->
  demux_loop env st0 packets = Ret st ->
  placeholders 0 (gop_start_nal_types st) = []
  /\ _fill_hevc_picture_nal_types c video_stream (gop_start_nal_types st)
     = Ret (gop_start_nal_types st).
Proof.
  intros Hfresh Hloop.
  pose proof (demux_loop_tables env packets st0 st Hloop
                (fresh_tables_ok env st0 Hfresh)) as Hok.
  destruct Hok as (_ & _ & _ & _ & Hrange & _).
  split; [now apply no_placeholders | now apply fill_without_placeholders].
Qed.

Lemma lookahead_finds_nothing_to_fill_witness :
  exists st,
    demux_loop Samples.hevc_env Samples.loop_start
      (Av.packets Samples.hevc_file) = Ret st
    /\ placeholders 0 (gop_start_nal_types st) = []
    /\ _fill_hevc_picture_nal_types Samples.hevc_file
         (Some Samples.hevc_stream) (gop_start_nal_types st)
       = Ret (gop_start_nal_types st).
Proof.
  assert (H : is_ret (demux_loop Samples.hevc_env Samples.loop_start
                        (Av.packets Samples.hevc_file)) = true)
    by (vm_compute; reflexivity).
  destruct (demux_loop Samples.hevc_env Samples.loop_start
              (Av.packets Samples.hevc_file)) as [st| |] eqn:E;
    try discriminate H.
  exists st. split; [reflexivity|].
  apply (lookahead_finds_nothing_to_fill Samples.hevc_env Samples.loop_start
           (Av.packets Samples.hevc_file) st Samples.hevc_file
           (Some Samples.hevc_stream)); [|exact E].
  repeat split.
Defined.

(** *** Picking the GOP start times *)

Lemma py_getitem_lookup {A} (l : list A) (i : Z) (x : A) :
  0 <= i -> py_getitem l i = Ret x -> l !! Z.to_nat i = Some x.
Proof.
  intros Hi. unfold py_getitem.
  destruct (Z.ltb_spec i 0); [lia|].
  destruct (_ && _); [|discriminate].
  destruct (nth_error l (Z.to_nat i)) as [y|] eqn:E; [|discriminate].
  intros [= <-]. clear -E.
  revert l E. induction (Z.to_nat i) as [|n IH]; intros [|a l] E;
    cbn in *; try discriminate; [exact E | now apply IH].
Qed.

Lemma StronglySorted_lookup {A} (R : relation A) (l : list A) :
  StronglySorted R l ->
  forall i j a b, l !! i = Some a -> l !! j = Some b -> (i < j)%nat -> R a b.
Proof.
  induction 1 as [|x l Hs IH Hall]; intros i j a b Hi Hj Hlt.
  - discriminate.
  - destruct j as [|j]; [lia|]. cbn in Hj.
    destruct i as [|i].
    + cbn in Hi. injection Hi as ->.
      rewrite Forall_forall in Hall. apply Hall.
      eapply list_elem_of_lookup_2. exact Hj.
    + cbn in Hi. apply (IH i j a b Hi Hj). lia.
Qed.

Lemma take_indices_sorted times : forall indices out,
  StronglySorted Qle times ->
  StronglySorted Z.lt indices ->
  Forall (fun i => 0 <= i) indices ->
  take_indices times indices = Ret out ->
  StronglySorted Qle out
  /\ length out = length indices
  /\ Forall2 (fun i x => times !! Z.to_nat i = Some x) indices out.
Proof.
  induction indices as [|i indices IH]; intros out Htimes Hidx Hpos; cbn.
  - intros [= <-]. repeat split; constructor.
  - destruct (py_getitem times i) as [t| |] eqn:Ei; cbn [obind];
      try discriminate.
    destruct (take_indices times indices) as [r| |] eqn:Er; cbn [obind];
      try discriminate.
    intros [= <-].
    apply StronglySorted_inv in Hidx as [Hidx Hlt].
    inversion Hpos as [|? ? Hi Hpos']; subst.
    apply (py_getitem_lookup times i t Hi) in Ei.
    destruct (IH r Htimes Hidx Hpos' eq_refl) as (Hr & Hlen & Hall).
    repeat split.
    + constructor; [exact Hr|].
      clear -Hall Hlt Hpos' Ei Htimes Hi.
      induction Hall as [|j x indices r Hj Hall IHall]; constructor.
      * inversion Hlt; inversion Hpos'; subst.
        apply (StronglySorted_lookup Qle times Htimes
                 (Z.to_nat i) (Z.to_nat j) t x Ei Hj). lia.
      * inversion Hlt; inversion Hpos'; subst. now apply IHall.
    + cbn. now rewrite Hlen.
    + constructor; assumption.
Qed.

Lemma take_indices_returns times : forall indices,
  Forall (fun i => 0 <= i < py_len times) indices ->
  returns (take_indices times indices).
Proof.
  induction indices as [|i indices IH]; intros Hall; cbn; [now eexists|].
  inversion Hall as [|? ? Hi Hrest]; subst.
  rewrite (py_getitem_in_range times i 0%Q Hi). cbn [obind].
  destruct (IH Hrest) as [r ->]. cbn. now eexists.
Qed.

Lemma scaled_times_sorted (time_base : Q) (pts : list Z) :
  (0 <= time_base)%Q ->
  StronglySorted Qle
    (map (fun t => (inject_Z t * time_base)%Q) (merge_sort Z.le pts)).
Proof.
  intros Htb.
  apply (StronglySorted_fmap _ Z.le Qle).
  - intros x y Hxy. apply Qmult_le_compat_r; [|exact Htb].
    now rewrite <- Zle_Qle.
  - apply StronglySorted_merge_sort; [intros x y z; lia | apply Z.le_total].
Qed.

Lemma scaled_times_length (time_base : Q) (pts : list Z) :
  length (map (fun t => (inject_Z t * time_base)%Q) (merge_sort Z.le pts))
  = length pts.
Proof.
  rewrite length_map. apply Permutation_length, merge_sort_Permutation.
Qed.

(** *** The tables of the object *)

Lemma init_video_tables path c self vs :
  init path c = Ret self ->
  head (streams_of video c) = Some vs ->
  exists env st0 packets st starts,
    fresh st0
    /\ is_h265 env = String.eqb (Stream.codec_name vs) "hevc"
    /\ is_h264 env = String.eqb (Stream.codec_name vs) "h264"
    /\ demux_loop env st0 packets = Ret st
    /\ take_indices
         (map (fun t => (inject_Z t * Stream.time_base vs)%Q)
            (merge_sort Z.le (frame_pts st)))
         (video_keyframe_indices st) = Ret starts
    /\ self !! "video_frame_times"
       = Some (VFracs (map (fun t => (inject_Z t * Stream.time_base vs)%Q)
                         (merge_sort Z.le (frame_pts st))))
    /\ self !! "gop_start_times_pts_s" = Some (VFracs starts)
    /\ self !! "gop_start_times_dts" = Some (VInts (gop_start_times_dts st))
    /\ self !! "gop_end_times_dts"
       = Some (VOptInts (gop_end_times_dts st ++ [last_seen_video_dts st]))
    /\ self !! "gop_start_nal_types" = Some (VOptInts (gop_start_nal_types st)).
Proof.
  unfold init. intros Hinit Hvs. rewrite Hvs in Hinit.
  destruct (make_audio_tracks _ _ _) as [tracks| |]; cbn [obind] in Hinit;
    try discriminate.
  destruct (demux_loop _ _ _) as [st| |] eqn:Eloop; cbn [obind] in Hinit;
    try discriminate.
  destruct (take_indices _ _) as [starts| |] eqn:Etake; cbn [obind] in Hinit;
    try discriminate.
  match type of Eloop with
  | demux_loop ?env ?st0 ?packets = _ =>
      assert (Hfresh : fresh st0) by (repeat split);
      pose proof (demux_loop_tables env packets st0 st Eloop
                    (fresh_tables_ok env st0 Hfresh)) as Hok;
      exists env, st0, packets, st, starts
  end.
  destruct Hok as (_ & _ & _ & _ & Hrange & _).
  rewrite (fill_without_placeholders _ _ _ Hrange) in Hinit.
  cbn [obind] in Hinit.
  destruct (convert_all_frame_times _) as [tracks'| |]; cbn [obind] in Hinit;
    try discriminate.
  injection Hinit as <-.
  split; [exact Hfresh|]. split; [reflexivity|]. split; [reflexivity|].
  split; [exact Eloop|]. split; [exact Etake|].
  repeat split; insert_key.
Qed.

(** X11.  On a source with a video stream whose time base is not negative,
    the object that [MediaContainer.__init__] builds has its frame times
    in ascending order, and one GOP start time, one GOP start DTS and one
    NAL type per GOP; the GOP start times are frame times of the source and
    ascend as well (not necessarily strictly: two GOPs may start at equal
    times).  The table of GOP end DTS is the ends recorded at GOP starts,
    none of them None and no more of them than GOPs, followed by the DTS of
    the last video packet. *)
Theorem index_tables_aligned_and_ascending path c self vs :
  init path c = Ret self ->
  head (streams_of video c) = Some vs ->
  (0 <= Stream.time_base vs)%Q ->
  exists times starts dts types ends last_dts,
    self !! "video_frame_times" = Some (VFracs times)
    /\ self !! "gop_start_times_pts_s" = Some (VFracs starts)
    /\ self !! "gop_start_times_dts" = Some (VInts dts)
    /\ self !! "gop_start_nal_types" = Some (VOptInts types)
    /\ self !! "gop_end_times_dts" = Some (VOptInts (ends ++ [last_dts]))
    /\ length starts = length dts
    /\ length types = length dts
    /\ (length ends <= length dts)%nat
    /\ Forall (fun d => d <> None) ends
    /\ StronglySorted Qle times
    /\ StronglySorted Qle starts
    /\ Forall (fun x => x ∈ times) starts.
Proof.
  intros Hinit Hvs Htb.
  destruct (init_video_tables path c self vs Hinit Hvs)
    as (env & st0 & packets & st & starts & Hfresh & _ & _ & Hloop & Htake
        & Htimes & Hstarts & Hdts & Hends & Htypes).
  pose proof (demux_loop_tables env packets st0 st Hloop
                (fresh_tables_ok env st0 Hfresh))
    as (Hlen1 & Hlen2 & Hsorted & Hbound & _ & _ & _ & Hpresent & Hlen3).
  pose proof (scaled_times_sorted (Stream.time_base vs) (frame_pts st) Htb)
    as Hascending.
  destruct (take_indices_sorted _ _ starts Hascending Hsorted) as (Hs & Hl & Hall);
    [eapply Forall_impl; [exact Hbound | intros i Hi; cbn in Hi; lia]
    | exact Htake |].
  eexists _, starts, _, _, _, _.
  split; [exact Htimes|]. split; [exact Hstarts|]. split; [exact Hdts|].
  split; [exact Htypes|]. split; [exact Hends|].
  split; [congruence|]. split; [exact Hlen2|].
  split; [exact Hlen3|]. split; [exact Hpresent|].
  split; [exact Hascending|]. split; [exact Hs|].
  clear -Hall. induction Hall as [|i x indices starts Hx _ IH]; constructor;
    [eapply list_elem_of_lookup_2; exact Hx | exact IH].
Qed.

Lemma index_tables_aligned_and_ascending_witness :
  exists self times starts dts types ends last_dts,
    init "in.mp4" Samples.hevc_file = Ret self
    /\ self !! "video_frame_times" = Some (VFracs times)
    /\ self !! "gop_start_times_pts_s" = Some (VFracs starts)
    /\ self !! "gop_start_times_dts" = Some (VInts dts)
    /\ self !! "gop_start_nal_types" = Some (VOptInts types)
    /\ self !! "gop_end_times_dts" = Some (VOptInts (ends ++ [last_dts]))
    /\ length starts = length dts
    /\ length types = length dts
    /\ (length ends <= length dts)%nat
    /\ Forall (fun d => d <> None) ends
    /\ StronglySorted Qle times
    /\ StronglySorted Qle starts
    /\ Forall (fun x => x ∈ times) starts.
Proof.
  assert (H : is_ret (init "in.mp4" Samples.hevc_file) = true)
    by (vm_compute; reflexivity).
  destruct (init "in.mp4" Samples.hevc_file) as [self| |] eqn:E;
    try discriminate H.
  destruct (index_tables_aligned_and_ascending "in.mp4" Samples.hevc_file self
              Samples.hevc_stream E eq_refl)
    as (times & starts & dts & types & ends & last_dts & Hrest).
  { cbn. lra. }
  exists self, times, starts, dts, types, ends, last_dts.
  split; [reflexivity | exact Hrest].
Defined.

(** X12.  Every GOP start that the index records, except the first, is a
    keyframe whose classification passed the safety test of its codec: for
    H.265 one of BLA, IDR, CRA, VPS, SPS, PPS or no type at all; for H.264
    one of 5, 6, 7, 8 or no type at all.  The first keyframe of the source
    is recorded whatever its type. *)
Theorem later_gop_starts_pass_safety_test path c self vs :
  init path c = Ret self ->
  head (streams_of video c) = Some vs ->
  exists types,
    self !! "gop_start_nal_types" = Some (VOptInts types)
    /\ (Stream.codec_name vs = "hevc" ->
        Forall (fun t => NalTools.is_safe_h265_keyframe_nal t = true) (tl types))
    /\ (Stream.codec_name vs = "h264" ->
        Forall (fun t => NalTools.is_safe_h264_keyframe_nal t = true) (tl types)).
Proof.
  intros Hinit Hvs.
  destruct (init_video_tables path c self vs Hinit Hvs)
    as (env & st0 & packets & st & starts & Hfresh & H265 & H264 & Hloop & _
        & _ & _ & _ & _ & Htypes).
  pose proof (demux_loop_tables env packets st0 st Hloop
                (fresh_tables_ok env st0 Hfresh))
    as (_ & _ & _ & _ & _ & Hsafe & _).
  exists (gop_start_nal_types st). split; [exact Htypes|].
  unfold keyframe_safe in Hsafe. rewrite H265, H264 in Hsafe.
  split; intros Hcodec; rewrite Hcodec in Hsafe; exact Hsafe.
Qed.

Lemma later_gop_starts_pass_safety_test_witness :
  exists self types,
    init "in.mp4" Samples.hevc_file = Ret self
    /\ self !! "gop_start_nal_types" = Some (VOptInts types)
    /\ (Stream.codec_name Samples.hevc_stream = "hevc" ->
        Forall (fun t => NalTools.is_safe_h265_keyframe_nal t = true) (tl types))
    /\ (Stream.codec_name Samples.hevc_stream = "h264" ->
        Forall (fun t => NalTools.is_safe_h264_keyframe_nal t = true) (tl types)).
Proof.
  assert (H : is_ret (init "in.mp4" Samples.hevc_file) = true)
    by (vm_compute; reflexivity).
  destruct (init "in.mp4" Samples.hevc_file) as [self| |] eqn:E;
    try discriminate H.
  destruct (later_gop_starts_pass_safety_test "in.mp4" Samples.hevc_file self
              Samples.hevc_stream E eq_refl) as (types & Hrest).
  exists self, types. split; [reflexivity | exact Hrest].
Defined.

(** *** Sources without audio packets *)

Lemma demux_loop_returns c env n_audio n_subtitle
    (audio_keys : forall s,
       In s (streams c) -> Stream.type s = audio ->
       returns (dict_get (stream_index_to_audio_track env) (Stream.index s)))
    (audio_positions : forall key pos,
       dict_get (stream_index_to_audio_track env) key = Ret pos ->
       (pos < n_audio)%nat)
    (subtitle_keys : forall s,
       In s (streams c) -> Stream.type s = subtitle ->
       returns (dict_get (stream_index_to_subtitle_track env) (Stream.index s)))
    (subtitle_positions : forall key pos,
       dict_get (stream_index_to_subtitle_track env) key = Ret pos ->
       (pos < n_subtitle)%nat)
    packets : forall st,
  loop_shape n_audio n_subtitle st ->
  Forall (fun p => In (Packet.stream p) (streams c)) packets ->
  Forall (fun p => ~ audio_with_pts p) packets ->
  exists st', demux_loop env st packets = Ret st'
              /\ audio_tracks st' = audio_tracks st.
Proof.
  induction packets as [|packet rest IH]; intros st Hshape Hwf Hno.
  - exists st. now split.
  - inversion Hwf as [|? ? Hin Hrest]; subst.
    inversion Hno as [|? ? Hp Hno']; subst. cbn [demux_loop].
    destruct (IndexFacts.demux_step_cases c env n_audio n_subtitle
                audio_keys audio_positions subtitle_keys subtitle_positions
                st packet Hshape Hin)
      as [[Ha _]|(_ & st1 & E & Hshape1)]; [contradiction|].
    rewrite E. cbn [obind].
    destruct (IH st1 Hshape1 Hrest Hno') as (st' & Hloop & Htracks).
    exists st'. split; [exact Hloop|].
    rewrite Htracks.
    destruct Hshape as (Hint & _).
    exact (proj1 (IndexFacts.demux_step_tracks env st packet st1 Hint E)).
Qed.

Lemma make_audio_tracks_untouched path zipped : forall i tracks index,
  make_audio_tracks path i zipped = Ret (tracks, index) ->
  Forall untouched_track tracks.
Proof.
  induction zipped as [|[a_s loading_s] rest IH]; intros i tracks index; cbn.
  - intros [= <- <-]. constructor.
  - destruct (make_audio_tracks path (i + 1) rest) as [[tr ix]| |] eqn:E;
      cbn; try discriminate.
    intros [= <- <-]. constructor; [|exact (IH _ _ _ E)].
    split; [apply lookup_insert_eq|].
    exists a_s. insert_key.
Qed.

Lemma convert_untouched_tracks tracks :
  Forall untouched_track tracks -> returns (convert_all_frame_times tracks).
Proof.
  induction 1 as [|track tracks [Hft [a_s Hs]] _ [r IH]]; cbn;
    [now eexists|].
  unfold convert_frame_times, getattr. rewrite Hft, Hs. cbn.
  rewrite IH. cbn. now eexists.
Qed.

(** X14.  [MediaContainer.__init__] returns on every source that has no
    audio packet with a PTS (each packet belonging to a stream of the
    file): video only, video with subtitles, or audio streams whose packets
    all lack a PTS.  No index into the frame times is out of range, the
    look-ahead pass and the conversion of the (empty) audio frame times
    raise nothing. *)
Theorem constructor_returns_without_audio_packets path c :
  well_formed c ->
  no_audio_packet c ->
  returns (init path c).
Proof.
  intros Hwf Hno. unfold init.
  set (audio_streams := streams_of audio c).
  set (subtitle_streams := streams_of subtitle c).
  set (selected := _ ++ subtitle_streams).
  destruct (IndexFacts.make_audio_tracks_index path
              (zip audio_streams audio_streams) 0)
    as (tracks & index & Etracks & Hint & Hlen & Hpos & Hkey).
  rewrite Etracks. cbn [obind fst snd].
  pose proof (make_audio_tracks_untouched _ _ _ _ _ Etracks) as Huntouched.
  destruct (IndexFacts.subtitle_index_keys subtitle_streams 0) as [Hspos Hskey].
  assert (Hfst : map fst (zip audio_streams audio_streams) = audio_streams).
  { clear. induction audio_streams as [|s l IH]; [reflexivity|].
    cbn. now rewrite IH. }
  set (env := mkEnv _ _ _ _ index _).
  set (st0 := mkLoop _ true [] [] [] [] None [] tracks _).
  assert (Hfresh : fresh st0) by (repeat split).
  destruct (demux_loop_returns c env (length tracks) (length subtitle_streams))
    with (packets := demux c selected) (st := st0)
    as (st & Hloop & Htracks).
  - intros s Hs Ht. apply Hkey. rewrite Hfst.
    apply filter_In. split; [exact Hs|]. now rewrite Ht.
  - exact Hpos.
  - intros s Hs Ht. apply Hskey.
    apply filter_In. split; [exact Hs|]. now rewrite Ht.
  - intros key pos H. specialize (Hspos _ _ H). lia.
  - repeat split; cbn; [exact Hint | now rewrite length_map].
  - apply Forall_forall. intros p Hp.
    apply list_elem_of_In, filter_In in Hp as [Hp _].
    unfold well_formed in Hwf. rewrite Forall_forall in Hwf.
    apply Hwf. now apply list_elem_of_In.
  - apply Forall_forall. intros p Hp.
    apply list_elem_of_In, filter_In in Hp as [Hp _].
    unfold no_audio_packet in Hno. rewrite Forall_forall in Hno.
    apply Hno. now apply list_elem_of_In.
  - rewrite Hloop. cbn [obind].
    pose proof (demux_loop_tables env _ st0 st Hloop
                  (fresh_tables_ok env st0 Hfresh))
      as (_ & _ & _ & Hbound & Hrange & _).
    assert (Hconv : returns (convert_all_frame_times (audio_tracks st))).
    { rewrite Htracks. now apply convert_untouched_tracks. }
    destruct Hconv as [tracks' Hconv].
    destruct (head (streams_of video c)) as [vs|]; cbn [obind].
    + destruct (take_indices_returns
                  (map (fun t => (inject_Z t * Stream.time_base vs)%Q)
                     (merge_sort Z.le (frame_pts st)))
                  (video_keyframe_indices st)) as [starts Etake].
      { eapply Forall_impl; [exact Hbound|]. intros i Hi. cbn in Hi.
        unfold py_len in *. now rewrite scaled_times_length. }
      rewrite Etake. cbn [obind].
      rewrite (fill_without_placeholders _ _ _ Hrange). cbn [obind].
      rewrite Hconv. cbn [obind]. now eexists.
    + rewrite Hconv. cbn [obind]. now eexists.
Qed.

Lemma constructor_returns_without_audio_packets_witness :
  returns (init "in.mp4" Samples.hevc_file).
Proof.
  apply (constructor_returns_without_audio_packets "in.mp4" Samples.hevc_file).
  - repeat constructor.
  - repeat constructor; intros [H _]; discriminate H.
Defined.

(** *** [get_next_frame_time] *)

Lemma searchsorted_split times t :
  exists lo hi,
    times = lo ++ hi
    /\ length lo = searchsorted times t
    /\ Forall (fun x => (x < t)%Q) lo
    /\ match hi with
       | [] => True
       | x :: _ => (t <= x)%Q
       end.
Proof.
  induction times as [|x times (lo & hi & -> & Hlen & Hlo & Hhi)].
  - exists [], []. repeat split. constructor.
  - cbn [searchsorted]. destruct (Qlt_bool x t) eqn:E.
    + apply Qlt_bool_iff in E. exists (x :: lo), hi.
      repeat split; [cbn; now rewrite Hlen | now constructor | exact Hhi].
    + apply Qlt_bool_false in E. exists [], (x :: lo ++ hi).
      repeat split; [constructor | exact E].
Qed.

(** X15.  On ascending frame times, [get_next_frame_time] picks the frame
    time nearest to the (shifted) time asked for, the earlier one on a
    tie; it falls back to the duration exactly when every frame time lies
    before the time asked for, in particular when there is no frame. *)
Theorem nearest_frame_is_nearest (times : list Q) (t : Q) :
  StronglySorted Qle times ->
  match nearest_frame times t with
  | None => Forall (fun x => (x < t)%Q) times
  | Some x =>
      x ∈ times
      /\ Forall (fun y => (Qabs (x - t) <= Qabs (y - t))%Q) times
      /\ Forall (fun y => (Qabs (y - t) == Qabs (x - t))%Q -> (x <= y)%Q) times
  end.
Proof.
  intros Hsorted. unfold nearest_frame.
  destruct (searchsorted_split times t) as (lo & hi & -> & Hlen & Hlo & Hhi).
  rewrite <- Hlen.
  assert (Hdist_lo : forall y, y ∈ lo -> (Qabs (y - t) == t - y)%Q).
  { intros y Hy. rewrite Forall_forall in Hlo. specialize (Hlo y Hy).
    rewrite Qabs_neg by lra. lra. }
  apply StronglySorted_app in Hsorted as (Hcross & Hslo & Hshi).
  destruct hi as [|next hi].
  { rewrite app_nil_r, Nat.eqb_refl. exact Hlo. }
  destruct (Nat.eqb_spec (length lo) (length (lo ++ next :: hi))) as [E|_].
  { rewrite length_app in E. cbn in E. lia. }
  assert (Hdist_hi : forall y, y ∈ next :: hi ->
                               (Qabs (y - t) == y - t)%Q /\ (next <= y)%Q).
  { intros y Hy. apply StronglySorted_inv in Hshi as [_ Hnext].
    rewrite Forall_forall in Hnext.
    assert (Hle : (next <= y)%Q).
    { apply elem_of_cons in Hy as [->|Hy]; [lra | now apply Hnext]. }
    split; [|exact Hle]. rewrite Qabs_pos by lra. lra. }
  destruct (Hdist_hi next ltac:(left)) as [Hnext_abs _].
  destruct lo as [|first lo] using rev_ind.
  - cbn [length app nth]. split; [left|]. split.
    + apply Forall_forall. intros y Hy.
      destruct (Hdist_hi y Hy) as [-> Hle]. rewrite Hnext_abs. lra.
    + apply Forall_forall. intros y Hy _. exact (proj2 (Hdist_hi y Hy)).
  - clear IHlo. rename first into prev.
    rewrite length_app. cbn [length]. rewrite Nat.add_1_r.
    assert (Hprev : nth (length lo) ((lo ++ [prev]) ++ next :: hi) 0%Q = prev).
    { rewrite <- app_assoc. cbn [app]. apply nth_middle. }
    assert (Hnext : nth (S (length lo)) ((lo ++ [prev]) ++ next :: hi) 0%Q = next).
    { replace (S (length lo)) with (length (lo ++ [prev]))
        by (rewrite length_app; cbn; lia).
      apply nth_middle. }
    rewrite Hprev, Hnext.
    assert (Hprev_lt : (prev < t)%Q).
    { rewrite Forall_forall in Hlo. apply Hlo.
      apply elem_of_app. right. left. }
    assert (Hprev_abs : (Qabs (prev - t) == t - prev)%Q).
    { apply Hdist_lo. apply elem_of_app. right. left. }
    assert (Hbelow : forall y, y ∈ lo ++ [prev] -> (y <= prev)%Q).
    { intros y Hy. apply elem_of_app in Hy as [Hy|Hy].
      - apply StronglySorted_app in Hslo as (Hc & _ & _).
        apply Hc; [exact Hy | left].
      - apply list_elem_of_singleton in Hy. subst. lra. }
    destruct (Qle_bool (t - prev) (next - t)) eqn:Etie.
    + apply Qle_bool_iff in Etie. split.
      { apply elem_of_app. left. apply elem_of_app. right. left. }
      split.
      * apply Forall_app. split; apply Forall_forall; intros y Hy.
        -- rewrite (Hdist_lo y Hy), Hprev_abs.
           specialize (Hbelow y Hy). lra.
        -- destruct (Hdist_hi y Hy) as [-> Hle]. rewrite Hprev_abs. lra.
      * apply Forall_app. split; apply Forall_forall; intros y Hy Heq.
        -- rewrite (Hdist_lo y Hy), Hprev_abs in Heq. lra.
        -- destruct (Hdist_hi y Hy) as [_ Hle]. lra.
    + apply Qle_bool_false in Etie. split.
      { apply elem_of_app. right. left. }
      split.
      * apply Forall_app. split; apply Forall_forall; intros y Hy.
        -- rewrite (Hdist_lo y Hy), Hnext_abs.
           specialize (Hbelow y Hy). lra.
        -- destruct (Hdist_hi y Hy) as [-> Hle]. rewrite Hnext_abs. lra.
      * apply Forall_app. split; apply Forall_forall; intros y Hy Heq.
        -- rewrite (Hdist_lo y Hy), Hnext_abs in Heq.
           specialize (Hbelow y Hy). lra.
        -- exact (proj2 (Hdist_hi y Hy)).
Qed.

Lemma nearest_frame_is_nearest_witness :
  match nearest_frame [0; 1; 3]%Q 2 with
  | None => Forall (fun x => (x < 2)%Q) [0; 1; 3]%Q
  | Some x =>
      x ∈ [0; 1; 3]%Q
      /\ Forall (fun y => (Qabs (x - 2) <= Qabs (y - 2))%Q) [0; 1; 3]%Q
      /\ Forall (fun y => (Qabs (y - 2) == Qabs (x - 2))%Q -> (x <= y)%Q)
           [0; 1; 3]%Q
  end.
Proof.
  apply (nearest_frame_is_nearest [0; 1; 3]%Q 2).
  repeat constructor; cbn; lra.
Defined.

Lemma fracs_of_VFracs l : fracs_of (map VFrac l) = Ret l.
Proof.
  induction l as [|q l IH]; [reflexivity|]. cbn. now rewrite IH.
Qed.

(** X16.  What [get_next_frame_time] does on the object that the
    constructor builds.  Without a video stream the attribute
    [video_frame_times] was never assigned and the call raises
    AttributeError.  With a video stream of non-negative time base the
    frame times ascend and the call returns: the duration of the source
    when the search places the time asked for, shifted by the start time,
    after every frame time, and otherwise the frame time that
    [nearest_frame] picks, shifted back by the start time. *)
Theorem get_next_frame_time_on_index path c self (t : Q) :
  init path c = Ret self ->
  match head (streams_of video c) with
  | None => get_next_frame_time self t = Raise AttributeError
  | Some vs =>
      (0 <= Stream.time_base vs)%Q ->
      exists times start_time,
        self !! "video_frame_times" = Some (VFracs times)
        /\ self !! "start_time" = Some (VFrac start_time)
        /\ StronglySorted Qle times
        /\ get_next_frame_time self t
           = match nearest_frame times (t + start_time) with
             | None => getattr self "duration"
             | Some x => Ret (VFrac (x - start_time))
             end
        /\ returns (get_next_frame_time self t)
  end.
Proof.
  intros Hinit.
  destruct (head (streams_of video c)) as [vs|] eqn:Hvs.
  - intros Htb.
    destruct (init_video_tables path c self vs Hinit Hvs)
      as (env & st0 & packets & st & starts & _ & _ & _ & _ & _
          & Htimes & _).
    assert (Hattrs : exists start_time duration,
               self !! "start_time" = Some (VFrac start_time)
               /\ self !! "duration" = Some (VFrac duration)).
    { clear Htimes. unfold init in Hinit. rewrite Hvs in Hinit.
      destruct (make_audio_tracks _ _ _) as [tracks| |]; cbn [obind] in Hinit;
        try discriminate.
      destruct (demux_loop _ _ _) as [st1| |]; cbn [obind] in Hinit;
        try discriminate.
      destruct (take_indices _ _) as [starts1| |]; cbn [obind] in Hinit;
        try discriminate.
      destruct (_fill_hevc_picture_nal_types _ _ _) as [types| |];
        cbn [obind] in Hinit; try discriminate.
      destruct (convert_all_frame_times _) as [tracks'| |];
        cbn [obind] in Hinit; try discriminate.
      injection Hinit as <-. eexists _, _. split; insert_key. }
    destruct Hattrs as (start_time & duration & Hstart & Hdur).
    pose proof (scaled_times_sorted (Stream.time_base vs) (frame_pts st) Htb)
      as Hascending.
    set (times := map _ (merge_sort Z.le (frame_pts st))) in Htimes, Hascending.
    exists times, start_time. split; [exact Htimes|]. split; [exact Hstart|].
    split; [exact Hascending|].
    assert (Hcall : get_next_frame_time self t
                    = match nearest_frame times (t + start_time) with
                      | None => getattr self "duration"
                      | Some x => Ret (VFrac (x - start_time))
                      end).
    { unfold get_next_frame_time, getattr at 1 2.
      rewrite Hstart, Htimes. cbn [obind VFracs].
      rewrite fracs_of_VFracs. reflexivity. }
    split; [exact Hcall|]. rewrite Hcall.
    destruct (nearest_frame _ _); [now eexists|].
    unfold getattr. rewrite Hdur. now eexists.
  - unfold init in Hinit. rewrite Hvs in Hinit.
    destruct (make_audio_tracks _ _ _) as [tracks| |]; cbn [obind] in Hinit;
      try discriminate.
    destruct (demux_loop _ _ _) as [st1| |]; cbn [obind] in Hinit;
      try discriminate.
    destruct (convert_all_frame_times _) as [tracks'| |];
      cbn [obind] in Hinit; try discriminate.
    injection Hinit as <-.
    unfold get_next_frame_time, getattr.
    match goal with
    | |- context [?d !! "start_time"] =>
        assert (Hs : exists q, d !! "start_time" = Some (VFrac q))
          by (eexists; insert_key);
        assert (Hv : d !! "video_frame_times" = None) by other_key
    end.
    destruct Hs as [q Hs]. rewrite Hs. cbn [obind]. now rewrite Hv.
Qed.

Lemma get_next_frame_time_on_index_witness :
  (exists self,
     init "in.m4a" Samples.silent_file = Ret self
     /\ get_next_frame_time self 0 = Raise AttributeError)
  /\ (exists self,
        init "in.mp4" Samples.hevc_file = Ret self
        /\ returns (get_next_frame_time self 0)).
Proof.
  split.
  - assert (H : is_ret (init "in.m4a" Samples.silent_file) = true)
      by (vm_compute; reflexivity).
    destruct (init "in.m4a" Samples.silent_file) as [self| |] eqn:E;
      try discriminate H.
    exists self. split; [reflexivity|].
    exact (get_next_frame_time_on_index "in.m4a" Samples.silent_file self 0 E).
  - assert (H : is_ret (init "in.mp4" Samples.hevc_file) = true)
      by (vm_compute; reflexivity).
    destruct (init "in.mp4" Samples.hevc_file) as [self| |] eqn:E;
      try discriminate H.
    exists self. split; [reflexivity|].
    destruct (get_next_frame_time_on_index "in.mp4" Samples.hevc_file self 0 E)
      as (times & start_time & _ & _ & _ & _ & Hret).
    { cbn. lra. }
    exact Hret.
Defined.

(** *** The subtitle tracks *)

Lemma subtitle_index_get subs : forall i key pos,
  dict_get (subtitle_index i subs) key = Ret pos ->
  exists s, subs !! (pos - i)%nat = Some s /\ Stream.index s = key
            /\ (i <= pos)%nat.
Proof.
  induction subs as [|s0 subs IH]; intros i key pos; cbn; [discriminate|].
  destruct (dict_get (subtitle_index (S i) subs) key) as [pos'| |] eqn:E.
  - intros [= <-]. destruct (IH _ _ _ E) as (s & Hs & Hk & Hle).
    exists s. replace (pos' - i)%nat with (S (pos' - S i)) by lia.
    repeat split; [exact Hs | exact Hk | lia].
  - destruct (Z.eqb_spec (Stream.index s0) key); [|discriminate].
    intros [= <-]. exists s0. rewrite Nat.sub_diag. repeat split; auto.
  - destruct (Z.eqb_spec (Stream.index s0) key); [|discriminate].
    intros [= <-]. exists s0. rewrite Nat.sub_diag. repeat split; auto.
Qed.

Lemma subtitle_of_other_type s p :
  Stream.type (Packet.stream p) <> subtitle -> subtitle_of s p = false.
Proof.
  intros H. unfold subtitle_of.
  destruct (Stream.type (Packet.stream p)); try congruence;
    cbn; now rewrite andb_false_r.
Qed.

Lemma tracks_of_skip subs processed p :
  (forall s, subtitle_of s p = false) ->
  tracks_of subs (processed ++ [p]) = tracks_of subs processed.
Proof.
  intros H. unfold tracks_of. apply map_ext. intros s.
  rewrite List.filter_app. cbn. rewrite H. apply app_nil_r.
Qed.

Lemma tracks_of_file subs processed p pts pos :
  NoDup (map Stream.index subs) ->
  Packet.pts p = Some pts ->
  Stream.type (Packet.stream p) = subtitle ->
  dict_get (subtitle_index 0 subs) (Packet.stream_index p) = Ret pos ->
  forall track, tracks_of subs processed !! pos = Some track ->
  tracks_of subs (processed ++ [p])
  = <[pos := track ++ [p]]> (tracks_of subs processed).
Proof.
  intros Hnodup Hpts Htype Hget track Htrack.
  destruct (subtitle_index_get subs 0 _ _ Hget) as (s & Hs & Hkey & _).
  rewrite Nat.sub_0_r in Hs.
  apply list_eq. intros k. unfold tracks_of in *.
  destruct (Nat.eq_dec k pos) as [->|Hne].
  - rewrite list_lookup_insert_eq
      by (rewrite length_map; eapply lookup_lt_Some; exact Hs).
    rewrite list_lookup_fmap, Hs in *. cbn in *. injection Htrack as <-.
    f_equal. rewrite List.filter_app. f_equal. cbn.
    unfold subtitle_of. rewrite Hpts, Htype, Hkey, Z.eqb_refl. reflexivity.
  - rewrite list_lookup_insert_ne by congruence.
    rewrite !list_lookup_fmap.
    destruct (subs !! k) as [sk|] eqn:Hk; [|reflexivity]. cbn. f_equal.
    rewrite List.filter_app. cbn.
    assert (Hoff : subtitle_of sk p = false).
    { unfold subtitle_of.
      destruct (Z.eqb_spec (Packet.stream_index p) (Stream.index sk)) as [E|];
        [|apply andb_false_r].
      exfalso. apply Hne.
      apply (NoDup_lookup (map Stream.index subs) k pos (Stream.index sk));
        [exact Hnodup | |]; rewrite list_lookup_fmap.
      - now rewrite Hk.
      - rewrite Hs. cbn. congruence. }
    rewrite Hoff. apply app_nil_r.
Qed.

Lemma demux_step_subtitles env subs processed st packet st' :
  NoDup (map Stream.index subs) ->
  stream_index_to_subtitle_track env = subtitle_index 0 subs ->
  demux_step env st packet = Ret st' ->
  subtitle_tracks st = tracks_of subs processed ->
  subtitle_tracks st' = tracks_of subs (processed ++ [packet]).
Proof.
  intros Hnodup Henv. unfold demux_step. intros Hret Hinv.
  destruct (Packet.pts packet) as [pts|] eqn:Hpts.
  2:{ injection Hret as <-. rewrite tracks_of_skip; [exact Hinv|].
      intros s. unfold subtitle_of. now rewrite Hpts. }
  set (st1 := match manual_duration_calc env, Packet.duration packet with
              | true, Some d => _
              | _, _ => st
              end) in Hret.
  assert (Hinv1 : subtitle_tracks st1 = tracks_of subs processed).
  { unfold st1. destruct (manual_duration_calc env), (Packet.duration packet);
      exact Hinv. }
  clearbody st1.
  destruct (Stream.type (Packet.stream packet)) eqn:Htype.
  - rewrite tracks_of_skip
      by (intros s; apply subtitle_of_other_type; congruence).
    destruct (has_video_stream env); [|now injection Hret as <-].
    destruct (IndexFacts.video_packet_returns env st1 packet pts)
      as (st2 & E & _ & Hsub).
    rewrite E in Hret. injection Hret as <-. congruence.
  - rewrite tracks_of_skip
      by (intros s; apply subtitle_of_other_type; congruence).
    unfold audio_packet in Hret.
    destruct (dict_get _ _) as [pos| |]; cbn [obind] in Hret; try discriminate.
    destruct (audio_tracks st1 !! pos) as [track|]; [|discriminate].
    destruct (audio_track_packet track packet pts) as [track'| |];
      cbn [obind] in Hret; try discriminate.
    injection Hret as <-. exact Hinv1.
  - unfold subtitle_packet in Hret. rewrite Henv in Hret.
    destruct (dict_get _ _) as [pos| |] eqn:Hget; cbn [obind] in Hret;
      try discriminate.
    destruct (subtitle_tracks st1 !! pos) as [track|] eqn:Htrack;
      [|discriminate].
    injection Hret as <-. cbn [subtitle_tracks].
    rewrite Hinv1 in *.
    symmetry. exact (tracks_of_file subs processed packet pts pos
                       Hnodup Hpts Htype Hget track Htrack).
  - rewrite tracks_of_skip
      by (intros s; apply subtitle_of_other_type; congruence).
    now injection Hret as <-.
Qed.

Lemma demux_loop_subtitles env subs packets : forall processed st st',
  NoDup (map Stream.index subs) ->
  stream_index_to_subtitle_track env = subtitle_index 0 subs ->
  demux_loop env st packets = Ret st' ->
  subtitle_tracks st = tracks_of subs processed ->
  subtitle_tracks st' = tracks_of subs (processed ++ packets).
Proof.
  induction packets as [|packet rest IH]; intros processed st st' Hnodup Henv;
    cbn.
  - intros [= <-]. now rewrite app_nil_r.
  - destruct (demux_step env st packet) as [st1| |] eqn:E; cbn;
      try discriminate.
    intros Hret Hinv.
    rewrite (IH (processed ++ [packet]) st1 st' Hnodup Henv Hret).
    + now rewrite <- app_assoc.
    + exact (demux_step_subtitles env subs processed st packet st1
               Hnodup Henv E Hinv).
Qed.

Lemma filter_demux_subtitle c selected s :
  In s selected ->
  List.filter (subtitle_of s) (demux c selected)
  = List.filter (subtitle_of s) (Av.packets c).
Proof.
  intros Hs. unfold demux.
  induction (Av.packets c) as [|p l IH]; [reflexivity|]. cbn.
  destruct (subtitle_of s p) eqn:Ep.
  - assert (Hsel : existsb (fun s0 => Stream.index s0 =? Packet.stream_index p)
                     selected = true).
    { apply existsb_exists. exists s. split; [exact Hs|].
      unfold subtitle_of in Ep. apply andb_true_iff in Ep as [_ Ep].
      apply Z.eqb_eq in Ep. apply Z.eqb_eq. congruence. }
    rewrite Hsel. cbn. rewrite Ep. now rewrite IH.
  - destruct (existsb _ selected); [cbn; rewrite Ep|]; exact IH.
Qed.

(** X21.  The subtitle tracks of the index: when the subtitle streams of
    the source have distinct stream indices, the object that
    [MediaContainer.__init__] builds has one subtitle track per subtitle
    stream, in the order of the streams, and the track of a stream holds
    exactly the packets of the file that have a PTS and carry that stream's
    index, in file order.  Packets without a PTS are left out. *)
Theorem subtitle_tracks_hold_their_packets path c self :
  init path c = Ret self ->
  NoDup (map Stream.index (streams_of subtitle c)) ->
  self !! "subtitle_tracks"
  = Some (VList (map VPackets
                   (map (fun s => List.filter (subtitle_of s) (Av.packets c))
                      (streams_of subtitle c)))).
Proof.
  intros Hinit Hnodup. unfold init in Hinit.
  set (subs := streams_of subtitle c) in *.
  set (selected := _ ++ subs) in Hinit.
  destruct (make_audio_tracks _ _ _) as [tracks| |]; cbn [obind] in Hinit;
    try discriminate.
  destruct (demux_loop _ _ _) as [st| |] eqn:Eloop; cbn [obind] in Hinit;
    try discriminate.
  assert (Hsub : subtitle_tracks st
                 = map (fun s => List.filter (subtitle_of s) (Av.packets c)) subs).
  { match type of Eloop with
    | demux_loop ?env ?st0 ?pk = _ =>
        rewrite (demux_loop_subtitles env subs pk [] st0 st Hnodup eq_refl Eloop)
    end.
    - cbn [app]. unfold tracks_of. apply map_ext_in. intros s Hs.
      apply filter_demux_subtitle. unfold selected.
      apply in_or_app. now right.
    - cbn. unfold tracks_of. clear. induction subs as [|s l IH];
        [reflexivity|]. cbn. now rewrite IH. }
  destruct (head (streams_of video c)) as [vs|]; cbn [obind] in Hinit.
  - destruct (take_indices _ _) as [starts| |]; cbn [obind] in Hinit;
      try discriminate.
    destruct (_fill_hevc_picture_nal_types _ _ _) as [types| |];
      cbn [obind] in Hinit; try discriminate.
    destruct (convert_all_frame_times _) as [tracks'| |];
      cbn [obind] in Hinit; try discriminate.
    injection Hinit as <-. rewrite <- Hsub. insert_key.
  - destruct (convert_all_frame_times _) as [tracks'| |];
      cbn [obind] in Hinit; try discriminate.
    injection Hinit as <-. rewrite <- Hsub. insert_key.
Qed.

Lemma subtitle_tracks_hold_their_packets_witness :
  exists self,
    init "in.mkv" Samples.subtitled_file = Ret self
    /\ self !! "subtitle_tracks"
       = Some (VList [VPackets [Samples.subtitle_packet 100;
                                Samples.subtitle_packet 2500]]).
Proof.
  assert (H : is_ret (init "in.mkv" Samples.subtitled_file) = true)
    by (vm_compute; reflexivity).
  destruct (init "in.mkv" Samples.subtitled_file) as [self| |] eqn:E;
    try discriminate H.
  exists self. split; [reflexivity|].
  apply (subtitle_tracks_hold_their_packets "in.mkv" Samples.subtitled_file
           self E).
  repeat constructor. intros H0. inversion H0.
Defined.

End IndexTableFacts.

(** ** video_cutter.py, track_cutters.py: more on the output timestamps *)

Module RepairFacts.
Import MiscData Av VideoCutter TrackCutters.

(** *** The video repair on arbitrary packets *)

Lemma fix_step_increasing out_stream out_time_base last_dts p :
  0 <= last_dts ->
  let r := _fix_packet_timestamps out_stream out_time_base last_dts p in
  Packet.dts (fst r) = Some (snd r)
  /\ last_dts < snd r <= Z.max last_dts 1000000000000 + 1.
Proof.
  intros Hlast. destruct p as [pts dts dur tb st key pay].
  unfold _fix_packet_timestamps. cbn.
  destruct (Z.ltb_spec last_dts 0) as [Hneg|_]; [exfalso; lia|].
  destruct dts as [d|]; cbn; [|split; [reflexivity | lia]].
  destruct (Z.ltb_spec d (-900000)); cbn; [split; [reflexivity | lia]|].
  destruct (Z.ltb_spec 1000000000000 d); cbn; [split; [reflexivity | lia]|].
  destruct (Z.leb_spec d last_dts); destruct pts as [t|]; cbn;
    try match goal with
        | |- context [?a <? ?b] => destruct (Z.ltb_spec a b)
        end; cbn; split; try reflexivity; lia.
Qed.

Lemma fix_step_stamped out_stream out_time_base last_dts p :
  stamped p ->
  let r := _fix_packet_timestamps out_stream out_time_base last_dts p in
  Packet.dts (fst r) = Some (snd r)
  /\ last_dts < snd r <= Z.max last_dts 1000000000000 + 1.
Proof.
  intros (t & d & Hp & Hd & Hlo & Hhi).
  destruct p as [pts dts dur tb st key pay]. cbn in Hp, Hd. subst pts dts.
  unfold _fix_packet_timestamps. cbn.
  destruct (Z.ltb_spec d (-900000)); [lia|].
  destruct (Z.ltb_spec 1000000000000 d); [lia|].
  cbn.
  destruct (Z.leb_spec d last_dts);
    match goal with
    | |- context [?a <? ?b] => destruct (Z.ltb_spec a b)
    end; cbn; split; try reflexivity; lia.
Qed.

(** What a run of the repair assigns stays in range when each step does
    what the two lemmas above say. *)
Lemma fix_packets_in_range out_stream out_time_base
    (ok : Z -> Packet.t -> Prop) :
  (forall last p, ok last p ->
     let r := _fix_packet_timestamps out_stream out_time_base last p in
     Packet.dts (fst r) = Some (snd r)
     /\ last < snd r <= Z.max last 1000000000000 + 1) ->
  (forall last last' p, ok last p -> last <= last' -> ok last' p) ->
  forall packets last_dts,
  Forall (ok last_dts) packets ->
  let r := fix_packets out_stream out_time_base last_dts packets in
  let top := Z.max last_dts 1000000000000 + Z.of_nat (length packets) in
  last_dts <= snd r <= top
  /\ Forall (fun p => last_dts < dts_of p <= top) (fst r).
Proof.
  intros Hstep Hmono packets.
  induction packets as [|p packets IH]; intros last_dts Hall;
    cbn [fix_packets fst snd length].
  - split; [lia | constructor].
  - inversion Hall as [|? ? Hp Hrest]; subst.
    destruct (Hstep last_dts p Hp) as [Hd [Hlt Hle]].
    set (r := _fix_packet_timestamps out_stream out_time_base last_dts p) in *.
    destruct (IH (snd r)) as [[Hlo Hhi] Hout].
    { eapply Forall_impl; [exact Hrest|].
      intros q Hq. apply (Hmono last_dts); [exact Hq | lia]. }
    cbn zeta in *. split; [lia|].
    constructor.
    + unfold dts_of. rewrite Hd. lia.
    + eapply Forall_impl; [exact Hout|]. intros q Hq. cbn in Hq. lia.
Qed.

(** X17.  Once [last_dts] is not negative, and as long as the stamps
    assigned fit the 64-bit fields of a packet (there is room above
    [last_dts] and above 10^12 for one step per packet),
    [_fix_packet_timestamps] gives every packet a DTS above the one emitted
    before, whatever the packet carries: a DTS that is missing, garbage, or
    too low is replaced by [last_dts + 1].  From the first packet emitted
    with a non-negative DTS on, the DTS of a video stream strictly
    increases, [last_dts] never goes down, and every DTS assigned fits. *)
Theorem video_dts_increases_once_nonnegative out_stream out_time_base packets :
  forall last_dts,
  0 <= last_dts ->
  Z.max last_dts 1000000000000 + Z.of_nat (length packets) < 2 ^ 63 ->
  let r := fix_packets out_stream out_time_base last_dts packets in
  increasing_from last_dts (fst r)
  /\ last_dts <= snd r
  /\ int64 (snd r)
  /\ Forall (fun p => int64 (dts_of p)) (fst r).
Proof.
  intros last_dts Hlast Hroom r.
  assert (Hinc : forall l last_dts, 0 <= last_dts ->
            increasing_from last_dts
              (fst (fix_packets out_stream out_time_base last_dts l))).
  { clear. intros l. induction l as [|p l IH]; intros last_dts Hlast; cbn.
    - exact I.
    - destruct (fix_step_increasing out_stream out_time_base last_dts p Hlast)
        as [Hd [Hlt _]].
      eexists. split; [exact Hd|]. split; [exact Hlt|].
      apply IH. lia. }
  destruct (fix_packets_in_range out_stream out_time_base
              (fun last _ => 0 <= last)
              (fun last p H => fix_step_increasing out_stream out_time_base
                                 last p H)
              ltac:(cbn; intros; lia) packets last_dts)
    as [[Hlo Hhi] Hout].
  { apply Forall_forall. intros q _. exact Hlast. }
  cbn zeta in *. fold r in Hlo, Hhi, Hout.
  split; [apply Hinc; exact Hlast|]. split; [exact Hlo|].
  split; [range_lia|].
  eapply Forall_impl; [exact Hout|]. intros q Hq. cbn in Hq. range_lia.
Qed.

Lemma video_dts_increases_once_nonnegative_witness :
  let r := fix_packets Samples.hevc_stream (1 # 90000) 10
             [ Samples.video_packet (Some 5) (Some 2000000000000);
               Samples.video_packet None None;
               Samples.video_packet (Some 7) (Some 3) ] in
  increasing_from 10 (fst r)
  /\ 10 <= snd r
  /\ int64 (snd r)
  /\ Forall (fun p => int64 (dts_of p)) (fst r).
Proof.
  apply (video_dts_increases_once_nonnegative Samples.hevc_stream (1 # 90000)
           [ Samples.video_packet (Some 5) (Some 2000000000000);
             Samples.video_packet None None;
             Samples.video_packet (Some 7) (Some 3) ] 10).
  - lia.
  - cbn [length]. range_lia.
Defined.

(** *** The video repair on packets that carry both stamps *)

(** X30.  On packets that each carry a PTS and a DTS between -900000 and
    10^12, from any [last_dts], and as long as the stamps assigned fit the
    64-bit fields of a packet (there is room above [last_dts] and above
    10^12 for one step per packet), [_fix_packet_timestamps] hands out
    packets whose DTS strictly increase from [last_dts] on, whose PTS is
    never below their DTS, and whose DTS fit. *)
Theorem video_repair_on_stamped_packets out_stream out_time_base packets :
  forall last_dts,
  Forall stamped packets ->
  int64 last_dts ->
  Z.max last_dts 1000000000000 + Z.of_nat (length packets) < 2 ^ 63 ->
  let r := fix_packets out_stream out_time_base last_dts packets in
  increasing_from last_dts (fst r)
  /\ forallb pts_ge_dts (fst r) = true
  /\ int64 (snd r)
  /\ Forall (fun p => int64 (dts_of p)) (fst r).
Proof.
  intros last_dts Hall Hfit Hroom r.
  destruct (TimestampFacts.fix_packets_stamped out_stream out_time_base
              packets last_dts Hall) as [Hinc Hge].
  destruct (fix_packets_in_range out_stream out_time_base
              (fun _ p => stamped p)
              (fun last p H => fix_step_stamped out_stream out_time_base
                                 last p H)
              ltac:(intros; assumption) packets last_dts Hall)
    as [[Hlo Hhi] Hout].
  cbn zeta in *. fold r in Hlo, Hhi, Hout.
  split; [exact Hinc|]. split; [exact Hge|]. split; [range_lia|].
  eapply Forall_impl; [exact Hout|]. intros q Hq. cbn in Hq. range_lia.
Qed.

Lemma video_repair_on_stamped_packets_witness :
  let r := fix_packets Samples.hevc_stream (1 # 90000) initial_last_dts
             [ Samples.video_packet (Some 10) (Some 10);
               Samples.video_packet (Some 5) (Some 4) ] in
  increasing_from initial_last_dts (fst r)
  /\ forallb pts_ge_dts (fst r) = true
  /\ int64 (snd r)
  /\ Forall (fun p => int64 (dts_of p)) (fst r).
Proof.
  apply (video_repair_on_stamped_packets Samples.hevc_stream (1 # 90000)
           [ Samples.video_packet (Some 10) (Some 10);
             Samples.video_packet (Some 5) (Some 4) ] initial_last_dts).
  - repeat constructor; eexists _, _; repeat split; try reflexivity; lia.
  - unfold initial_last_dts. range_lia.
  - unfold initial_last_dts. cbn [length]. range_lia.
Defined.

(** *** The remux retiming *)





(** *** The audio loop *)

Lemma passthru_stamps_spec out_stream in_tb pos cut_segment in_packets :
  forall prev_pts prev_dts hi,
  prev_pts < hi -> prev_dts < hi ->
  Forall (fun p => forall t d,
            Packet.pts p = Some t -> Packet.dts p = Some d ->
            passthru_shifted in_tb pos cut_segment t < hi
            /\ passthru_shifted in_tb pos cut_segment d < hi) in_packets ->
  let r := passthru_packets out_stream in_tb pos cut_segment
             prev_pts prev_dts in_packets in
  let top := hi + Z.of_nat (length in_packets) in
  stamps_increasing_from prev_pts prev_dts (fst r)
  /\ length (fst r) = length (List.filter has_stamps in_packets)
  /\ prev_pts <= fst (snd r) < top
  /\ prev_dts <= snd (snd r) < top
  /\ Forall (fun p => prev_pts < pts_of p < top /\ prev_dts < dts_of p < top)
       (fst r).
Proof.
  induction in_packets as [|p rest IH]; intros prev_pts prev_dts hi Hp Hd Hall;
    cbn zeta.
  - cbn. repeat split; try lia. constructor.
  - inversion Hall as [|? ? Hhead Hrest]; subst.
    cbn [passthru_packets List.filter length]. unfold has_stamps at 1.
    rewrite Nat2Z.inj_succ.
    assert (Hskip :
      let r := passthru_packets out_stream in_tb pos cut_segment
                 prev_pts prev_dts rest in
      let top := hi + Z.succ (Z.of_nat (length rest)) in
      stamps_increasing_from prev_pts prev_dts (fst r)
      /\ length (fst r) = length (List.filter has_stamps rest)
      /\ prev_pts <= fst (snd r) < top
      /\ prev_dts <= snd (snd r) < top
      /\ Forall (fun p => prev_pts < pts_of p < top
                          /\ prev_dts < dts_of p < top) (fst r)).
    { destruct (IH prev_pts prev_dts hi Hp Hd Hrest)
        as (H1 & H2 & H3 & H4 & H5).
      cbn zeta in *. repeat split; try assumption; try lia.
      eapply Forall_impl; [exact H5|]. intros q Hq. cbn in Hq. lia. }
    destruct (Packet.pts p) as [p_pts|] eqn:Ept; [|exact Hskip].
    destruct (Packet.dts p) as [p_dts|] eqn:Edt; [|exact Hskip].
    clear Hskip. destruct (Hhead p_pts p_dts eq_refl eq_refl) as [Ht Hdt].
    unfold passthru_shifted in Ht, Hdt.
    set (shift := ((pos - MiscData.start_time cut_segment) / in_tb)%Q) in *.
    set (pts := if py_int (inject_Z p_pts + shift) <=? prev_pts
                then prev_pts + 1 else py_int (inject_Z p_pts + shift)).
    set (dts := if py_int (inject_Z p_dts + shift) <=? prev_dts
                then prev_dts + 1 else py_int (inject_Z p_dts + shift)).
    assert (Hpts : prev_pts < pts < hi + 1).
    { unfold pts.
      destruct (Z.leb_spec (py_int (inject_Z p_pts + shift)) prev_pts); lia. }
    assert (Hdts : prev_dts < dts < hi + 1).
    { unfold dts.
      destruct (Z.leb_spec (py_int (inject_Z p_dts + shift)) prev_dts); lia. }
    destruct (IH pts dts (hi + 1)) as (Hinc & Hlen & Hpb & Hdb & Hout);
      [lia | lia | |].
    { eapply Forall_impl; [exact Hrest|]. intros q Hq t d Et Ed.
      destruct (Hq t d Et Ed). lia. }
    cbn zeta in *. cbn [fst snd length].
    split; [|split; [|split; [|split]]].
    + exists pts, dts. repeat split; try lia. exact Hinc.
    + now rewrite Hlen.
    + lia.
    + lia.
    + constructor; [cbn; lia|].
      eapply Forall_impl; [exact Hout|]. intros q Hq. cbn in Hq. lia.
Qed.

(** X19.  The loop of [PassthruAudioCutter.segment] (lines 64-80), run on
    the packets selected for a segment, for a non-zero time base and as
    long as the stamps assigned fit the 64-bit fields of a packet (the
    shifted stamps fit and lie below a ceiling [hi] that leaves room for
    one step per packet).  Whatever the selected packets carry, the loop
    hands out exactly those that have both a PTS and a DTS, each with a
    PTS and a DTS above those of the packet handed out before (and above
    [prev_pts] and [prev_dts]); the stamps handed out fit; [prev_pts] and
    [prev_dts] are left no lower than they were.  When [prev_dts] is no
    later than [prev_pts] and no source packet has its DTS after its PTS,
    every packet handed out has PTS >= DTS. *)
Theorem passthru_stamps_increase out_stream in_tb pos cut_segment in_packets :
  forall prev_pts prev_dts hi,
  ~ (in_tb == 0)%Q ->
  int64 prev_pts -> int64 prev_dts ->
  prev_pts < hi -> prev_dts < hi ->
  hi + Z.of_nat (length in_packets) <= 2 ^ 63 ->
  Forall (fun p => forall t d,
            Packet.pts p = Some t -> Packet.dts p = Some d ->
            - 2 ^ 63 <= passthru_shifted in_tb pos cut_segment t < hi
            /\ - 2 ^ 63 <= passthru_shifted in_tb pos cut_segment d < hi)
    in_packets ->
  let r := passthru_packets out_stream in_tb pos cut_segment
             prev_pts prev_dts in_packets in
  stamps_increasing_from prev_pts prev_dts (fst r)
  /\ length (fst r) = length (List.filter has_stamps in_packets)
  /\ prev_pts <= fst (snd r) /\ prev_dts <= snd (snd r)
  /\ Forall (fun p => int64 (pts_of p) /\ int64 (dts_of p)) (fst r)
  /\ (prev_dts <= prev_pts ->
      Forall (fun p => forall t d, Packet.pts p = Some t ->
                                   Packet.dts p = Some d -> d <= t) in_packets ->
      forallb pts_ge_dts (fst r) = true).
Proof.
  intros prev_pts prev_dts hi _ Hfp Hfd Hp Hd Hroom Hall r.
  destruct (passthru_stamps_spec out_stream in_tb pos cut_segment in_packets
              prev_pts prev_dts hi Hp Hd)
    as (H1 & H2 & H3 & H4 & H5).
  { eapply Forall_impl; [exact Hall|]. intros q Hq t d Et Ed.
    destruct (Hq t d Et Ed). lia. }
  cbn zeta in *. fold r in H1, H2, H3, H4, H5.
  split; [exact H1|]. split; [exact H2|]. split; [lia|]. split; [lia|].
  split.
  - eapply Forall_impl; [exact H5|]. intros q Hq. cbn in Hq. range_lia.
  - intros Hprev Hord.
    exact (TimestampFacts.passthru_keeps_pts_ge_dts out_stream in_tb pos
             cut_segment in_packets prev_pts prev_dts Hprev Hord).
Qed.

Lemma passthru_stamps_increase_witness :
  let r := passthru_packets Samples.aac_stream (1 # 48000) 0
             (CutSegment3 false 0 1) initial_prev initial_prev
             [Samples.audio_packet 0; Samples.audio_packet 1024] in
  stamps_increasing_from initial_prev initial_prev (fst r)
  /\ length (fst r) = 2%nat
  /\ Forall (fun p => int64 (pts_of p) /\ int64 (dts_of p)) (fst r)
  /\ forallb pts_ge_dts (fst r) = true.
Proof.
  destruct (passthru_stamps_increase Samples.aac_stream (1 # 48000)
              0 (CutSegment3 false 0 1)
              [Samples.audio_packet 0; Samples.audio_packet 1024]
              initial_prev initial_prev 2000)
    as (H1 & H2 & _ & _ & H5 & H6).
  - intros H. discriminate H.
  - unfold initial_prev. range_lia.
  - unfold initial_prev. range_lia.
  - unfold initial_prev. lia.
  - unfold initial_prev. lia.
  - cbn [length]. range_lia.
  - apply List.Forall_cons; [|apply List.Forall_cons; [|apply List.Forall_nil]];
      intros t d [= <-] [= <-]; vm_compute; repeat split; congruence.
  - cbn zeta. split; [exact H1|]. split; [exact H2|]. split; [exact H5|].
    apply H6; [unfold initial_prev; lia|].
    repeat constructor; intros t d [= <-] [= <-]; lia.
Defined.

(** *** The subtitle cutter *)

Lemma select_subtitles_spec start_pts end_pts rest : forall i,
  Forall has_pts rest ->
  exists picked i',
    select_subtitles start_pts end_pts rest i = Ret (picked, i')
    /\ (i <= i' <= i + length rest)%nat
    /\ StronglySorted lt picked
    /\ Forall (fun k => (i <= k < i')%nat) picked.
Proof.
  induction rest as [|p rest IH]; intros i Hall; cbn.
  - exists [], i. repeat split; try constructor; lia.
  - inversion Hall as [|? ? Hp Hrest]; subst.
    destruct (Packet.pts p) as [t|] eqn:Ept; [|now destruct Hp].
    destruct (IH (S i) Hrest) as (picked & i' & E & Hi & Hsorted & Hbound).
    destruct (t <? start_pts).
    { exists picked, i'. split; [exact E|]. split; [lia|].
      split; [exact Hsorted|].
      eapply Forall_impl; [exact Hbound|]. intros k Hk. cbn in Hk. lia. }
    destruct ((start_pts <=? t) && (t <? end_pts)).
    + rewrite E. cbn. exists (i :: picked), i'. split; [reflexivity|].
      split; [lia|]. split.
      * constructor; [exact Hsorted|].
        eapply Forall_impl; [exact Hbound|]. intros k Hk. cbn in Hk. lia.
      * constructor; [lia|].
        eapply Forall_impl; [exact Hbound|]. intros k Hk. cbn in Hk. lia.
    + exists [], i. repeat split; try constructor; lia.
Qed.

Lemma retime_subtitles_spec out_stream in_tb start pos picked :
  forall packets prev,
  Forall has_pts packets ->
  StronglySorted lt picked ->
  Forall (fun k => (k < length packets)%nat) picked ->
  exists out packets' last,
    retime_subtitles out_stream in_tb start pos packets prev picked
    = Ret (out, packets', last)
    /\ length packets' = length packets
    /\ Forall has_pts packets'
    /\ Forall2 (fun k o => packets' !! k = Some o) picked out
    /\ (forall j, Forall (fun k => (j < k)%nat) picked ->
          packets' !! j = packets !! j).
Proof.
  induction picked as [|i picked IH]; intros packets prev Hall Hsorted Hbound.
  - exists [], packets, prev. repeat split; [exact Hall | constructor].
  - apply StronglySorted_inv in Hsorted as [Hsorted Hlt].
    inversion Hbound as [|? ? Hi Hbound']; subst.
    cbn [retime_subtitles].
    destruct (packets !! i) as [packet|] eqn:Ei;
      [|apply lookup_ge_None in Ei; lia].
    assert (Hp : has_pts packet).
    { rewrite Forall_forall in Hall. apply Hall.
      eapply list_elem_of_lookup_2. exact Ei. }
    destruct (Packet.pts packet) as [t|] eqn:Ept; [|now destruct Hp].
    set (pts := if py_int (inject_Z (t - start) + pos / in_tb) <? prev
                then prev + 1
                else py_int (inject_Z (t - start) + pos / in_tb)).
    set (np := Packet.mk (Some pts) (Some pts) (Packet.duration packet)
                 (Packet.time_base packet) out_stream
                 (Packet.is_keyframe packet) (Packet.payload packet)).
    destruct (IH (<[i := np]> packets) pts)
      as (out & packets' & last & E & Hlen & Hall' & Hout & Hsame).
    { apply Forall_insert; [exact Hall | discriminate]. }
    { exact Hsorted. }
    { eapply Forall_impl; [exact Hbound'|]. intros k Hk. cbn in Hk.
      now rewrite length_insert. }
    rewrite E. cbn [obind fst snd].
    exists (np :: out), packets', last. split; [reflexivity|].
    split; [now rewrite Hlen, length_insert|].
    split; [exact Hall'|]. split.
    + constructor; [|exact Hout].
      rewrite (Hsame i Hlt). now apply list_lookup_insert_eq.
    + intros j Hj. inversion Hj as [|? ? Hji Hj']; subst.
      rewrite (Hsame j Hj'). apply list_lookup_insert_ne. lia.
Qed.

Lemma nondecreasing_lower out : forall last,
  nondecreasing_from last out -> Forall (fun o => last <= dts_of o) out.
Proof.
  induction out as [|o out IH]; intros last H; [constructor|].
  destruct H as (d & Hpts & Hdts & Hle & Hrest).
  constructor; [unfold dts_of; rewrite Hdts; exact Hle|].
  eapply Forall_impl; [exact (IH d Hrest)|]. intros q Hq. cbn in Hq. lia.
Qed.

Lemma sorted_positions_length picked : forall lo hi,
  StronglySorted lt picked ->
  Forall (fun k => (lo <= k < hi)%nat) picked ->
  (length picked <= hi - lo)%nat.
Proof.
  induction picked as [|k picked IH]; intros lo hi Hsorted Hbound; cbn; [lia|].
  apply StronglySorted_inv in Hsorted as [Hsorted Hlt].
  inversion Hbound as [|? ? Hk Hbound']; subst.
  assert (H : (length picked <= hi - S k)%nat).
  { apply IH; [exact Hsorted|].
    rewrite Forall_forall in Hlt. rewrite Forall_forall in Hbound'.
    apply Forall_forall. intros j Hj.
    specialize (Hlt j Hj). specialize (Hbound' j Hj). lia. }
  lia.
Qed.

Lemma retime_subtitles_bound out_stream in_tb start pos picked :
  forall l prev out l' last hi,
  retime_subtitles out_stream in_tb start pos l prev picked
  = Ret (out, l', last) ->
  StronglySorted lt picked ->
  prev < hi ->
  Forall (fun k => forall p t,
            l !! k = Some p -> Packet.pts p = Some t ->
            py_int (inject_Z (t - start) + pos / in_tb) < hi) picked ->
  last < hi + Z.of_nat (length picked)
  /\ Forall (fun o => dts_of o < hi + Z.of_nat (length picked)) out.
Proof.
  induction picked as [|i picked IH]; intros l prev out l' last hi;
    cbn [retime_subtitles length].
  - intros [= <- _ <-] _ Hprev _. split; [lia | constructor].
  - intros Hret Hsorted Hprev Hall.
    apply StronglySorted_inv in Hsorted as [Hsorted Hlt].
    inversion Hall as [|? ? Hi Hall']; subst.
    destruct (l !! i) as [packet|] eqn:Ei; [|discriminate].
    destruct (Packet.pts packet) as [t|] eqn:Ept; [|discriminate].
    specialize (Hi packet t eq_refl Ept).
    set (raw := py_int (inject_Z (t - start) + pos / in_tb)) in *.
    set (pts := if raw <? prev then prev + 1 else raw) in *.
    assert (Hpts : pts < hi + 1).
    { unfold pts. destruct (Z.ltb_spec raw prev); lia. }
    match type of Hret with
    | obind (retime_subtitles _ _ _ _ ?l1 _ _) _ = _ =>
        destruct (retime_subtitles out_stream in_tb start pos l1 pts picked)
          as [[[out1 l1'] last1]| |] eqn:E
    end; cbn [obind fst snd] in Hret; try discriminate.
    injection Hret as <- _ <-.
    destruct (IH _ _ _ _ _ (hi + 1) E Hsorted Hpts) as [Hlast Hout].
    { rewrite Forall_forall in Hlt. rewrite Forall_forall in Hall'.
      apply Forall_forall. intros k Hk p t' Elook Et.
      specialize (Hlt k Hk).
      rewrite list_lookup_insert_ne in Elook by lia.
      specialize (Hall' k Hk p t' Elook Et). lia. }
    rewrite Nat2Z.inj_succ. split; [lia|].
    constructor; [cbn; lia|].
    eapply Forall_impl; [exact Hout|]. intros q Hq. cbn in Hq. lia.
Qed.

(** X20.  [SubtitleCutter.segment] on a cutter whose stored packets all
    have a PTS (the index stores no other).  With a zero time base the
    call raises ZeroDivisionError.  With a non-zero time base, and as long
    as the stamps assigned fit the 64-bit fields of a packet (the shifted
    stamps fit and lie below a ceiling [hi] that leaves room for one step
    per packet), the call returns, from any cursor; the cursor does not
    move back; the packets handed out have DTS equal to PTS, not below
    [prev_pts] and not going down, and their stamps fit.  The call rewrites
    the track in place: the track keeps its length, every packet of it
    still has a PTS, and each packet handed out is the packet now stored
    at its position in the track, with its new timestamps. *)
Theorem subtitle_segment_rewrites_track out_stream in_tb packets st
    cut_segment hi :
  ((in_tb == 0)%Q ->
   subtitle_segment out_stream in_tb packets st cut_segment
   = Raise ZeroDivisionError)
  /\ (~ (in_tb == 0)%Q ->
      Forall has_pts packets ->
      int64 (prev_pts st) -> prev_pts st < hi ->
      hi + Z.of_nat (length packets) <= 2 ^ 63 ->
      Forall (fun p => forall t,
                Packet.pts p = Some t ->
                - 2 ^ 63
                <= subtitle_shifted in_tb (segment_start_in_output st)
                     cut_segment t < hi) packets ->
      exists out packets' st',
        subtitle_segment out_stream in_tb packets st cut_segment
        = Ret (out, packets', st')
        /\ length packets' = length packets
        /\ Forall has_pts packets'
        /\ (current_packet_i st <= current_packet_i st')%nat
        /\ nondecreasing_from (prev_pts st) out
        /\ Forall (fun o => int64 (dts_of o)) out
        /\ Forall (fun o => o ∈ packets') out).
Proof.
  split.
  - intros Hzero. unfold subtitle_segment.
    apply Qeq_bool_iff in Hzero. now rewrite Hzero.
  - intros Hnz Hall Hfit Hprev Hroom Hshift. unfold subtitle_segment.
    destruct (Qeq_bool in_tb 0) eqn:Ez;
      [apply Qeq_bool_iff in Ez; contradiction|].
    set (start_pts := py_int (MiscData.start_time cut_segment / in_tb)).
    set (end_pts := py_int (MiscData.end_time cut_segment / in_tb)).
    destruct (select_subtitles_spec start_pts end_pts
                (drop (current_packet_i st) packets) (current_packet_i st))
      as (picked & i' & Esel & Hi & Hsorted & Hbound).
    { now apply Forall_drop. }
    rewrite Esel. cbn [obind fst snd].
    rewrite length_drop in Hi.
    assert (Hbound' : Forall (fun k => (k < length packets)%nat) picked).
    { eapply Forall_impl; [exact Hbound|]. intros k Hk. cbn in Hk. lia. }
    destruct (retime_subtitles_spec out_stream in_tb start_pts
                (segment_start_in_output st) picked packets (prev_pts st)
                Hall Hsorted Hbound')
      as (out & packets' & last & Eret & Hlen & Hall' & Hout & _).
    rewrite Eret. cbn [obind fst snd].
    pose proof (TimestampFacts.retime_subtitles_nondecreasing
                  _ _ _ _ _ _ _ _ _ _ Eret) as Hnondec.
    destruct (retime_subtitles_bound out_stream in_tb start_pts
                (segment_start_in_output st) picked packets (prev_pts st)
                out packets' last hi Eret Hsorted Hprev) as [_ Hupper].
    { rewrite Forall_forall in Hshift.
      apply Forall_forall. intros k _ p t Elook Et.
      apply (Hshift p (list_elem_of_lookup_2 _ _ _ Elook) t Et). }
    pose proof (sorted_positions_length picked 0 (length packets) Hsorted
                  ltac:(eapply Forall_impl; [exact Hbound'|];
                        intros k Hk; cbn in Hk; lia)) as Hcount.
    eexists _, _, _. split; [reflexivity|].
    split; [exact Hlen|]. split; [exact Hall'|]. split; [cbn; lia|].
    split; [exact Hnondec|]. split.
    + pose proof (nondecreasing_lower out (prev_pts st) Hnondec) as Hlower.
      rewrite Forall_forall in Hlower. rewrite Forall_forall in Hupper.
      apply Forall_forall. intros o Ho.
      specialize (Hlower o Ho). specialize (Hupper o Ho). range_lia.
    + clear -Hout. induction Hout as [|k o picked out Hk _ IH]; constructor;
        [eapply list_elem_of_lookup_2; exact Hk | exact IH].
Qed.

Lemma subtitle_segment_rewrites_track_witness :
  subtitle_segment Samples.srt_stream 0
    [Samples.subtitle_packet 100; Samples.subtitle_packet 2500]
    (mkSub 0 0 initial_prev) (CutSegment3 false 2 4)
  = Raise ZeroDivisionError
  /\ exists out packets' st',
       subtitle_segment Samples.srt_stream (1 # 1000)
         [Samples.subtitle_packet 100; Samples.subtitle_packet 2500]
         (mkSub 0 0 initial_prev) (CutSegment3 false 2 4)
       = Ret (out, packets', st')
       /\ length packets' = 2%nat
       /\ Forall has_pts packets'
       /\ (0 <= current_packet_i st')%nat
       /\ nondecreasing_from initial_prev out
       /\ Forall (fun o => int64 (dts_of o)) out
       /\ Forall (fun o => o ∈ packets') out.
Proof.
  split.
  - apply (subtitle_segment_rewrites_track Samples.srt_stream 0
             [Samples.subtitle_packet 100; Samples.subtitle_packet 2500]
             (mkSub 0 0 initial_prev) (CutSegment3 false 2 4) 0).
    reflexivity.
  - apply (subtitle_segment_rewrites_track Samples.srt_stream (1 # 1000)
             [Samples.subtitle_packet 100; Samples.subtitle_packet 2500]
             (mkSub 0 0 initial_prev) (CutSegment3 false 2 4) 3000).
    + intros H. discriminate H.
    + repeat constructor; discriminate.
    + cbn. unfold initial_prev. range_lia.
    + cbn. unfold initial_prev. lia.
    + cbn [length]. range_lia.
    + apply List.Forall_cons; [|apply List.Forall_cons; [|apply List.Forall_nil]];
        intros t [= <-]; vm_compute; repeat split; congruence.
Defined.

End RepairFacts.

(** ** smart_cut.py: more on the driver *)

Module ExportFacts.
Import MiscData MediaUtils Av Driver.

Section Generators.
Variable G : Type.
Variable g_segment : CutSegment -> G -> outcome (list Packet.t * G).
Variable g_finish : G -> outcome (list Packet.t).
Variable make_generators : string -> outcome (list G).
Variable segment_file_name : string -> nat -> nat -> string.

(** *** An export that nobody can cancel *)

Lemma continues_quietly_refl w : continues_quietly ∅ w w.
Proof.
  repeat split; [now rewrite union_empty_l_L|].
  exists []. split; [now rewrite app_nil_r | constructor].
Qed.

Lemma continues_quietly_trans a b w1 w2 w3 :
  continues_quietly a w1 w2 -> continues_quietly b w2 w3 ->
  continues_quietly (a ∪ b) w1 w3.
Proof.
  intros (Hp1 & Hf1 & evs1 & Hl1 & He1) (Hp2 & Hf2 & evs2 & Hl2 & He2).
  repeat split; [congruence | |].
  { rewrite Hf2, Hf1, (comm_L (∪) a b). now rewrite assoc_L by apply _. }
  exists (evs1 ++ evs2). split; [now rewrite Hl2, Hl1, app_assoc|].
  apply Forall_app. now split.
Qed.

Lemma mux_quiet file packets w : continues_quietly ∅ w (mux file packets w).
Proof.
  repeat split; [cbn; now rewrite union_empty_l_L|].
  eexists. split; [reflexivity|].
  apply Forall_forall. intros e He.
  apply list_elem_of_fmap in He as (p & -> & _). reflexivity.
Qed.

Lemma segment_loop_quiet file file_end segs : forall generators done w r,
  segment_loop G g_segment None file file_end segs generators done w = Ret r ->
  continues_quietly ∅ w (snd r).
Proof.
  induction segs as [|s segs IH]; intros generators done w r; cbn.
  - intros [= <-]. apply continues_quietly_refl.
  - destruct (Qle_bool file_end (MiscData.start_time s)).
    { intros [= <-]. apply continues_quietly_refl. }
    destruct (negb _); [discriminate|].
    destruct (run_segment G g_segment s generators) as [r1| |]; cbn [obind];
      try discriminate.
    intros Hret. apply IH in Hret.
    pose proof (continues_quietly_trans _ _ _ _ _
                  (mux_quiet file (fst r1) w) Hret) as H.
    now rewrite union_empty_l_L in H.
Qed.

Lemma finish_file_quiet file generators w w' :
  finish_file G g_finish None file generators w = Ret w' ->
  continues_quietly ∅ w w'.
Proof.
  unfold finish_file.
  destruct (finish_all G g_finish generators) as [packets| |]; cbn [obind];
    try discriminate.
  cbn [poll fst snd]. intros [= <-].
  pose proof (mux_quiet file packets w) as Hm.
  assert (Hclose : continues_quietly ∅ (mux file packets w)
                     (emit [EvClose file] (mux file packets w))).
  { repeat split; [cbn; now rewrite union_empty_l_L|].
    exists [EvClose file]. split; [reflexivity | repeat constructor]. }
  pose proof (continues_quietly_trans _ _ _ _ _ Hm Hclose) as H0.
  rewrite union_empty_l_L in H0. exact H0.
Qed.

(** X23.  Without a cancel object the export never reads a flag and never
    removes a file: a run of the loop over the output files that returns
    has only opened files, muxed packets and closed files, and every
    output file it was given exists afterwards. *)
Theorem export_without_cancel_object cut_segments output_files :
  forall done w w',
  file_loop G g_segment g_finish make_generators None cut_segments
    output_files done w = Ret w' ->
  continues_quietly (list_to_set (map fst output_files)) w w'.
Proof.
  induction output_files as [|[file [s file_end]] rest IH]; intros done w w';
    cbn [file_loop poll fst snd].
  - intros [= <-]. apply continues_quietly_refl.
  - destruct (make_generators file) as [generators| |]; cbn [obind];
      try discriminate.
    destruct (segment_loop _ _ _ _ _ _ _ _ _) as [r| |] eqn:Eseg;
      cbn [obind]; try discriminate.
    destruct (finish_file _ _ _ _ _ _) as [w1| |] eqn:Efin;
      cbn [obind]; try discriminate.
    intros Hret. apply IH in Hret. apply segment_loop_quiet in Eseg.
    apply finish_file_quiet in Efin.
    assert (Hopen : continues_quietly {[file]} w (open_output file w)).
    { repeat split. exists [EvOpen file]. split; [reflexivity|].
      repeat constructor. }
    pose proof (continues_quietly_trans _ _ _ _ _
                  (continues_quietly_trans _ _ _ _ _
                     (continues_quietly_trans _ _ _ _ _ Hopen Eseg) Efin)
                  Hret) as H.
    rewrite !union_empty_r_L in H. exact H.
Qed.

(** *** Nothing to keep *)

(** X24.  With an empty list of keep intervals, [smart_cut] outside
    segment mode raises IndexError on every source: either the planner
    fails on an audio-only source without packets, or the driver reads the
    last of no adjusted intervals.  In segment mode, on a video source, it
    returns None and touches nothing: no file is opened. *)
Theorem smart_cut_without_intervals mc out_path mode cancel_object w :
  smart_cut G g_segment g_finish make_generators segment_file_name
    mc [] out_path mode false cancel_object w = Raise IndexError
  /\ (Planner.has_video_stream mc = true ->
      smart_cut G g_segment g_finish make_generators segment_file_name
        mc [] out_path mode true cancel_object w = Ret (None, w)).
Proof.
  unfold smart_cut, plan, Planner.make_adjusted_segment_times,
    Planner.make_cut_segments. cbn [map].
  split.
  - destruct (negb (Planner.has_video_stream mc)); [|reflexivity].
    unfold Planner.make_cut_segments_audio.
    destruct (Planner.audio_tracks mc) as [|[|t ts] rest];
      [reflexivity | reflexivity |].
    change (py_getitem ((t :: ts) :: rest) 0) with (Ret (A:=list Q) (t :: ts)).
    cbn [obind].
    destruct (PlanShapeFacts.py_getitem_nonempty t ts) as [[a ->] [b ->]].
    reflexivity.
  - intros ->. reflexivity.
Qed.

(** *** One output file *)

Lemma run_segment_returns (Inv : G -> Prop) s : forall generators,
  Forall Inv generators ->
  (forall g, Inv g ->
     exists packets g',
       g_segment s g = Ret (packets, g')
       /\ Inv g'
       /\ existsb bad_dts (map drop_garbage_dts packets) = false) ->
  exists packets generators',
    run_segment G g_segment s generators = Ret (packets, generators')
    /\ Forall Inv generators'.
Proof.
  intros generators Hall Hsound.
  induction Hall as [|g generators Hg _ IH]; cbn [run_segment].
  - eexists _, _. split; [reflexivity | constructor].
  - destruct (Hsound g Hg) as (packets & g' & -> & Hg' & Hgood).
    cbn [obind fst snd]. unfold checked. rewrite Hgood. cbn [obind].
    destruct IH as (packets' & generators' & -> & Hall').
    cbn [obind fst snd]. eexists _, _. split; [reflexivity|].
    constructor; assumption.
Qed.

Lemma segment_loop_runs_all (Inv : G -> Prop) file file_end segs :
  forall generators done w,
  Forall (fun c => Planner.valid_segment c
                   /\ (MiscData.start_time c < file_end)%Q) segs ->
  Forall Inv generators ->
  sound_on G g_segment Inv segs ->
  exists generators' w',
    segment_loop G g_segment None file file_end segs generators done w
    = Ret (generators', (done + length segs)%nat, w').
Proof.
  induction segs as [|s segs IH]; intros generators done w Hall Hinv Hsound;
    cbn [segment_loop poll fst snd length].
  - eexists _, _. now rewrite Nat.add_0_r.
  - inversion Hall as [|? ? [Hvalid Hstart] Hrest]; subst.
    apply Qle_bool_false in Hstart. rewrite Hstart.
    apply Qlt_bool_iff in Hvalid. rewrite Hvalid. cbn [negb].
    destruct (run_segment_returns Inv s generators Hinv)
      as (packets & generators1 & -> & Hinv1).
    { intros g Hg. apply (Hsound s g); [now left | exact Hg]. }
    cbn [obind fst snd].
    destruct (IH generators1 (S done) (mux file packets w) Hrest Hinv1)
      as (generators' & w' & ->).
    { intros s' g Hs' Hg. apply (Hsound s' g); [now right | exact Hg]. }
    eexists _, _. now rewrite Nat.add_succ_r.
Qed.

(** X25.  A complete single-file export.  For keep intervals in ascending
    order and a video source whose cutpoints strictly ascend, and for
    generators that keep to an invariant on the planned segments (their
    [segment] returns and hands out no packet with a DTS above 10^12,
    which would end the run at the message of line 192), the loop over
    the plan, run with the end of the last interval as the end of the
    output file and without cancellation, hands every planned segment to
    the generators: no segment fails the check [start_time < end_time], and
    none is left for a next output file. *)
Theorem single_file_export_runs_whole_plan mc segs keyframe_mode lo
    last_interval file generators w (Inv : G -> Prop) :
  Planner.ascending_from lo segs ->
  Planner.strictly_ascending (Planner.source_cutpoints mc) ->
  last segs = Some last_interval ->
  Forall Inv generators ->
  sound_on G g_segment Inv
    (Planner.make_cut_segments_video mc segs keyframe_mode) ->
  exists generators' w',
    segment_loop G g_segment None file (snd last_interval)
      (Planner.make_cut_segments_video mc segs keyframe_mode) generators 0 w
    = Ret (generators',
           length (Planner.make_cut_segments_video mc segs keyframe_mode), w').
Proof.
  intros Hasc Hgops Hlast Hinv Hsound.
  pose proof (PlanShapeFacts.ascending_from_valid segs lo Hasc) as Hvalid.
  pose proof (PlannerFacts.video_segments_valid mc segs keyframe_mode Hvalid)
    as Hsegments.
  pose proof (PlanShapeFacts.gop_loop_from segs keyframe_mode
                (Planner.gops_of mc) 0%nat [] Hvalid ltac:(constructor))
    as Hfrom.
  pose proof (PlanShapeFacts.ascending_from_last segs lo last_interval
                Hasc Hlast) as Hends.
  apply (segment_loop_runs_all Inv file (snd last_interval)
           (Planner.make_cut_segments_video mc segs keyframe_mode)
           generators 0%nat w); [|exact Hinv | exact Hsound].
  unfold Planner.make_cut_segments_video in *.
  specialize (Hsegments
                ltac:(unfold Planner.gops_of;
                      now apply PlanShapeFacts.zip_gops_valid)).
  rewrite Forall_forall in Hsegments. rewrite Forall_forall in Hfrom.
  rewrite Forall_forall in Hends.
  apply Forall_forall. intros c Hc.
  split; [now apply Hsegments|].
  destruct (Hfrom c Hc) as (p & Hp & Hstart & _).
  specialize (Hends p ltac:(now apply list_elem_of_In)). cbn in Hends.
  eapply Qlt_le_trans; [exact Hstart | exact Hends].
Qed.

(** The message of line 192 ends the run: a generator that hands out a
    packet with a DTS above 10^12 makes the segment loop raise
    TypeError. *)
Lemma bad_dts_ends_the_run file file_end s rest g generators done w
    packets g' :
  (MiscData.start_time s < file_end)%Q ->
  Planner.valid_segment s ->
  g_segment s g = Ret (packets, g') ->
  existsb bad_dts (map drop_garbage_dts packets) = true ->
  segment_loop G g_segment None file file_end (s :: rest) (g :: generators)
    done w
  = Raise TypeError.
Proof.
  intros Hstart Hvalid Hcall Hbad. cbn [segment_loop poll fst snd].
  apply Qle_bool_false in Hstart. rewrite Hstart.
  apply Qlt_bool_iff in Hvalid. rewrite Hvalid. cbn [negb run_segment].
  rewrite Hcall. cbn [obind fst snd]. unfold checked. now rewrite Hbad.
Qed.

End Generators.

Lemma export_without_cancel_object_witness :
  continues_quietly {["out.mp4"]} empty_world
    (mkWorld
       [ EvOpen "out.mp4";
         EvMux "out.mp4" (Samples.video_packet (Some 0) (Some 0));
         EvMux "out.mp4" (Samples.video_packet (Some 1) (Some 1));
         EvMux "out.mp4" (Samples.video_packet (Some 2) (Some 2));
         EvClose "out.mp4" ] {["out.mp4"]} 0).
Proof.
  pose proof (export_without_cancel_object _ Samples.delayed_segment
                Samples.delayed_finish Samples.one_generator
                [ mkCutSegment true 0 2 0 (Some 177000) 0;
                  mkCutSegment false 2 4 180000 (Some 357000) 1;
                  mkCutSegment true 4 5 360000 (Some 537000) 2 ]
                [("out.mp4", (0, 5)%Q)] 0 empty_world _ eq_refl) as H.
  cbn [map list_to_set fst] in H. rewrite union_empty_r_L in H. exact H.
Defined.

Lemma single_file_export_runs_whole_plan_witness :
  exists generators' w',
    segment_loop _ Samples.delayed_segment None "out.mp4" 5
      (Planner.make_cut_segments_video Samples.three_gops
         [(0.5, 3)%Q; (3.5, 5)%Q] false) [[]] 0 empty_world
    = Ret (generators', 4%nat, w').
Proof.
  apply (single_file_export_runs_whole_plan _ Samples.delayed_segment
           Samples.three_gops [(0.5, 3)%Q; (3.5, 5)%Q] false 0 (3.5, 5)%Q
           "out.mp4" [[]] empty_world
           (fun held => existsb bad_dts (map drop_garbage_dts held) = false)).
  - cbn. repeat split; lra.
  - cbn. repeat split; lra.
  - reflexivity.
  - repeat constructor.
  - intros s held Hs Hheld. eexists _, _. split; [reflexivity|].
    split; [|exact Hheld].
    vm_compute in Hs.
    destruct Hs as [<-|[<-|[<-|[<-|[]]]]]; reflexivity.
Defined.

End ExportFacts.

(** ** media_utils.py, video_cutter.py: containers, codecs and CRF *)

Module CodecFacts.
Import MediaUtils.

(** X26.  For every container extension, known or not, with or without a
    leading dot and in any letter case, the default audio codec is one of
    the audio codecs valid for the container, and the default video codec
    one of the valid video codecs. *)
Theorem container_defaults_are_valid (container_ext : string) :
  In (get_default_audio_codec_for_container container_ext)
    (get_valid_audio_codecs_for_container container_ext)
  /\ In (get_default_video_codec_for_container container_ext)
       (get_valid_video_codecs_for_container container_ext).
Proof.
  unfold get_default_audio_codec_for_container,
    get_valid_audio_codecs_for_container,
    get_default_video_codec_for_container,
    get_valid_video_codecs_for_container.
  generalize (lstrip_dot (lower container_ext)). intros e.
  cbn [dict_literal_get]. split.
  - by_key e. vm_compute. auto.
  - by_key e. vm_compute. auto.
Qed.

(** *** The codec forced on audio-only formats *)

(** X28.  [get_compatible_codec_for_format] overrides the user's codec
    exactly for the six audio-only formats, spelled without a dot, in any
    letter case; the codec it forces is the value of the default audio
    codec of that container, and for every other extension it returns the
    value of the user's codec.  It lowers the extension but does not strip
    a leading dot: given the extension with a dot, which
    [is_audio_only_format] reads like the one without, it never overrides
    the user's codec. *)
Theorem forced_audio_codec_is_container_default user_codec file_extension :
  get_compatible_codec_for_format user_codec file_extension
  = (if existsb (String.eqb (lower file_extension)) get_audio_only_formats
     then AudioCodec_value
            (get_default_audio_codec_for_container file_extension)
     else AudioCodec_value user_codec)
  /\ get_compatible_codec_for_format user_codec (String dot file_extension)
     = AudioCodec_value user_codec
  /\ is_audio_only_format (String dot file_extension)
     = is_audio_only_format file_extension.
Proof.
  split; [|split; reflexivity].
  unfold get_compatible_codec_for_format,
    get_default_audio_codec_for_container, get_audio_only_formats.
  generalize (lower file_extension). intros e.
  cbn [dict_literal_get existsb].
  repeat match goal with
         | |- context [String.eqb e ?k] =>
             destruct (String.eqb_spec e k) as [->|?]; [reflexivity|]
         end.
  reflexivity.
Qed.

(** *** CRF *)

(** X29.  The CRF that the encoder gets, for every codec name: it lies in
    0..27, it is 0 exactly for the LOSSLESS preset, and a better preset
    never gets a higher CRF, the four points added for hevc, av1 and vp9
    (and for any name that contains [av1]) included. *)
Theorem crf_follows_quality codec_name quality :
  0 <= VideoCutter.encoder_crf codec_name quality <= 27
  /\ (VideoCutter.encoder_crf codec_name quality = 0 <-> quality = LOSSLESS)
  /\ (forall better,
        VideoExportQuality_value quality < VideoExportQuality_value better ->
        VideoCutter.encoder_crf codec_name better
        < VideoCutter.encoder_crf codec_name quality)
  /\ (forall name,
        contains "av1" name = true ->
        VideoCutter.encoder_crf (Some name) quality
        = VideoCutter.encoder_crf (Some "hevc") quality).
Proof.
  assert (Hav1 : forall name,
            contains "av1" name = true ->
            VideoCutter.encoder_crf (Some name) quality
            = VideoCutter.encoder_crf (Some "hevc") quality).
  { intros name H. unfold VideoCutter.encoder_crf. rewrite H. reflexivity. }
  unfold VideoCutter.encoder_crf in *.
  set (name' := if contains "av1" match codec_name with
                                  | Some n => n
                                  | None => EmptyString
                                  end
                then Some "av1" else codec_name).
  clearbody name'.
  split; [|split; [|split; [|exact Hav1]]].
  - destruct name' as [n|]; [destruct (existsb _ _)|];
      destruct quality; cbn; lia.
  - destruct name' as [n|]; [destruct (existsb _ _)|];
      destruct quality; cbn; split; intros H; congruence || lia.
  - intros better.
    destruct name' as [n|]; [destruct (existsb _ _)|];
      destruct quality, better; cbn; lia.
Qed.

End CodecFacts.
